(** * carcruisefinder: crawl orchestration and checkpointing

    A shallow embedding of the crawl engine of the repository:

    - [scraper.js], class [ComprehensiveCarEventScraper]: [saveProgress],
      [loadProgress], [stop], [scrapeEventDetails], [scrapeStateWorker],
      [scrapeAllEvents];
    - [combinedScraper.js], class [CombinedScraper]: [scrapeRegionEvents];
    - the event-link scraper [EventScraper] (an unnamed source file):
      [scrapeRegionEvents];
    - [index.js]: the handler of ['start-scraping'], which builds the
      scraper and starts or resumes a run.

    The network, the CSV sink, the progress file, the clock and the user's
    stop request are the environment.  They are modelled by an oracle [Env]
    indexed by a logical clock ([tick]) that advances at every [await] on an
    external operation.  Everything the code does to the outside is appended
    to a trace of [event]s, in program order. *)

From Stdlib Require Import List String Ascii Bool Arith NArith Lia DecimalString.
Import ListNotations.
Open Scope string_scope.
Open Scope nat_scope.
Open Scope list_scope.

(** ** JavaScript values used by the scrapers *)

(** A JS [Set] of strings keeps its elements in insertion order;
    [Array.from] and the spread operator read them in that order. *)
Module JsSet.
Definition t := list string.

Definition empty : t := [].

Definition has (s : t) (x : string) : bool := existsb (String.eqb x) s.

Definition add (s : t) (x : string) : t := if has s x then s else s ++ [x].

(** [new Set(array)] *)
Definition of_array (l : list string) : t := fold_left add l empty.

Definition size (s : t) : nat := List.length s.
End JsSet.

(** Template literals print numbers in decimal. *)
Definition show_nat (n : nat) : string := NilEmpty.string_of_uint (Nat.to_uint n).

(** [s.toLowerCase()] on ASCII text. *)
Definition lower_ascii (c : ascii) : ascii :=
  let n := nat_of_ascii c in
  if ((65 <=? n) && (n <=? 90))%nat then ascii_of_nat (n + 32) else c.

Fixpoint toLowerCase (s : string) : string :=
  match s with
  | EmptyString => EmptyString
  | String c r => String (lower_ascii c) (toLowerCase r)
  end.

(** The class [\s] on ASCII text: tab, line feed, vertical tab, form feed,
    carriage return, space. *)
Definition is_space (c : ascii) : bool :=
  let n := nat_of_ascii c in
  (((9 <=? n) && (n <=? 13)) || (n =? 32))%nat.

(** [s.replace(/\s+/g, '_')]: every maximal run of white space becomes one
    underscore.  [in_run] tells that the previous character was white space. *)
Fixpoint replace_spaces (in_run : bool) (s : string) : string :=
  match s with
  | EmptyString => EmptyString
  | String c r =>
      if is_space c
      then (if in_run then replace_spaces true r else String "_" (replace_spaces true r))
      else String c (replace_spaces false r)
  end.

(** [stateName.toLowerCase().replace(/\s+/g, '_')] *)
Definition stateIdOf (stateName : string) : string :=
  replace_spaces false (toLowerCase stateName).

(** [a || b] on strings: the empty string is falsy. *)
Definition str_or (a b : string) : string :=
  match a with EmptyString => b | _ => a end.

(** ** JSON.stringify(value, null, 2) *)
Module JSON.
Local Open Scope string_scope.

#[warnings="-register-all"]
Inductive value :=
| Num (n : nat)
| Str (s : string)
| Arr (items : list value)
| Obj (members : list (string * value)).

Definition dquote : string := String (ascii_of_nat 34) "".
Definition newline : string := String (ascii_of_nat 10) "".

Definition hex_digit (n : nat) : ascii :=
  if (n <? 10)%nat then ascii_of_nat (48 + n) else ascii_of_nat (87 + n).

Definition escape_char (c : ascii) : string :=
  let n := nat_of_ascii c in
  if (n =? 34)%nat then "\" ++ dquote
  else if (n =? 92)%nat then "\\"
  else if (n =? 8)%nat then "\b"
  else if (n =? 12)%nat then "\f"
  else if (n =? 10)%nat then "\n"
  else if (n =? 13)%nat then "\r"
  else if (n =? 9)%nat then "\t"
  else if (n <? 32)%nat
       then "\u00" ++ String (hex_digit (n / 16)) (String (hex_digit (n mod 16)) "")
       else String c "".

Fixpoint escape (s : string) : string :=
  match s with
  | EmptyString => EmptyString
  | String c r => escape_char c ++ escape r
  end.

Definition quote (s : string) : string := dquote ++ escape s ++ dquote.

Fixpoint spaces (n : nat) : string :=
  match n with 0 => "" | S k => " " ++ spaces k end.

(** a line break followed by the indentation of nesting depth [d] *)
Definition break (d : nat) : string := newline ++ spaces (2 * d).

Fixpoint print (d : nat) (v : value) : string :=
  match v with
  | Num n => show_nat n
  | Str s => quote s
  | Arr [] => "[]"
  | Arr items =>
      "[" ++ break (S d)
          ++ String.concat ("," ++ break (S d)) (map (print (S d)) items)
          ++ break d ++ "]"
  | Obj [] => "{}"
  | Obj members =>
      "{" ++ break (S d)
          ++ String.concat ("," ++ break (S d))
               (map (fun kv => quote (fst kv) ++ ": " ++ print (S d) (snd kv)) members)
          ++ break d ++ "}"
  end.

Definition stringify (v : value) : string := print 0 v.
End JSON.

(** ** The file system, as far as [fs.writeFile] is concerned

    [fs.writeFile(path, data)] opens [path] with flag ['w'], which creates or
    truncates it, and then writes [data]; it is not atomic.  A disk is a
    partial map from paths to contents, and a write is a sequence of primitive
    steps, after any of which the process can die or the write can fail. *)
Module Fs.
Definition path := string.
Definition t := path -> option string.

Definition empty : t := fun _ => None.

Definition update (d : t) (p : path) (c : option string) : t :=
  fun q => if String.eqb q p then c else d q.

Inductive step :=
| Truncate (p : path)
| Append (p : path) (c : ascii)
| Rename (src dst : path).

Definition apply (d : t) (s : step) : t :=
  match s with
  | Truncate p => update d p (Some "")
  | Append p c =>
      match d p with
      | Some old => update d p (Some (String.append old (String c "")))
      | None => update d p (Some (String c ""))
      end
  | Rename src dst =>
      match d src with
      | Some c => update (update d src None) dst (Some c)
      | None => d
      end
  end.

Definition run (d : t) (steps : list step) : t := fold_left apply steps d.

Definition writeFile (p : path) (data : string) : list step :=
  Truncate p :: map (Append p) (list_ascii_of_string data).

(** the disk found when only the first [k] steps happened *)
Definition interrupted (d : t) (steps : list step) (k : nat) : t :=
  run d (firstn k steps).

Definition target (s : step) : path :=
  match s with Truncate p => p | Append p _ => p | Rename _ dst => dst end.

Definition is_rename (s : step) : bool :=
  match s with Rename _ _ => true | _ => false end.
End Fs.

(** ** Data of the scraper *)

(** What the selectors of [scrapeEventDetails] read from a detail page. *)
Record DetailFields := {
  f_eventName : string;
  f_venue : string;
  f_streetAddress : string;
  f_city : string;
  f_stateAbbr : string;
  f_country : string;
  f_date : string;
  f_startTime : string;
  f_endTime : string;
  f_description : string
}.

(** The [record] object written to the CSV file. *)
Record EventRecord := {
  eventName : string;
  state : string;
  venue : string;
  streetAddress : string;
  city : string;
  stateAbbr : string;
  country : string;
  date : string;
  start_time : string;
  end_time : string;
  description : string;
  originalLink : string
}.

Definition make_record (f : DetailFields) (stateName eventLink : string) : EventRecord :=
  {| eventName := f_eventName f; state := stateName; venue := f_venue f;
     streetAddress := f_streetAddress f; city := f_city f;
     stateAbbr := f_stateAbbr f; country := f_country f; date := f_date f;
     start_time := f_startTime f; end_time := f_endTime f;
     description := f_description f; originalLink := eventLink |}.

(** A fetched document, seen through the two extractions the scraper runs on
    it: the event links of a listing page and the fields of a detail page. *)
Record Page := {
  listing_links : list string;
  detail_fields : DetailFields
}.

(** The outcome of [axios.get]: a response, or a thrown error with
    [error.response.status] (absent on a network error) and [error.message]. *)
Inductive HttpResult :=
| HttpOk (body : Page)
| HttpError (status : option nat) (message : string).

(** [error.response && error.response.status === 404] *)
Definition is_404 (status : option nat) : bool :=
  match status with
  | Some n => n =? 404
  | None => false
  end.

(** One entry of [this.stateProgress]. *)
Record StateProgressEntry := {
  lastPage : nat;
  totalPages : nat;
  lastProcessed : string;
  eventsFound : nat
}.

(** The fields of [this] of [ComprehensiveCarEventScraper]. *)
Record Scraper := {
  baseUrl : string;
  maxConcurrency : nat;
  progressPath : string;
  trackedEventLinks : JsSet.t;
  currentState : nat;
  totalStates : nat;
  processedEvents : nat;
  totalEventsFound : nat;
  stateProgress : list (string * StateProgressEntry);
  completedStates : JsSet.t;
  isRunning : bool
}.

(** [obj[key]] on [this.stateProgress] *)
Fixpoint sp_get (m : list (string * StateProgressEntry)) (k : string)
  : option StateProgressEntry :=
  match m with
  | [] => None
  | (k', v) :: r => if String.eqb k k' then Some v else sp_get r k
  end.

(** [obj[key] = v]: an existing key keeps its place, a new one goes last *)
Fixpoint sp_set (m : list (string * StateProgressEntry)) (k : string)
  (v : StateProgressEntry) : list (string * StateProgressEntry) :=
  match m with
  | [] => [(k, v)]
  | (k', v') :: r => if String.eqb k k' then (k', v) :: r else (k', v') :: sp_set r k v
  end.

(** ** saveProgress: the serialised checkpoint *)

Definition json_of_entry (e : StateProgressEntry) : JSON.value :=
  JSON.Obj [ ("lastPage", JSON.Num (lastPage e));
             ("totalPages", JSON.Num (totalPages e));
             ("lastProcessed", JSON.Str (lastProcessed e));
             ("eventsFound", JSON.Num (eventsFound e)) ].

(** The object literal [progressData] of [saveProgress]; [timestamp] is
    [new Date().toISOString()]. *)
Definition progressData (s : Scraper) (timestamp : string) : JSON.value :=
  JSON.Obj [ ("trackedEventLinks", JSON.Arr (map JSON.Str (trackedEventLinks s)));
             ("currentState", JSON.Num (currentState s));
             ("totalStates", JSON.Num (totalStates s));
             ("processedEvents", JSON.Num (processedEvents s));
             ("totalEventsFound", JSON.Num (totalEventsFound s));
             ("stateProgress",
               JSON.Obj (map (fun kv => (fst kv, json_of_entry (snd kv))) (stateProgress s)));
             ("completedStates", JSON.Arr (map JSON.Str (completedStates s)));
             ("timestamp", JSON.Str timestamp) ].

(** The disk steps of
    [await fs.writeFile(this.progressPath, JSON.stringify(progressData, null, 2))]. *)
Definition saveProgress_steps (s : Scraper) (timestamp : string) : list Fs.step :=
  Fs.writeFile (progressPath s) (JSON.stringify (progressData s timestamp)).

(** The save the specification describes: the text goes to a temporary file,
    which is then renamed over the checkpoint.  It is not in the source and
    serves for comparison only. *)
Definition spec_saveProgress_steps (s : Scraper) (timestamp : string) : list Fs.step :=
  Fs.writeFile (String.append (progressPath s) ".tmp") (JSON.stringify (progressData s timestamp))
    ++ [Fs.Rename (String.append (progressPath s) ".tmp") (progressPath s)].

(** ** The environment *)

(** What [JSON.parse] finds in the progress file, field by field; a field is
    [None] when it is missing or not of the type [loadProgress] asks for
    (a number, or an array for [Array.isArray]). *)
Record ProgressJson := {
  pj_currentState : option nat;
  pj_totalStates : option nat;
  pj_processedEvents : option nat;
  pj_totalEventsFound : option nat;
  pj_trackedEventLinks : option (list string);
  pj_stateProgress : option (list (string * StateProgressEntry));
  pj_completedStates : option (list string)
}.

(** What [scrapeWithPuppeteer] of [combinedScraper.js] comes to: the links
    evaluated in the page ([success: true]), an error caught inside it
    ([success: false]), or an error thrown outside its [try] block
    ([puppeteer.launch], [browser.close]). *)
Inductive PuppeteerResult :=
| PuppeteerLinks (eventLinks : list string)
| PuppeteerFailed
| PuppeteerThrows (message : string).

(** The outside world, asked at the current [tick]. *)
Record Env := {
  (** the outcome of the [axios.get] issued at this tick for this URL *)
  axios_get : nat -> string -> HttpResult;
  (** the message of the error thrown by [csvWriter.writeRecords], if any *)
  csv_write_error : nat -> option string;
  (** [fs.writeFile] fails after this many disk steps, if at all *)
  fs_write_fault : nat -> option nat;
  (** [stop()] is called while the scraper is suspended at this tick *)
  stop_called : nat -> bool;
  (** [global.isScraperRunning === false] when read at this tick *)
  global_stop : nat -> bool;
  (** [new Date().toISOString()] *)
  now : nat -> string;
  (** [JSON.parse] on the text of the progress file; [None] when it throws *)
  JSON_parse : string -> option ProgressJson;
  (** [getStateFromUrl], the regular-expression fallback for a missing state
      name; no property below depends on what it returns *)
  getStateFromUrl : string -> string;
  (** [scrapeWithPuppeteer] on this URL at this tick *)
  puppeteer_get : nat -> string -> PuppeteerResult;
  (** [new URL(url).origin]; [None] when the constructor throws, as it does
      on a string that is not an absolute URL *)
  URL_origin : string -> option string
}.

(** ** Effects *)

(** The payload of a call of [this.onProgress]. *)
Inductive report :=
| StopRequested
| StateAborted (state : string)
| EventsAborted (state : string)
| StateSkipped (state : string)
| StateSkippedAt (state : string) (stateIndex nStates : nat)
| StateResumed (state : string) (page : nat)
| StateProgress (state : string) (page found : nat)
| StateRetrying (state : string) (page found retryCount : nat)
| OverallProgress (processed total statesProcessed nStates : nat)
| PageError (message state : string) (page retryCount : nat)
| EventError (message link : string) (retryCount : nat)
| StateCompleted (state : string) (pagesProcessed found : nat)
| EventDetails (name state date : string)
| Stopped (atState nStates : nat)
| ScraperSummary (nStates nCompleted alreadyFound : nat)
| StateStarting (state : string) (stateIndex nStates : nat)
| StateFinished (state : string) (eventsScraped stateIndex nStates : nat)
| ScrapingComplete (totalEvents nStates : nat).

(** The call site of an [axios.get]: a listing page or a detail page. *)
Inductive origin := Listing | Detail.

Inductive event :=
| Fetch (o : origin) (url : string)       (* axios.get(url) *)
| Browse (url : string)                   (* scrapeWithPuppeteer(url) *)
| Sleep (ms : N)                          (* setTimeout(resolve, ms) *)
| Track (link : string)                   (* trackedEventLinks.add(link) *)
| CsvWrite (r : EventRecord) (ok : bool)  (* csvWriter.writeRecords([r]) *)
| MarkCompleted (stateId : string)        (* completedStates.add(stateId) *)
| SaveProgress (ok : bool)                (* fs.writeFile(progressPath, ...) *)
| LoadProgress (ok : bool)                (* loadProgress() *)
| Progress (p : report).                (* this.onProgress(...) *)

(** The state of a run.  [csv] is the content of the file at [csvPath], as
    the list of its rows: the writer is built with [append: true] and every
    [writeRecords] adds a row at the end.  [disk] holds the files that the
    scraper writes with [fs.writeFile], that is the progress file; the CSV
    file and the log file, to which the default [onProgress] appends each
    message, are not in it (a message is an event [Progress] of the
    trace). *)
Record St := {
  self : Scraper;
  tick : nat;
  csv : list EventRecord;
  disk : Fs.t;
  trace : list event
}.

Definition with_self (f : Scraper -> Scraper) (st : St) : St :=
  {| self := f (self st); tick := tick st; csv := csv st; disk := disk st;
     trace := trace st |}.

Definition with_trace (e : event) (st : St) : St :=
  {| self := self st; tick := tick st; csv := csv st; disk := disk st;
     trace := trace st ++ [e] |}.

Definition with_csv (r : EventRecord) (st : St) : St :=
  {| self := self st; tick := tick st; csv := csv st ++ [r]; disk := disk st;
     trace := trace st |}.

Definition with_disk (d : Fs.t) (st : St) : St :=
  {| self := self st; tick := tick st; csv := csv st; disk := d;
     trace := trace st |}.

Definition with_tick (t : nat) (st : St) : St :=
  {| self := self st; tick := t; csv := csv st; disk := disk st;
     trace := trace st |}.

Definition set_isRunning (b : bool) (s : Scraper) : Scraper :=
  {| baseUrl := baseUrl s; maxConcurrency := maxConcurrency s;
     progressPath := progressPath s; trackedEventLinks := trackedEventLinks s;
     currentState := currentState s; totalStates := totalStates s;
     processedEvents := processedEvents s; totalEventsFound := totalEventsFound s;
     stateProgress := stateProgress s; completedStates := completedStates s;
     isRunning := b |}.

Definition set_trackedEventLinks (t : JsSet.t) (s : Scraper) : Scraper :=
  {| baseUrl := baseUrl s; maxConcurrency := maxConcurrency s;
     progressPath := progressPath s; trackedEventLinks := t;
     currentState := currentState s; totalStates := totalStates s;
     processedEvents := processedEvents s; totalEventsFound := totalEventsFound s;
     stateProgress := stateProgress s; completedStates := completedStates s;
     isRunning := isRunning s |}.

Definition set_completedStates (t : JsSet.t) (s : Scraper) : Scraper :=
  {| baseUrl := baseUrl s; maxConcurrency := maxConcurrency s;
     progressPath := progressPath s; trackedEventLinks := trackedEventLinks s;
     currentState := currentState s; totalStates := totalStates s;
     processedEvents := processedEvents s; totalEventsFound := totalEventsFound s;
     stateProgress := stateProgress s; completedStates := t;
     isRunning := isRunning s |}.

Definition set_stateProgress (m : list (string * StateProgressEntry)) (s : Scraper) : Scraper :=
  {| baseUrl := baseUrl s; maxConcurrency := maxConcurrency s;
     progressPath := progressPath s; trackedEventLinks := trackedEventLinks s;
     currentState := currentState s; totalStates := totalStates s;
     processedEvents := processedEvents s; totalEventsFound := totalEventsFound s;
     stateProgress := m; completedStates := completedStates s;
     isRunning := isRunning s |}.

(** [currentState], [totalStates], [processedEvents], [totalEventsFound] *)
Definition set_counters (cur tot proc found : nat) (s : Scraper) : Scraper :=
  {| baseUrl := baseUrl s; maxConcurrency := maxConcurrency s;
     progressPath := progressPath s; trackedEventLinks := trackedEventLinks s;
     currentState := cur; totalStates := tot;
     processedEvents := proc; totalEventsFound := found;
     stateProgress := stateProgress s; completedStates := completedStates s;
     isRunning := isRunning s |}.

(** A computation reads and changes the state.  Its result is [None] only
    when a loop of unknown length ran out of the fuel it was given; the state
    is then the one reached so far, so that what is said of every trace also
    holds of every run that is cut short. *)
Definition M (A : Type) : Type := St -> option A * St.

Definition ret {A} (a : A) : M A := fun st => (Some a, st).

Definition bind {A B} (m : M A) (k : A -> M B) : M B :=
  fun st => match m st with
            | (Some a, st') => k a st'
            | (None, st') => (None, st')
            end.

Definition out_of_fuel {A} : M A := fun st => (None, st).

Declare Scope m_scope.
Delimit Scope m_scope with m.
Notation "x <- c1 ;; c2" := (bind c1 (fun x => c2))
  (at level 100, c1 at next level, right associativity) : m_scope.
Notation "c1 ;; c2" := (bind c1 (fun _ => c2))
  (at level 100, right associativity) : m_scope.
Open Scope m_scope.

Definition this : M Scraper := fun st => (Some (self st), st).

Definition update_this (f : Scraper -> Scraper) : M unit :=
  fun st => (Some tt, with_self f st).

Definition emit (e : event) : M unit := fun st => (Some tt, with_trace e st).

Definition onProgress (p : report) : M unit := emit (Progress p).

Section Scraper.
Variable env : Env.

(** The method [stop()]. *)
Definition stop : M unit :=
  update_this (set_isRunning false);;
  onProgress StopRequested.

(** The scraper is suspended on an external operation: the clock advances,
    and the user may call [stop()] meanwhile. *)
Definition await : M unit :=
  fun st =>
    let st' := with_tick (S (tick st)) st in
    if stop_called env (tick st) then stop st' else (Some tt, st').

(** [await new Promise(resolve => setTimeout(resolve, ms))] *)
Definition sleep (ms : N) : M unit := emit (Sleep ms);; await.

(** [await axios.get(url, ...)] *)
Definition http_get (o : origin) (url : string) : M HttpResult :=
  fun st => (emit (Fetch o url);; await;; ret (axios_get env (tick st) url)) st.

(** [await this.csvWriter.writeRecords([record])]; the result is the message
    of the error thrown, if any.  The row goes to [csv], which stands for the
    file at [csvPath]; [disk] is not concerned. *)
Definition writeRecords (r : EventRecord) : M (option string) :=
  fun st =>
    match csv_write_error env (tick st) with
    | Some msg => (emit (CsvWrite r false);; await;; ret (Some msg)) st
    | None => (emit (CsvWrite r true);; await;; ret None) (with_csv r st)
    end.

(** [saveProgress()]: the text is written in place; an error is caught and
    printed on the console. *)
Definition saveProgress : M unit :=
  fun st =>
    let steps := saveProgress_steps (self st) (now env (tick st)) in
    match fs_write_fault env (tick st) with
    | None =>
        (emit (SaveProgress true);; await) (with_disk (Fs.run (disk st) steps) st)
    | Some k =>
        (emit (SaveProgress false);; await)
          (with_disk (Fs.interrupted (disk st) steps k) st)
    end.

Definition maxRetries : nat := 3.

(** *** scrapeEventDetails

    The body of the [try] block is cut at [axios.get]: [request] runs from
    the top of the loop to the call, [respond] from the response on.  The
    [catch] block is [failed].  [None] stands for [null]. *)
Definition request (eventLink : string) (retries : nat) : M (option HttpResult) :=
  s <- this;;
  if JsSet.has (trackedEventLinks s) eventLink then ret None
  else
    (if 0 <? retries then sleep (2 ^ N.of_nat retries * 1000)%N else ret tt);;
    r <- http_get Detail eventLink;;
    ret (Some r).

Fixpoint respond (fuel : nat) (eventLink stateName : string) (retries : nat)
  (r : HttpResult) : M (option EventRecord) :=
  let failed (message : string) : M (option EventRecord) :=
    let retries := retries + 1 in
    onProgress (EventError message eventLink retries);;
    if maxRetries <=? retries then ret None
    else if retries <? maxRetries then
      match fuel with
      | 0 => out_of_fuel
      | S fuel' =>
          q <- request eventLink retries;;
          match q with
          | None => ret None
          | Some r' => respond fuel' eventLink stateName retries r'
          end
      end
    else ret None in
  match r with
  | HttpOk body =>
      let record := make_record (detail_fields body) stateName eventLink in
      s <- this;;
      update_this (set_trackedEventLinks (JsSet.add (trackedEventLinks s) eventLink));;
      emit (Track eventLink);;
      w <- writeRecords record;;
      match w with
      | None =>
          onProgress (EventDetails (eventName record) stateName (date record));;
          ret (Some record)
      | Some message => failed message
      end
  | HttpError _ message => failed message
  end.

Definition scrapeEventDetails (eventLink stateName : string) : M (option EventRecord) :=
  if 0 <? maxRetries then
    q <- request eventLink 0;;
    match q with
    | None => ret None
    | Some r => respond maxRetries eventLink stateName 0 r
    end
  else ret None.

(** *** scrapeStateWorker *)

(** The chunks of [eventLinks]:
    [for (let i = 0; i < eventLinks.length; i += size) chunks.push(eventLinks.slice(i, i + size))].
    With [size = 0] the source loop does not end; the model then yields
    [None].  The constructor sets [maxConcurrency] to
    [options.maxConcurrency || 5], which is never [0]. *)
Fixpoint chunks_from (fuel size : nat) (l : list string) : option (list (list string)) :=
  match l with
  | [] => Some []
  | _ =>
      match fuel with
      | 0 => None
      | S fuel' =>
          match chunks_from fuel' size (skipn size l) with
          | Some r => Some (firstn size l :: r)
          | None => None
          end
      end
  end.

Definition chunks_of (size : nat) (l : list string) : option (list (list string)) :=
  if size =? 0 then (match l with [] => Some [] | _ => None end)
  else chunks_from (List.length l) size l.

(** [Promise.allSettled(chunk.map(async link => await this.scrapeEventDetails(link, state)))]:
    every task starts at once and runs to its first [await], the request;
    the responses are then handled in the order of the chunk, a task running
    to its end before the next one resumes. *)
Fixpoint launch (chunk : list string) : M (list (string * option HttpResult)) :=
  match chunk with
  | [] => ret []
  | eventLink :: rest =>
      q <- (if 0 <? maxRetries then request eventLink 0 else ret None);;
      tasks <- launch rest;;
      ret ((eventLink, q) :: tasks)
  end.

Fixpoint settle (stateName : string) (tasks : list (string * option HttpResult))
  : M (list (option EventRecord)) :=
  match tasks with
  | [] => ret []
  | (eventLink, q) :: rest =>
      v <- match q with
           | None => ret None
           | Some r => respond maxRetries eventLink stateName 0 r
           end;;
      values <- settle stateName rest;;
      ret (v :: values)
  end.

Definition allSettled (chunk : list string) (stateName : string)
  : M (list (option EventRecord)) :=
  tasks <- launch chunk;;
  settle stateName tasks.

(** [results.filter(r => r.status === 'fulfilled' && r.value !== null).length] *)
Definition successfulScrapes (results : list (option EventRecord)) : nat :=
  List.length (filter (fun r => match r with Some _ => true | None => false end) results).

(** How a block of the worker ends: it falls through, it leaves the loop
    ([break]), or it leaves the function ([return scrapedEventLinks]). *)
Inductive ctl := Next | Break | Return.

(** The local variables of [scrapeStateWorker]. *)
Record Walk := {
  currentPage : nat;
  hasMorePages : bool;
  scrapedEventLinks : list string;
  retries : nat;
  success : bool
}.

Section Worker.
Variables (fullUrl stateId stateDisplayName : string).

Definition pageUrl (page : nat) : string :=
  if 1 <? page
  then String.append fullUrl (String.append "/page/" (String.append (show_nat page) "/"))
  else fullUrl.

(** [for (const chunk of chunks) { ... }] *)
Fixpoint scrape_chunks (chunks : list (list string)) : M ctl :=
  match chunks with
  | [] => ret Next
  | chunk :: rest =>
      s <- this;;
      if negb (isRunning s) then
        onProgress (EventsAborted stateDisplayName);;
        ret Return
      else
        results <- allSettled chunk stateDisplayName;;
        s <- this;;
        update_this (set_counters (currentState s) (totalStates s)
                       (processedEvents s + successfulScrapes results)
                       (totalEventsFound s));;
        s <- this;;
        onProgress (OverallProgress (processedEvents s) (totalEventsFound s)
                      (currentState s) (totalStates s));;
        saveProgress;;
        scrape_chunks rest
  end.

(** The [try] block from the response on, and the [catch] block. *)
Definition page_response (w : Walk) (r : HttpResult) : M (ctl * Walk) :=
  match r with
  | HttpOk body =>
      s <- this;;
      let eventLinks :=
        filter (fun link => negb (JsSet.has (trackedEventLinks s) link))
               (listing_links body) in
      match eventLinks with
      | [] =>
          ret (Break, {| currentPage := currentPage w; hasMorePages := false;
                         scrapedEventLinks := scrapedEventLinks w;
                         retries := retries w; success := success w |})
      | _ =>
          match chunks_of (maxConcurrency s) eventLinks with
          | None => out_of_fuel
          | Some chunks =>
              c <- scrape_chunks chunks;;
              match c with
              | Return => ret (Return, w)
              | _ =>
                  s <- this;;
                  update_this (set_counters (currentState s) (totalStates s)
                                 (processedEvents s)
                                 (totalEventsFound s + List.length eventLinks));;
                  (fun st =>
                     let old := sp_get (stateProgress (self st)) stateId in
                     update_this
                       (set_stateProgress
                          (sp_set (stateProgress (self st)) stateId
                             {| lastPage := currentPage w;
                                totalPages := currentPage w;
                                lastProcessed := now env (tick st);
                                eventsFound :=
                                  match old with
                                  | Some e => eventsFound e
                                  | None => 0
                                  end + List.length eventLinks |})) st);;
                  saveProgress;;
                  sleep 1000%N;;
                  ret (Next, {| currentPage := currentPage w + 1;
                                hasMorePages := hasMorePages w;
                                scrapedEventLinks := scrapedEventLinks w ++ eventLinks;
                                retries := retries w; success := true |})
              end
          end
      end
  | HttpError status message =>
      let retries' := retries w + 1 in
      onProgress (PageError message stateDisplayName (currentPage w) retries');;
      if is_404 status then
        ret (Break, {| currentPage := currentPage w; hasMorePages := false;
                       scrapedEventLinks := scrapedEventLinks w;
                       retries := retries'; success := success w |})
      else
        let w' := {| currentPage := currentPage w; hasMorePages := hasMorePages w;
                     scrapedEventLinks := scrapedEventLinks w;
                     retries := retries'; success := success w |} in
        if maxRetries <=? retries' then ret (Break, w') else ret (Next, w')
  end.

(** One pass through the [try] / [catch] of the retry loop. *)
Definition try_page (w : Walk) : M (ctl * Walk) :=
  onProgress (StateProgress stateDisplayName (currentPage w)
                (List.length (scrapedEventLinks w)));;
  (if 0 <? retries w then
     sleep (2 ^ N.of_nat (retries w) * 1000)%N;;
     onProgress (StateRetrying stateDisplayName (currentPage w)
                   (List.length (scrapedEventLinks w)) (retries w))
   else ret tt);;
  r <- http_get Listing (pageUrl (currentPage w));;
  page_response w r.

(** [while (retries < maxRetries && !success) { try ... catch ... }] *)
Fixpoint retry_loop (fuel : nat) (w : Walk) : M (ctl * Walk) :=
  if (retries w <? maxRetries) && negb (success w) then
    match fuel with
    | 0 => out_of_fuel
    | S fuel' =>
        r <- try_page w;;
        match fst r with
        | Next => retry_loop fuel' (snd r)
        | _ => ret r
        end
    end
  else ret (Next, w).

(** [while (hasMorePages) { ... }] *)
Fixpoint page_loop (fuel : nat) (w : Walk) : M (ctl * Walk) :=
  if hasMorePages w then
    match fuel with
    | 0 => out_of_fuel
    | S fuel' =>
        s <- this;;
        if negb (isRunning s) then
          onProgress (StateAborted stateDisplayName);;
          ret (Return, w)
        else
          r <- retry_loop maxRetries
                 {| currentPage := currentPage w; hasMorePages := hasMorePages w;
                    scrapedEventLinks := scrapedEventLinks w;
                    retries := 0; success := false |};;
          match fst r with
          | Return => ret r
          | _ =>
              if negb (success (snd r)) && (maxRetries <=? retries (snd r))
              then ret (Break, snd r)
              else page_loop fuel' (snd r)
          end
    end
  else ret (Next, w).
End Worker.

Definition scrapeStateWorker (fuel : nat) (stateLink stateName : string)
  : M (list string) :=
  s <- this;;
  if negb (isRunning s) then
    onProgress (StateAborted stateName);;
    ret []
  else
    let stateId := stateIdOf stateName in
    let fullUrl :=
      if String.prefix "http" stateLink then stateLink
      else String.append (baseUrl s) stateLink in
    if JsSet.has (completedStates s) stateId then
      onProgress (StateSkipped stateName);;
      ret []
    else
      page <- match sp_get (stateProgress s) stateId with
              | Some e =>
                  if 0 <? lastPage e then
                    onProgress (StateResumed stateName (lastPage e + 1));;
                    ret (lastPage e + 1)
                  else ret 1
              | None => ret 1
              end;;
      let stateDisplayName :=
        str_or stateName (str_or (getStateFromUrl env stateLink) "Unknown State") in
      r <- page_loop fullUrl stateId stateDisplayName fuel
             {| currentPage := page; hasMorePages := true;
                scrapedEventLinks := []; retries := 0; success := false |};;
      match fst r with
      | Return => ret (scrapedEventLinks (snd r))
      | _ =>
          s <- this;;
          update_this (set_completedStates (JsSet.add (completedStates s) stateId));;
          emit (MarkCompleted stateId);;
          onProgress (StateCompleted stateDisplayName (currentPage (snd r) - 1)
                        (List.length (scrapedEventLinks (snd r))));;
          saveProgress;;
          ret (scrapedEventLinks (snd r))
      end.

(** *** loadProgress *)

Definition or_zero (o : option nat) : nat :=
  match o with Some n => n | None => 0 end.

Definition restore (pj : ProgressJson) (s : Scraper) : Scraper :=
  {| baseUrl := baseUrl s; maxConcurrency := maxConcurrency s;
     progressPath := progressPath s;
     trackedEventLinks :=
       match pj_trackedEventLinks pj with
       | Some l => JsSet.of_array l
       | None => trackedEventLinks s
       end;
     currentState := or_zero (pj_currentState pj);
     totalStates := or_zero (pj_totalStates pj);
     processedEvents := or_zero (pj_processedEvents pj);
     totalEventsFound := or_zero (pj_totalEventsFound pj);
     stateProgress :=
       match pj_stateProgress pj with Some m => m | None => [] end;
     completedStates :=
       match pj_completedStates pj with
       | Some l => JsSet.of_array l
       | None => completedStates s
       end;
     isRunning := isRunning s |}.

Definition loadProgress : M bool :=
  fun st =>
    match disk st (progressPath (self st)) with
    | None => (await;; ret false) st
    | Some text =>
        match JSON_parse env text with
        | None => (await;; await;; emit (LoadProgress false);; ret false) st
        | Some pj =>
            (await;; await;; update_this (restore pj);;
             emit (LoadProgress true);; ret true) st
        end
    end.

(** *** scrapeAllEvents *)

(** The second argument of [scrapeAllEvents]: a state index, or [true]. *)
Inductive ResumeArg := ResumeIndex (i : nat) | ResumeStored.

(** [for (let i = resumeFromState; i < stateLinks.length; i++) { ... }] on
    the states from index [i] on; the result tells whether the function
    returned from inside the loop. *)
Fixpoint states_loop (fuel nStates i : nat) (rest : list (string * string)) : M bool :=
  match rest with
  | [] => ret false
  | (link, name) :: rest' =>
      fun st =>
        if negb (isRunning (self st)) || global_stop env (tick st) then
          (onProgress (Stopped i nStates);;
           saveProgress;;
           ret true) st
        else
          (s <- this;;
           update_this (set_counters i (totalStates s) (processedEvents s)
                          (totalEventsFound s));;
           let stateName :=
             str_or name (str_or (getStateFromUrl env link)
                                 (String.append "State " (show_nat (i + 1)))) in
           let stateId := stateIdOf stateName in
           if JsSet.has (completedStates s) stateId then
             onProgress (StateSkippedAt stateName i nStates);;
             states_loop fuel nStates (i + 1) rest'
           else
             onProgress (StateStarting stateName i nStates);;
             scraped <- scrapeStateWorker fuel link stateName;;
             onProgress (StateFinished stateName (List.length scraped) i nStates);;
             saveProgress;;
             states_loop fuel nStates (i + 1) rest') st
  end.

(** [scrapeAllEvents(stateLinks, resumeFromState)].  [initCsvWriter] only
    builds the writer object.  The calls below catch their own exceptions,
    so the [finally] block, a [saveProgress], is the last step of every run,
    also of one that returned from inside the loop. *)
Definition scrapeAllEvents (fuel : nat) (stateLinks : list (string * string))
  (resumeFromState : ResumeArg) : M unit :=
  update_this (set_isRunning true);;
  from <- match resumeFromState with
          | ResumeIndex 0 => ret 0
          | ResumeIndex i => loadProgress;; ret i
          | ResumeStored => loadProgress;; s <- this;; ret (currentState s)
          end;;
  s <- this;;
  update_this (set_counters from (List.length stateLinks) (processedEvents s)
                 (totalEventsFound s));;
  onProgress (ScraperSummary (List.length stateLinks) (JsSet.size (completedStates s))
                (totalEventsFound s));;
  returned <- states_loop fuel (List.length stateLinks) from (skipn from stateLinks);;
  (if returned : bool then ret tt
   else
     s <- this;;
     onProgress (ScrapingComplete (totalEventsFound s) (List.length stateLinks)));;
  saveProgress.

End Scraper.

Arguments pageUrl fullUrl page : simpl never.

(** The constructor of [ComprehensiveCarEventScraper]:
    [options.x || default] for every option. *)
Record Options := {
  opt_maxConcurrency : option nat;
  opt_progressPath : option string;
  opt_trackedEventLinks : option JsSet.t;
  opt_stateProgress : option (list (string * StateProgressEntry));
  opt_completedStates : option JsSet.t
}.

Definition constructor (options : Options) : Scraper :=
  {| baseUrl := "https://carcruisefinder.com";
     maxConcurrency :=
       match opt_maxConcurrency options with
       | Some (S n) => S n
       | _ => 5
       end;
     progressPath :=
       match opt_progressPath options with
       | Some (String c r) => String c r
       | _ => "scraper_progress.json"
       end;
     trackedEventLinks :=
       match opt_trackedEventLinks options with Some t => t | None => JsSet.empty end;
     currentState := 0;
     totalStates := 0;
     processedEvents := 0;
     totalEventsFound := 0;
     stateProgress :=
       match opt_stateProgress options with Some m => m | None => [] end;
     completedStates :=
       match opt_completedStates options with Some t => t | None => JsSet.empty end;
     isRunning := true |}.

(** ** combinedScraper.js: CombinedScraper *)
Module CombinedScraper.

(** [this.delay] and [this.retries] *)
Record Config := {
  baseUrl : string;
  delay : N;
  retries : nat
}.

(** [{ eventLinks, success }] *)
Record Response := {
  eventLinks : list string;
  success : bool
}.

Definition no_links (r : Response) : bool :=
  negb (success r) || (List.length (eventLinks r) =? 0).

(** The local variables of [scrapeRegionEvents]. *)
Record Region := {
  currentPage : nat;
  hasMorePages : bool;
  allEventLinks : list string;
  consecutiveEmptyPages : nat
}.

Section Run.
Variable env : Env.
Variable cfg : Config.

(** [for (let attempt = 0; attempt < this.retries; attempt++) { ... }].
    The headers are built first, inside the [try] block: when
    [new URL(url)] throws, the attempt fails before [axios.get] is called. *)
Fixpoint scrapeWithAxios_from (fuel attempt : nat) (url : string) : M Response :=
  if attempt <? retries cfg then
    match fuel with
    | 0 => out_of_fuel
    | S fuel' =>
        let failed : M Response :=
          if attempt =? retries cfg - 1
          then ret {| eventLinks := []; success := false |}
          else
            sleep env (delay cfg * N.of_nat (attempt + 1))%N;;
            scrapeWithAxios_from fuel' (attempt + 1) url in
        match URL_origin env url with
        | None => failed
        | Some _ =>
            r <- http_get env Listing url;;
            match r with
            | HttpOk body =>
                ret {| eventLinks := listing_links body; success := true |}
            | HttpError _ _ => failed
            end
        end
    end
  else ret {| eventLinks := []; success := false |}.

Definition scrapeWithAxios (url : string) : M Response :=
  scrapeWithAxios_from (retries cfg) 0 url.

(** The result is [inr message] when the error escapes the function. *)
Definition scrapeWithPuppeteer (url : string) : M (Response + string) :=
  fun st =>
    (emit (Browse url);;
     await env;;
     ret (match puppeteer_get env (tick st) url with
          | PuppeteerLinks l => inl {| eventLinks := l; success := true |}
          | PuppeteerFailed => inl {| eventLinks := []; success := false |}
          | PuppeteerThrows message => inr message
          end)) st.

Section Region.
Variable fullUrl : string.

(** the end of the [try] block: [currentPage++] and the delay *)
Definition next_page (w : Region) (links : list string) (empties : nat)
  : M (ctl * Region) :=
  sleep env (delay cfg);;
  ret (Next, {| currentPage := currentPage w + 1;
                hasMorePages := hasMorePages w;
                allEventLinks := allEventLinks w ++ links;
                consecutiveEmptyPages := empties |}).

(** One pass through the [try] / [catch] of the page loop. *)
Definition visit_page (w : Region) : M (ctl * Region) :=
  let url := pageUrl fullUrl (currentPage w) in
  response <- scrapeWithAxios url;;
  if no_links response then
    p <- scrapeWithPuppeteer url;;
    match p with
    | inl puppeteerResponse =>
        if no_links puppeteerResponse then
          let empties := consecutiveEmptyPages w + 1 in
          if 2 <=? empties then
            ret (Break, {| currentPage := currentPage w; hasMorePages := false;
                           allEventLinks := allEventLinks w;
                           consecutiveEmptyPages := empties |})
          else next_page w [] empties
        else next_page w (eventLinks puppeteerResponse) 0
    | inr _ =>
        ret (Break, {| currentPage := currentPage w;
                       hasMorePages :=
                         if 3 <? currentPage w then false else hasMorePages w;
                       allEventLinks := allEventLinks w;
                       consecutiveEmptyPages := consecutiveEmptyPages w |})
    end
  else next_page w (eventLinks response) 0.

(** [while (hasMorePages) { ... }] *)
Fixpoint region_loop (fuel : nat) (w : Region) : M Region :=
  if hasMorePages w then
    match fuel with
    | 0 => out_of_fuel
    | S fuel' =>
        r <- visit_page w;;
        match fst r with
        | Next => region_loop fuel' (snd r)
        | _ => ret (snd r)
        end
    end
  else ret w.
End Region.

Definition scrapeRegionEvents (fuel : nat) (regionUrl stateName : string)
  : M (list string) :=
  let fullUrl :=
    if String.prefix "http" regionUrl then regionUrl
    else String.append (baseUrl cfg) regionUrl in
  w <- region_loop fullUrl fuel
         {| currentPage := 1; hasMorePages := true; allEventLinks := [];
            consecutiveEmptyPages := 0 |};;
  ret (JsSet.of_array (allEventLinks w)).
End Run.
End CombinedScraper.

(** ** The event-link scraper: EventScraper *)
Module EventScraper.

Definition baseUrl : string := "https://carcruisefinder.com".

(** The local variables of [scrapeRegionEvents]. *)
Record Region := {
  currentPage : nat;
  hasMorePages : bool;
  allEventLinks : list string
}.

Section Run.
Variable env : Env.

(** [axios.get] is not guarded here: the error, with its status, escapes. *)
Definition scrapeWithAxios (url : string) : M (list string + option nat) :=
  r <- http_get env Listing url;;
  match r with
  | HttpOk body => ret (inl (listing_links body))
  | HttpError status _ => ret (inr status)
  end.

(** [puppeteer.launch] is outside the [try] block. *)
Definition scrapeWithPuppeteer (url : string) : M (list string + string) :=
  fun st =>
    (emit (Browse url);;
     await env;;
     ret (match puppeteer_get env (tick st) url with
          | PuppeteerLinks l => inl l
          | PuppeteerFailed => inl []
          | PuppeteerThrows message => inr message
          end)) st.

Section Region.
Variable fullUrl : string.

Definition push (w : Region) (links : list string) : Region :=
  {| currentPage := currentPage w + 1; hasMorePages := hasMorePages w;
     allEventLinks := allEventLinks w ++ links |}.

Definition ended (w : Region) : Region :=
  {| currentPage := currentPage w; hasMorePages := false;
     allEventLinks := allEventLinks w |}.

(** One pass through the [try] / [catch] of the page loop. *)
Definition visit_page (w : Region) : M (ctl * Region) :=
  let url := pageUrl fullUrl (currentPage w) in
  a <- scrapeWithAxios url;;
  match a with
  | inl [] =>
      p <- scrapeWithPuppeteer url;;
      match p with
      | inl [] => ret (Break, ended w)
      | inl links => ret (Next, push w links)
      | inr _ => ret (Break, w)
      end
  | inl links => ret (Next, push w links)
  | inr status =>
      if is_404 status then ret (Next, ended w) else ret (Break, w)
  end.

(** [while (hasMorePages) { ... }] *)
Fixpoint region_loop (fuel : nat) (w : Region) : M Region :=
  if hasMorePages w then
    match fuel with
    | 0 => out_of_fuel
    | S fuel' =>
        r <- visit_page w;;
        match fst r with
        | Next => region_loop fuel' (snd r)
        | _ => ret (snd r)
        end
    end
  else ret w.
End Region.

Definition scrapeRegionEvents (fuel : nat) (regionUrl : string) : M (list string) :=
  let fullUrl :=
    if String.prefix "http" regionUrl then regionUrl
    else String.append baseUrl regionUrl in
  w <- region_loop fullUrl fuel
         {| currentPage := 1; hasMorePages := true; allEventLinks := [] |};;
  ret (allEventLinks w).
End Run.
End EventScraper.

(** ** index.js: the handler of ['start-scraping'] *)
Module Index.
Section Handler.
Variable env : Env.

(** An [await] of the handler on the file system: the clock advances. *)
Definition idle : M unit := fun st => (Some tt, with_tick (S (tick st)) st).

(** [writeLogEntry(message)]: [fs.ensureFile], then [fs.appendFile] on the
    log file. *)
Definition writeLogEntry : M unit := idle;; idle.

(** [loadPreviousProgress()]: [fs.pathExists], then [fs.readJSON] on the
    progress file.  The result is [progressData] ([None] for [null], also
    when reading throws) with the value it leaves in the variable
    [trackedEventLinks] of the module. *)
Definition loadPreviousProgress (progressFilePath : string) (tracked : JsSet.t)
  : M (option ProgressJson * JsSet.t) :=
  fun st =>
    (idle;;
     match disk st progressFilePath with
     | None => ret (None, tracked)
     | Some text =>
         idle;;
         match JSON_parse env text with
         | None => ret (None, tracked)
         | Some progressData =>
             ret (Some progressData,
                  match pj_trackedEventLinks progressData with
                  | Some l => JsSet.of_array l
                  | None => tracked
                  end)
         end
     end) st.

(** The handler, for [options = { resume }].  [running] and [tracked] are the
    variables [isScraperRunning] and [trackedEventLinks] of the module when
    it is called, [stateLinks] is what it reads in
    [state-car-show-links.json], with the names it derives.  The messages to
    the window are left out. *)
Definition start_scraping (fuel : nat) (progressFilePath : string) (running : bool)
  (tracked : JsSet.t) (resume : bool) (stateLinks : list (string * string)) : M unit :=
  idle;; idle;; idle;;
  if running then ret tt
  else
    writeLogEntry;;
    r <- (if resume then loadPreviousProgress progressFilePath tracked
          else ret (None, tracked));;
    let progressData := fst r in
    let resumeFromState :=
      match progressData with
      | Some d => or_zero (pj_currentState d)
      | None => 0
      end in
    match progressData with
    | Some d => match pj_currentState d with Some _ => writeLogEntry | None => ret tt end
    | None => ret tt
    end;;
    update_this (fun _ =>
      constructor {| opt_maxConcurrency := Some 3;
                     opt_progressPath := Some progressFilePath;
                     opt_trackedEventLinks := Some (snd r);
                     opt_stateProgress := None;
                     opt_completedStates := None |});;
    match progressData with
    | Some d =>
        update_this (set_counters (or_zero (pj_currentState d)) (or_zero (pj_totalStates d))
                       (or_zero (pj_processedEvents d))
                       (or_zero (pj_totalEventsFound d)))
    | None => ret tt
    end;;
    idle;; idle;;
    match stateLinks with
    | [] => writeLogEntry
    | _ =>
        scrapeAllEvents env fuel stateLinks (ResumeIndex resumeFromState);;
        writeLogEntry
    end.
End Handler.
End Index.

(** ** Observations on traces and disks *)

(** The URLs of the detail pages requested, in order. *)
Definition detail_fetches (tr : list event) : list string :=
  flat_map (fun e => match e with Fetch Detail u => [u] | _ => [] end) tr.

(** The URLs of the listing pages requested, by [axios] or by the browser. *)
Definition page_requests (tr : list event) : list string :=
  flat_map (fun e => match e with
                     | Fetch Listing u => [u]
                     | Browse u => [u]
                     | _ => []
                     end) tr.

(** The delays slept, in milliseconds. *)
Definition sleeps (tr : list event) : list N :=
  flat_map (fun e => match e with Sleep ms => [ms] | _ => [] end) tr.

(** The page errors reported through [onProgress]: state, page, retry count. *)
Definition page_errors (tr : list event) : list (string * nat * nat) :=
  flat_map (fun e => match e with
                     | Progress (PageError _ state page n) => [(state, page, n)]
                     | _ => []
                     end) tr.

(** The rows the code tried to append to the CSV file, with the outcome. *)
Definition csv_writes (tr : list event) : list (string * bool) :=
  flat_map (fun e => match e with CsvWrite r ok => [(originalLink r, ok)] | _ => [] end) tr.

(** [position e tr]: the index of the first occurrence of an event the test
    [e] accepts. *)
Fixpoint position (e : event -> bool) (tr : list event) : option nat :=
  match tr with
  | [] => None
  | x :: r => if e x then Some 0 else option_map S (position e r)
  end.

Definition is_track (link : string) (e : event) : bool :=
  match e with Track l => String.eqb l link | _ => false end.

Definition is_csv_write (link : string) (e : event) : bool :=
  match e with CsvWrite r _ => String.eqb (originalLink r) link | _ => false end.

(** The state an [await] leaves: the clock has advanced, and [stop()] has run
    if the user called it meanwhile. *)
Definition await_st (env : Env) (st : St) : St :=
  {| self := set_isRunning (isRunning (self st) && negb (stop_called env (tick st)))
                           (self st);
     tick := S (tick st);
     csv := csv st;
     disk := disk st;
     trace := trace st ++
              (if stop_called env (tick st) then [Progress StopRequested] else []) |}.

(** A write on [p] is atomic when, wherever it is interrupted, [p] holds what
    it held before or the whole new text. *)
Definition atomic_on (d : Fs.t) (steps : list Fs.step) (p : Fs.path) (text : string) : Prop :=
  forall k, Fs.interrupted d steps k p = d p \/ Fs.interrupted d steps k p = Some text.

Definition is_error (r : HttpResult) : bool :=
  match r with HttpError _ _ => true | HttpOk _ => false end.

(** An error of a listing page that the worker retries: any but a 404. *)
Definition retryable (r : HttpResult) : bool :=
  match r with HttpError status _ => negb (is_404 status) | HttpOk _ => false end.

(** [error.message] of a failed request *)
Definition message_of (r : HttpResult) : string :=
  match r with HttpError _ message => message | HttpOk _ => "" end.

(** The attempts of a trace: its requests, its delays and its error reports,
    in order. *)
Definition attempts (tr : list event) : list event :=
  filter (fun e => match e with
                   | Fetch _ _ | Sleep _ => true
                   | Progress (PageError _ _ _ _) | Progress (EventError _ _ _) => true
                   | _ => false
                   end) tr.

(** The requests of the page [url] issued from tick [t] on: the first [k]
    fail with an error that is retried, and the next one answers 404.  A
    failed attempt takes two ticks, the request and the delay before the
    next one, so that request number [i] is issued at tick [t + 2 * i]. *)
Definition not_found_at (env : Env) (url : string) (t k : nat) (message : string)
  : Prop :=
  (forall i, i < k -> retryable (axios_get env (t + 2 * i) url) = true) /\
  axios_get env (t + 2 * k) url = HttpError (Some 404) message.

(** [Math.pow(2, retries) * 1000] for the retries 1, ..., [k] *)
Definition backoff (k : nat) : list N :=
  map (fun retries => (2 ^ N.of_nat retries * 1000)%N) (seq 1 k).

(** ** Sample data *)
Module Sample.
Definition fields : DetailFields :=
  {| f_eventName := "Cars and Coffee"; f_venue := "Main Street";
     f_streetAddress := "1 Main St"; f_city := "Ames"; f_stateAbbr := "IA";
     f_country := "United States"; f_date := "2025-06-01";
     f_startTime := "8:00 am"; f_endTime := "11:00 am";
     f_description := "Monthly meet" |}.

Definition page (links : list string) : HttpResult :=
  HttpOk {| listing_links := links; detail_fields := fields |}.

Definition scraper : Scraper :=
  constructor {| opt_maxConcurrency := Some 3; opt_progressPath := None;
                 opt_trackedEventLinks := None; opt_stateProgress := None;
                 opt_completedStates := None |}.

Definition old_text : string := JSON.stringify (progressData scraper "2025-06-01T08:00:00.000Z").

Definition st0 : St :=
  {| self := scraper; tick := 0; csv := [];
     disk := Fs.update Fs.empty (progressPath scraper) (Some old_text);
     trace := [] |}.

(** a world in which nothing fails and nobody stops the scraper; every page
    is empty unless [get] says otherwise *)
Definition world (get : nat -> string -> HttpResult) : Env :=
  {| axios_get := get;
     csv_write_error := fun _ => None;
     fs_write_fault := fun _ => None;
     stop_called := fun _ => false;
     global_stop := fun _ => false;
     now := fun t => String.append "T" (show_nat t);
     JSON_parse := fun _ => None;
     getStateFromUrl := fun _ => "";
     puppeteer_get := fun _ _ => PuppeteerFailed;
     URL_origin := fun _ => Some "https://carcruisefinder.com" |}.

Definition link : string := "https://carcruisefinder.com/event/cars-and-coffee/".

(** every request succeeds, every CSV write fails *)
Definition csv_broken : Env :=
  {| axios_get := fun _ _ => page [];
     csv_write_error := fun _ => Some "EACCES";
     fs_write_fault := fun _ => None;
     stop_called := fun _ => false;
     global_stop := fun _ => false;
     now := fun t => String.append "T" (show_nat t);
     JSON_parse := fun _ => None;
     getStateFromUrl := fun _ => "";
     puppeteer_get := fun _ _ => PuppeteerFailed;
     URL_origin := fun _ => Some "https://carcruisefinder.com" |}.

(** every request fails with status 500 *)
Definition always_500 : Env :=
  world (fun _ _ => HttpError (Some 500) "Request failed with status code 500").
End Sample.

(** The state [saveProgress] leaves. *)
Definition save_st (env : Env) (st : St) : St :=
  let steps := saveProgress_steps (self st) (now env (tick st)) in
  match fs_write_fault env (tick st) with
  | None =>
      await_st env (with_trace (SaveProgress true)
                      (with_disk (Fs.run (disk st) steps) st))
  | Some k =>
      await_st env (with_trace (SaveProgress false)
                      (with_disk (Fs.interrupted (disk st) steps k) st))
  end.

(** [yields res P]: the outcome [res] of a run, a result and a final state,
    satisfies [P]. *)
Definition yields {A} (res : option A * St) (P : option A -> St -> Prop) : Prop :=
  P (fst res) (snd res).

(** [fullUrl] of [scrapeStateWorker] *)
Definition full_url (s : Scraper) (stateLink : string) : string :=
  if String.prefix "http" stateLink then stateLink
  else String.append (baseUrl s) stateLink.

(** the page [scrapeStateWorker] starts from: the page after
    [stateProgress[stateId].lastPage], or page 1 *)
Definition start_page (s : Scraper) (stateId : string) : nat :=
  match sp_get (stateProgress s) stateId with
  | Some e => if 0 <? lastPage e then lastPage e + 1 else 1
  | None => 1
  end.

(** [stateDisplayName] of [scrapeStateWorker] *)
Definition display_name (env : Env) (stateLink stateName : string) : string :=
  str_or stateName (str_or (getStateFromUrl env stateLink) "Unknown State").

(** the local variables with which the page loop of the worker starts *)
Definition first_walk (page : nat) : Walk :=
  {| currentPage := page; hasMorePages := true; scrapedEventLinks := [];
     retries := 0; success := false |}.

(** what [scrapeStateWorker] does once its page loop has ended with [r] *)
Definition worker_finish (env : Env) (stateLink stateName : string) (r : ctl * Walk)
  : M (list string) :=
  match fst r with
  | Return => ret (scrapedEventLinks (snd r))
  | _ =>
      s <- this;;
      update_this (set_completedStates
                     (JsSet.add (completedStates s) (stateIdOf stateName)));;
      emit (MarkCompleted (stateIdOf stateName));;
      onProgress (StateCompleted (display_name env stateLink stateName)
                    (currentPage (snd r) - 1)
                    (List.length (scrapedEventLinks (snd r))));;
      saveProgress env;;
      ret (scrapedEventLinks (snd r))
  end.

(** the links of a listing page that are not in [trackedEventLinks] *)
Definition new_links (s : Scraper) (body : Page) : list string :=
  filter (fun link => negb (JsSet.has (trackedEventLinks s) link)) (listing_links body).

(** [axios] finds no link on the page: the request fails or the page lists
    none *)
Definition axios_empty (r : HttpResult) : bool :=
  match r with
  | HttpOk body => List.length (listing_links body) =? 0
  | HttpError _ _ => true
  end.

(** the browser finds no link on the page, without throwing *)
Definition puppeteer_empty (p : PuppeteerResult) : bool :=
  match p with
  | PuppeteerLinks l => List.length l =? 0
  | PuppeteerFailed => true
  | PuppeteerThrows _ => false
  end.

(** neither fetch path finds a link on the page, whenever it is asked *)
Definition yields_nothing (env : Env) (url : string) : Prop :=
  forall t, axios_empty (axios_get env t url) = true /\
            puppeteer_empty (puppeteer_get env t url) = true.

(** the browser finds no link on the page, or throws *)
Definition puppeteer_barren (p : PuppeteerResult) : bool :=
  match p with
  | PuppeteerLinks l => List.length l =? 0
  | _ => true
  end.

(** no fetch path ever finds a link on the page *)
Definition barren (env : Env) (url : string) : Prop :=
  forall t, axios_empty (axios_get env t url) = true /\
            puppeteer_barren (puppeteer_get env t url) = true.

(** from [st] to [st'] the only page asked for, if any, is [url] *)
Definition asks_only (url : string) (st st' : St) : Prop :=
  exists reqs,
    page_requests (trace st') = page_requests (trace st) ++ reqs /\
    Forall (eq url) reqs.




(** [fullUrl] of [scrapeRegionEvents] of [CombinedScraper] *)
Definition region_url (cfg : CombinedScraper.Config) (regionUrl : string) : string :=
  if String.prefix "http" regionUrl then regionUrl
  else String.append (CombinedScraper.baseUrl cfg) regionUrl.


Module Sample2.
Definition ohio : string := "/ohio-car-events/events/category/ohio-car-shows".
Definition ohio_url : string :=
  "https://carcruisefinder.com/ohio-car-events/events/category/ohio-car-shows".
Definition iowa : string := "/iowa-car-events/events/category/iowa-car-shows".
Definition iowa_url : string :=
  "https://carcruisefinder.com/iowa-car-events/events/category/iowa-car-shows".

(** Ohio's listing answers 404 *)
Definition ohio_404 : Env :=
  Sample.world (fun _ url =>
    if String.eqb url ohio_url
    then HttpError (Some 404) "Request failed with status code 404"
    else Sample.page []).

(** Ohio's listing answers 500 to the first request and 404 afterwards *)
Definition ohio_500_404 : Env :=
  Sample.world (fun t url =>
    if String.eqb url ohio_url
    then (if t =? 0
          then HttpError (Some 500) "Request failed with status code 500"
          else HttpError (Some 404) "Request failed with status code 404")
    else Sample.page []).

(** a world in which [new URL] throws on the strings that do not start with
    [http] *)
Definition no_origin : Env :=
  {| axios_get := fun _ _ => Sample.page [];
     csv_write_error := fun _ => None;
     fs_write_fault := fun _ => None;
     stop_called := fun _ => false;
     global_stop := fun _ => false;
     now := fun t => String.append "T" (show_nat t);
     JSON_parse := fun _ => None;
     getStateFromUrl := fun _ => "";
     puppeteer_get := fun _ _ => PuppeteerFailed;
     URL_origin := fun url =>
       if String.prefix "http" url then Some "https://carcruisefinder.com" else None |}.

(** [new CombinedScraper({ delay: 1000, retries: 3 })] *)
Definition config : CombinedScraper.Config :=
  {| CombinedScraper.baseUrl := "https://carcruisefinder.com";
     CombinedScraper.delay := 1000;
     CombinedScraper.retries := 3 |}.

(** the first page of Iowa lists two events, one of them twice; the other
    pages list none *)
Definition iowa_once : Env :=
  Sample.world (fun _ url =>
    if String.eqb url iowa_url then Sample.page ["/event/a/"; "/event/b/"; "/event/a/"]
    else Sample.page []).


Definition alabama : string := "/alabama-car-events/events/category/alabama-car-shows".

(** a checkpoint: Alabama is completed, Iowa was scraped up to page 2 *)
Definition checkpoint : ProgressJson :=
  {| pj_currentState := Some 1;
     pj_totalStates := Some 3;
     pj_processedEvents := Some 40;
     pj_totalEventsFound := Some 40;
     pj_trackedEventLinks := Some ["/event/a/"];
     pj_stateProgress :=
       Some [("alabama", {| lastPage := 3; totalPages := 3;
                            lastProcessed := "2025-06-01T08:00:00.000Z";
                            eventsFound := 30 |});
             ("iowa", {| lastPage := 2; totalPages := 2;
                         lastProcessed := "2025-06-01T08:10:00.000Z";
                         eventsFound := 10 |})];
     pj_completedStates := Some ["alabama"] |}.

(** every listing is empty, and the progress file parses to [checkpoint] *)
Definition resumed : Env :=
  {| axios_get := fun _ _ => Sample.page [];
     csv_write_error := fun _ => None;
     fs_write_fault := fun _ => None;
     stop_called := fun _ => false;
     global_stop := fun _ => false;
     now := fun t => String.append "T" (show_nat t);
     JSON_parse := fun _ => Some checkpoint;
     getStateFromUrl := fun _ => "";
     puppeteer_get := fun _ _ => PuppeteerFailed;
     URL_origin := fun _ => Some "https://carcruisefinder.com" |}.

Definition three_states : list (string * string) :=
  [(alabama, "Alabama"); (iowa, "Iowa"); (ohio, "Ohio")].

(** the scraper once the checkpoint is loaded *)
Definition st_resumed : St :=
  {| self := restore checkpoint Sample.scraper; tick := 0; csv := [];
     disk := disk Sample.st0; trace := [] |}.

(** a scraper that has already recorded the event [/event/a/] *)
Definition st_tracked : St :=
  {| self := constructor {| opt_maxConcurrency := Some 3; opt_progressPath := None;
                            opt_trackedEventLinks := Some ["/event/a/"];
                            opt_stateProgress := None;
                            opt_completedStates := None |};
     tick := 0; csv := []; disk := Fs.empty; trace := [] |}.

(** a new scraper that fetches one event at a time *)
Definition st_serial : St :=
  {| self := constructor {| opt_maxConcurrency := Some 1; opt_progressPath := None;
                            opt_trackedEventLinks := None; opt_stateProgress := None;
                            opt_completedStates := None |};
     tick := 0; csv := []; disk := Fs.empty; trace := [] |}.
End Sample2.

(** ** Footprints

    What never shrinks during a run: the tracked links, the completed states
    and the fact that a stop was requested. *)
Definition grows (st st' : St) : Prop :=
  (forall l, JsSet.has (trackedEventLinks (self st)) l = true ->
             JsSet.has (trackedEventLinks (self st')) l = true) /\
  (forall l, JsSet.has (completedStates (self st)) l = true ->
             JsSet.has (completedStates (self st')) l = true) /\
  (isRunning (self st) = false -> isRunning (self st') = false).

(** [emits q m st]: run from [st], [m] only appends events to the trace, each
    of them allowed by [q] in view of [st], and the state grows. *)
Definition emits (q : St -> event -> Prop) {A} (m : M A) (st : St) : Prop :=
  grows st (snd (m st)) /\
  exists d, trace (snd (m st)) = trace st ++ d /\ Forall (q st) d.

(** an event allowed in view of a later state is allowed in view of an
    earlier one *)
Definition fades (q : St -> event -> Prop) : Prop :=
  forall st st' e, grows st st' -> q st' e -> q st e.

(** The events of [scrapeEventDetails]: a detail page is requested only for a
    link that is not tracked. *)
Definition batch_event (st : St) (e : event) : Prop :=
  match e with
  | Fetch Detail link => JsSet.has (trackedEventLinks (self st)) link = false
  | Sleep _ | Track _ | CsvWrite _ _ => True
  | Progress StopRequested | Progress (EventError _ _ _)
  | Progress (EventDetails _ _ _) => True
  | _ => False
  end.

(** The events of [scrapeStateWorker]. *)
Definition worker_event (st : St) (e : event) : Prop :=
  match e with
  | Fetch Listing _ | MarkCompleted _ | SaveProgress _ => True
  | Progress (StateAborted _) | Progress (EventsAborted _)
  | Progress (StateSkipped _) | Progress (StateResumed _ _)
  | Progress (StateProgress _ _ _) | Progress (StateRetrying _ _ _ _)
  | Progress (OverallProgress _ _ _ _) | Progress (PageError _ _ _ _)
  | Progress (StateCompleted _ _ _) => True
  | _ => batch_event st e
  end.

(** The events of the loop of [scrapeAllEvents]. *)
Definition run_event (st : St) (e : event) : Prop :=
  match e with
  | Progress (Stopped _ _) | Progress (StateSkippedAt _ _ _)
  | Progress (StateStarting _ _ _) | Progress (StateFinished _ _ _ _) => True
  | _ => worker_event st e
  end.

(** The states the loop of [scrapeAllEvents] turns to, in order: index and
    name. *)
Definition visits (tr : list event) : list (nat * string) :=
  flat_map (fun e => match e with
                     | Progress (StateStarting name i _) => [(i, name)]
                     | Progress (StateSkippedAt name i _) => [(i, name)]
                     | _ => []
                     end) tr.

(** [stateName] of [scrapeAllEvents] for the state of index [i] *)
Definition state_name (env : Env) (i : nat) (link name : string) : string :=
  str_or name (str_or (getStateFromUrl env link)
                      (String.append "State " (show_nat (i + 1)))).

(** the states from index [i] on, with their indices *)
Fixpoint schedule (env : Env) (i : nat) (rest : list (string * string))
  : list (nat * string) :=
  match rest with
  | [] => []
  | (link, name) :: rest' => (i, state_name env i link name) :: schedule env (S i) rest'
  end.

(** The reports of a stop request observed at a poll point: before a state,
    before a page, before a chunk. *)
Definition stop_observed (e : event) : bool :=
  match e with
  | Progress (Stopped _ _) | Progress (StateAborted _) | Progress (EventsAborted _) => true
  | _ => false
  end.




(** the index at which [scrapeAllEvents] starts when it resumes: its
    argument, or the [currentState] of the checkpoint when the argument is
    [true] *)
Definition resumed_index (arg : ResumeArg) (pj : ProgressJson) : nat :=
  match arg with
  | ResumeIndex i => i
  | ResumeStored => or_zero (pj_currentState pj)
  end.

(** what [scrapeAllEvents] does after its loop *)
Definition run_finish (env : Env) (nStates : nat) (returned : bool) : M unit :=
  (if returned then ret tt
   else
     s <- this;;
     onProgress (ScrapingComplete (totalEventsFound s) nStates));;
  saveProgress env.

(** ** Stop requests *)

(** an event other than the report of an observed stop request *)
Definition calm_event (st : St) (e : event) : Prop := stop_observed e = false.

Definition is_return (c : ctl) : bool :=
  match c with Return => true | _ => false end.

(** [polls returned m st]: run from [st], either [m] observes no stop
    request, or the report of the stop request is the last thing it does: it
    then returns at once, with a result that makes its caller return too, and
    the scraper is not running. *)
Definition polls {A} (returned : A -> bool) (m : M A) (st : St) : Prop :=
  emits calm_event m st \/
  exists d0 e a,
    trace (snd (m st)) = trace st ++ d0 ++ [e] /\
    Forall (calm_event st) d0 /\
    stop_observed e = true /\
    fst (m st) = Some a /\
    returned a = true /\
    isRunning (self (snd (m st))) = false.




Module GuiResume.
(** the progress file of the application *)
Definition path : string := "/userData/car-events-scraper/scraper_progress.json".

(** a checkpoint written while Iowa, the first state, was being scraped: its
    pages 1 and 2 are done and their four events are tracked *)
Definition checkpoint : ProgressJson :=
  {| pj_currentState := Some 0;
     pj_totalStates := Some 2;
     pj_processedEvents := Some 4;
     pj_totalEventsFound := Some 4;
     pj_trackedEventLinks := Some ["/event/a/"; "/event/b/"; "/event/c/"; "/event/d/"];
     pj_stateProgress :=
       Some [("iowa", {| lastPage := 2; totalPages := 2;
                         lastProcessed := "2025-06-01T08:10:00.000Z";
                         eventsFound := 4 |})];
     pj_completedStates := Some [] |}.

(** Iowa lists two events on each of its pages 1 and 2 and one on page 3;
    the progress file parses to [checkpoint] *)
Definition env : Env :=
  {| axios_get := fun _ url =>
       if String.eqb url Sample2.iowa_url
       then Sample.page ["/event/a/"; "/event/b/"]
       else if String.eqb url (String.append Sample2.iowa_url "/page/2/")
       then Sample.page ["/event/c/"; "/event/d/"]
       else if String.eqb url (String.append Sample2.iowa_url "/page/3/")
       then Sample.page ["/event/e/"]
       else Sample.page [];
     csv_write_error := fun _ => None;
     fs_write_fault := fun _ => None;
     stop_called := fun _ => false;
     global_stop := fun _ => false;
     now := fun t => String.append "T" (show_nat t);
     JSON_parse := fun _ => Some checkpoint;
     getStateFromUrl := fun _ => "";
     puppeteer_get := fun _ _ => PuppeteerFailed;
     URL_origin := fun _ => Some "https://carcruisefinder.com" |}.

Definition states : list (string * string) :=
  [(Sample2.iowa, "Iowa"); (Sample2.ohio, "Ohio")].

(** a new scraper on the progress file, which exists *)
Definition st : St :=
  {| self := constructor {| opt_maxConcurrency := Some 3; opt_progressPath := Some path;
                            opt_trackedEventLinks := None; opt_stateProgress := None;
                            opt_completedStates := None |};
     tick := 0; csv := [];
     disk := Fs.update Fs.empty path (Some "{ ... }");
     trace := [] |}.
End GuiResume.

Module StopSample.
(** Iowa lists two events on every page; the user calls [stop()] while the
    second request of the run is pending *)
Definition env : Env :=
  {| axios_get := fun _ url =>
       if String.eqb url Sample2.iowa_url
       then Sample.page ["/event/a/"; "/event/b/"]
       else Sample.page [];
     csv_write_error := fun _ => None;
     fs_write_fault := fun _ => None;
     stop_called := fun t => t =? 1;
     global_stop := fun _ => false;
     now := fun t => String.append "T" (show_nat t);
     JSON_parse := fun _ => None;
     getStateFromUrl := fun _ => "";
     puppeteer_get := fun _ _ => PuppeteerFailed;
     URL_origin := fun _ => Some "https://carcruisefinder.com" |}.

Definition states : list (string * string) :=
  [(Sample2.iowa, "Iowa"); (Sample2.ohio, "Ohio")].
End StopSample.

(** ** Counters *)

(** [counted st st']: from [st] to [st'], [processedEvents] grew by the
    number of rows appended to the CSV. *)
Definition counted (st st' : St) : Prop :=
  processedEvents (self st') + List.length (csv st)
  = processedEvents (self st) + List.length (csv st').

(** run from [st], [m] keeps the count *)
Definition counts {A} (m : M A) (st : St) : Prop := counted st (snd (m st)).

(** ** Checkpoints *)

(** what [JSON.parse] finds in the text [saveProgress] writes for [s], when
    it reads back what [JSON.stringify] printed *)
Definition checkpoint_of (s : Scraper) : ProgressJson :=
  {| pj_currentState := Some (currentState s);
     pj_totalStates := Some (totalStates s);
     pj_processedEvents := Some (processedEvents s);
     pj_totalEventsFound := Some (totalEventsFound s);
     pj_trackedEventLinks := Some (trackedEventLinks s);
     pj_stateProgress := Some (stateProgress s);
     pj_completedStates := Some (completedStates s) |}.

Module RoundTrip.
(** a scraper in the middle of a run *)
Definition scraper : Scraper :=
  {| baseUrl := "https://carcruisefinder.com"; maxConcurrency := 3;
     progressPath := "scraper_progress.json";
     trackedEventLinks := ["/event/a/"; "/event/b/"];
     currentState := 1; totalStates := 3; processedEvents := 2;
     totalEventsFound := 2;
     stateProgress := [("iowa", {| lastPage := 1; totalPages := 1;
                                   lastProcessed := "T4"; eventsFound := 2 |})];
     completedStates := ["alabama"];
     isRunning := true |}.

Definition st : St :=
  {| self := scraper; tick := 7; csv := []; disk := Fs.empty; trace := [] |}.

(** [JSON.parse] reads the checkpoint of [scraper] in any text *)
Definition env : Env :=
  {| axios_get := fun _ _ => Sample.page [];
     csv_write_error := fun _ => None;
     fs_write_fault := fun _ => None;
     stop_called := fun _ => false;
     global_stop := fun _ => false;
     now := fun t => String.append "T" (show_nat t);
     JSON_parse := fun _ => Some (checkpoint_of scraper);
     getStateFromUrl := fun _ => "";
     puppeteer_get := fun _ _ => PuppeteerFailed;
     URL_origin := fun _ => Some "https://carcruisefinder.com" |}.

End RoundTrip.

(** ** Reading the checkpoint *)

(** the event of reading the progress file *)
Definition is_load (e : event) : bool :=
  match e with LoadProgress _ => true | _ => false end.

(** an event other than reading the progress file *)
Definition unread (st : St) (e : event) : Prop := is_load e = false.

(** ** Listings *)

(** [axios] finds the listing pages [pages], each with a link at least, on
    the pages of [url] from number [first] on, whenever it is asked *)
Definition serves (env : Env) (url : string) (first : nat) (pages : list (list string))
  : Prop :=
  forall p links,
    nth_error pages p = Some links ->
    links <> [] /\
    forall t, exists body,
      axios_get env t (pageUrl url (first + p)) = HttpOk body /\
      listing_links body = links.

Module Listing.
(** a region of three pages: the first two list events, one of them twice;
    the third page does not exist *)
Definition env : Env :=
  Sample.world (fun _ url =>
    if String.eqb url Sample2.iowa_url then Sample.page ["/event/a/"; "/event/b/"]
    else if String.eqb url (String.append Sample2.iowa_url "/page/2/")
         then Sample.page ["/event/b/"; "/event/c/"]
         else HttpError (Some 404) "Request failed with status code 404").

Definition pages : list (list string) :=
  [["/event/a/"; "/event/b/"]; ["/event/b/"; "/event/c/"]].
End Listing.

(** ** What a run leaves as it was *)

(** [keeps R m st]: run from [st], [m] ends in a state that [R] relates to
    [st]. *)
Definition keeps (R : St -> St -> Prop) {A} (m : M A) (st : St) : Prop :=
  R st (snd (m st)).

(** from [st] to [st'], the page cursor and the completion of every state
    other than [stateId] are as they were *)
Definition others_untouched (stateId : string) (st st' : St) : Prop :=
  (forall k, k <> stateId ->
             sp_get (stateProgress (self st')) k = sp_get (stateProgress (self st)) k) /\
  (forall k, k <> stateId ->
             JsSet.has (completedStates (self st')) k
             = JsSet.has (completedStates (self st)) k).

(** ** Running to the end *)

(** a scraper that was running is running still *)
Definition still_running (st st' : St) : Prop :=
  isRunning (self st) = true -> isRunning (self st') = true.

(** the environment in which [global.isScraperRunning === false] reads as
    [g] tells *)
Definition with_global_stop (g : nat -> bool) (env : Env) : Env :=
  {| axios_get := axios_get env;
     csv_write_error := csv_write_error env;
     fs_write_fault := fs_write_fault env;
     stop_called := stop_called env;
     global_stop := g;
     now := now env;
     JSON_parse := JSON_parse env;
     getStateFromUrl := getStateFromUrl env;
     puppeteer_get := puppeteer_get env;
     URL_origin := URL_origin env |}.

(** ** The browser *)

(** The URLs opened in the browser. *)
Definition browsed (tr : list event) : list string :=
  flat_map (fun e => match e with Browse u => [u] | _ => [] end) tr.

(** ** Resuming without a checkpoint *)

(** the progress file of the scraper is missing, or [JSON.parse] throws on it *)
Definition no_checkpoint (env : Env) (st : St) : Prop :=
  match disk st (progressPath (self st)) with
  | None => True
  | Some text => JSON_parse env text = None
  end.

(** the index at which a resumed run starts when nothing is loaded *)
Definition unloaded_index (arg : ResumeArg) (s : Scraper) : nat :=
  match arg with
  | ResumeIndex i => i
  | ResumeStored => currentState s
  end.

(** ** console-scraper.js: the command line *)

Module Cli.
(** What [parseInt(s, 10)] returns: [NaN], an integer with its sign, or an
    infinity (on a numeral too long for a double). *)
Inductive number := NaN | Int (negative : bool) (n : N) | Inf (negative : bool).

Definition isNaN (n : number) : bool :=
  match n with NaN => true | _ => false end.

(** [n < 1] *)
Definition below_one (n : number) : bool :=
  match n with
  | NaN => false
  | Int negative n => negative || (n =? 0)%N
  | Inf negative => negative
  end.

(** The object [options] of [parseArguments]. *)
Record Options := {
  resume : bool;
  resumeState : number;
  maxConcurrency : number;
  showStats : bool;
  listStates : bool;
  states : list string
}.

Definition defaults : Options :=
  {| resume := false; resumeState := Int false 0; maxConcurrency := Int false 3;
     showStats := false; listStates := false; states := [] |}.

(** [parseArguments] returns its options, or the process exits with a code. *)
Inductive outcome := Parsed (o : Options) | Exit (code : nat).

Section Parse.
(** [parseInt(s, 10)] *)
Variable parseInt : string -> number.

(** [for (let i = 0; i < args.length; i++) { ... }], on the arguments from
    index [i] on; [++i] takes the next argument as the value of an option. *)
Fixpoint parse_from (args : list string) (o : Options) : outcome :=
  match args with
  | [] => Parsed o
  | a :: rest =>
      let arg := toLowerCase a in
      if String.eqb arg "--resume" then
        parse_from rest
          {| resume := true; resumeState := resumeState o;
             maxConcurrency := maxConcurrency o; showStats := showStats o;
             listStates := listStates o; states := states o |}
      else
        match String.eqb arg "--resume-state", rest with
        | true, value :: rest' =>
            let n := parseInt value in
            if isNaN n then Exit 1
            else
              parse_from rest'
                {| resume := resume o; resumeState := n;
                   maxConcurrency := maxConcurrency o; showStats := showStats o;
                   listStates := listStates o; states := states o |}
        | _, _ =>
            match String.eqb arg "--max-concurrency", rest with
            | true, value :: rest' =>
                let n := parseInt value in
                parse_from rest'
                  {| resume := resume o; resumeState := resumeState o;
                     maxConcurrency := if isNaN n || below_one n then Int false 3 else n;
                     showStats := showStats o;
                     listStates := listStates o; states := states o |}
            | _, _ =>
                if String.eqb arg "--stats" then
                  parse_from rest
                    {| resume := resume o; resumeState := resumeState o;
                       maxConcurrency := maxConcurrency o; showStats := true;
                       listStates := listStates o; states := states o |}
                else if String.eqb arg "--list-states" then
                  parse_from rest
                    {| resume := resume o; resumeState := resumeState o;
                       maxConcurrency := maxConcurrency o; showStats := showStats o;
                       listStates := true; states := states o |}
                else if String.eqb arg "--help" then Exit 0
                else if negb (String.prefix "--" arg) then
                  parse_from rest
                    {| resume := resume o; resumeState := resumeState o;
                       maxConcurrency := maxConcurrency o; showStats := showStats o;
                       listStates := listStates o; states := states o ++ [arg] |}
                else parse_from rest o
            end
        end
  end.

(** [parseArguments()], with [args = process.argv.slice(2)] *)
Definition parseArguments (args : list string) : outcome := parse_from args defaults.
End Parse.

(** [s.includes(sub)] *)
Fixpoint includes (s sub : string) : bool :=
  String.prefix sub s ||
  match s with
  | EmptyString => false
  | String _ s' => includes s' sub
  end.

(** [stateLinksToProcess] of [main]: the states, as pairs of a link and a
    name, that the arguments select *)
Definition stateLinksToProcess (states : list string)
  (allStateLinks : list (string * string)) : list (string * string) :=
  if 0 <? List.length states then
    let stateNamesToProcess := map toLowerCase states in
    filter (fun stateObj =>
              existsb (fun arg => includes (toLowerCase (snd stateObj)) arg)
                stateNamesToProcess)
      allStateLinks
  else allStateLinks.

(** the options [parseArguments] can return on the arguments [args] *)
Definition sound (args : list string) (o : Options) : Prop :=
  isNaN (maxConcurrency o) = false /\
  below_one (maxConcurrency o) = false /\
  isNaN (resumeState o) = false /\
  Forall (fun s => String.prefix "--" s = false /\ In s (map toLowerCase args))
    (states o).
End Cli.

(** * Properties *)

(** ** Disks *)

Lemma update_same (d : Fs.t) (p : Fs.path) (c : option string) :
  Fs.update d p c p = c.
Proof. unfold Fs.update. now rewrite String.eqb_refl. Qed.

Lemma update_other (d : Fs.t) (p q : Fs.path) (c : option string) :
  q <> p -> Fs.update d p c q = d q.
Proof.
  intro H. unfold Fs.update.
  destruct (String.eqb_spec q p); [contradiction | reflexivity].
Qed.

Lemma append_empty (c : string) : String.append c "" = c.
Proof. induction c; simpl; congruence. Qed.

Lemma append_cons (c : string) (a : ascii) (r : string) :
  String.append (String.append c (String a "")) r = String.append c (String a r).
Proof. induction c; simpl; congruence. Qed.

Lemma run_appends (p : Fs.path) (l : list ascii) :
  forall (d : Fs.t) (c : string),
    d p = Some c ->
    Fs.run d (map (Fs.Append p) l) p = Some (String.append c (string_of_list_ascii l)).
Proof.
  induction l as [|a l IH]; intros d c Hd.
  - simpl. rewrite Hd. now rewrite append_empty.
  - change (Fs.run d (map (Fs.Append p) (a :: l)))
      with (Fs.run (Fs.apply d (Fs.Append p a)) (map (Fs.Append p) l)).
    rewrite (IH _ (String.append c (String a ""))).
    + simpl. now rewrite append_cons.
    + simpl. rewrite Hd. apply update_same.
Qed.

Lemma run_elsewhere (q : Fs.path) (steps : list Fs.step) :
  forall d : Fs.t,
    Forall (fun x => Fs.target x <> q /\ Fs.is_rename x = false) steps ->
    Fs.run d steps q = d q.
Proof.
  induction steps as [|x steps IH]; intros d H; [reflexivity|].
  inversion H as [|? ? [Ht Hr] H']; subst.
  change (Fs.run d (x :: steps)) with (Fs.run (Fs.apply d x) steps).
  rewrite IH by assumption.
  destruct x; simpl in *; try discriminate.
  - apply update_other. congruence.
  - destruct (d p); apply update_other; congruence.
Qed.

Lemma writeFile_targets (p : Fs.path) (text : string) :
  Forall (fun x => Fs.target x = p /\ Fs.is_rename x = false) (Fs.writeFile p text).
Proof.
  unfold Fs.writeFile. constructor; [now split|].
  apply Forall_forall. intros x Hx. apply in_map_iff in Hx.
  destruct Hx as [a [<- _]]. now split.
Qed.

Lemma writeFile_interrupted (p : Fs.path) (text : string) (d : Fs.t) (k : nat) :
  Fs.interrupted d (Fs.writeFile p text) (S k) p
  = Some (string_of_list_ascii (firstn k (list_ascii_of_string text))).
Proof.
  unfold Fs.interrupted, Fs.writeFile. simpl firstn. rewrite firstn_map.
  change (Fs.run d (Fs.Truncate p :: ?l)) with (Fs.run (Fs.apply d (Fs.Truncate p)) l).
  rewrite (run_appends p _ _ ""); [reflexivity|]. apply update_same.
Qed.

Lemma writeFile_done (p : Fs.path) (text : string) (d : Fs.t) :
  Fs.run d (Fs.writeFile p text) p = Some text.
Proof.
  unfold Fs.writeFile.
  change (Fs.run d (Fs.Truncate p :: ?l)) with (Fs.run (Fs.apply d (Fs.Truncate p)) l).
  rewrite (run_appends p _ _ ""); [|apply update_same].
  simpl. now rewrite string_of_list_ascii_of_string.
Qed.

Lemma length_append (a b : string) :
  String.length (String.append a b) = String.length a + String.length b.
Proof. induction a; simpl; congruence. Qed.

Lemma append_tmp_neq (p : string) : String.append p ".tmp" <> p.
Proof.
  intro H. apply (f_equal String.length) in H.
  rewrite length_append in H. simpl in H. lia.
Qed.

Lemma in_firstn {A} (x : A) (k : nat) :
  forall l : list A, In x (firstn k l) -> In x l.
Proof.
  induction k as [|k IH]; intros [|y l] H; simpl in *; try contradiction.
  destruct H as [H|H]; [now left | right; now apply IH].
Qed.

(** The save the specification asks for is atomic on the checkpoint. *)
Lemma spec_saveProgress_atomic (s : Scraper) (ts : string) (d : Fs.t) :
  atomic_on d (spec_saveProgress_steps s ts) (progressPath s)
            (JSON.stringify (progressData s ts)).
Proof.
  intro k. unfold spec_saveProgress_steps, Fs.interrupted.
  generalize (JSON.stringify (progressData s ts)) as text.
  generalize (append_tmp_neq (progressPath s)).
  generalize (String.append (progressPath s) ".tmp") as tmp.
  generalize (progressPath s) as p.
  clear s ts. intros p tmp Hne text.
  destruct (Nat.le_gt_cases k (List.length (Fs.writeFile tmp text))) as [Hk|Hk].
  - left. rewrite firstn_app.
    apply Nat.sub_0_le in Hk. rewrite Hk.
    cbn [firstn]. rewrite app_nil_r. apply run_elsewhere.
    apply Forall_forall. intros x Hx.
    apply in_firstn in Hx.
    pose proof (writeFile_targets tmp text) as Hall.
    rewrite Forall_forall in Hall. destruct (Hall x Hx) as [Ht Hr].
    split; congruence.
  - right. rewrite firstn_all2.
    + unfold Fs.run. rewrite fold_left_app. cbn [fold_left Fs.apply].
      fold (Fs.run d (Fs.writeFile tmp text)).
      rewrite writeFile_done. apply update_same.
    + rewrite length_app. cbn [List.length].
      apply Nat.le_succ_l in Hk. now rewrite Nat.add_1_r.
Qed.

(** C3, as stated, fails: interrupted after three disk steps, the save leaves
    a checkpoint that is neither the previous one nor the new one. *)
Lemma saveProgress_torn :
  ~ atomic_on (disk Sample.st0)
      (saveProgress_steps Sample.scraper "2025-06-01T09:00:00.000Z")
      (progressPath Sample.scraper)
      (JSON.stringify (progressData Sample.scraper "2025-06-01T09:00:00.000Z")).
Proof.
  intro H. specialize (H 3). vm_compute in H. destruct H as [H|H]; discriminate H.
Qed.

(** C3, amended: [saveProgress] serialises the whole progress state and writes
    it with one [fs.writeFile] on the progress file itself; no other path is
    touched and nothing is renamed.  A finished write leaves the whole text;
    a write interrupted after [k + 1] disk steps leaves the first [k]
    characters of the new text in place of the previous checkpoint.  The
    method itself always completes: a write error is caught. *)
Theorem saveProgress_in_place (env : Env) (st : St) (ts : string) (d : Fs.t) :
  let s := self st in
  let p := progressPath s in
  let text := JSON.stringify (progressData s ts) in
  let steps := saveProgress_steps s ts in
  steps = Fs.writeFile p text /\
  Forall (fun x => Fs.target x = p /\ Fs.is_rename x = false) steps /\
  Fs.run d steps p = Some text /\
  (forall k, Fs.interrupted d steps (S k) p
             = Some (string_of_list_ascii (firstn k (list_ascii_of_string text)))) /\
  (forall q k, q <> p -> Fs.interrupted d steps k q = d q) /\
  fst (saveProgress env st) = Some tt /\
  disk (snd (saveProgress env st))
  = match fs_write_fault env (tick st) with
    | None => Fs.run (disk st) (saveProgress_steps s (now env (tick st)))
    | Some k => Fs.interrupted (disk st) (saveProgress_steps s (now env (tick st))) k
    end.
Proof.
  cbv zeta.
  split; [reflexivity|].
  split; [apply writeFile_targets|].
  split; [apply writeFile_done|].
  split; [intro k; apply writeFile_interrupted|].
  split.
  { intros q k Hq. unfold Fs.interrupted. apply run_elsewhere.
    apply Forall_forall. intros x Hx. apply in_firstn in Hx.
    pose proof (writeFile_targets (progressPath (self st))
                  (JSON.stringify (progressData (self st) ts))) as Hall.
    rewrite Forall_forall in Hall. destruct (Hall x Hx) as [Ht Hr].
    split; congruence. }
  unfold saveProgress, bind, emit, await, stop, update_this, onProgress.
  destruct (fs_write_fault env (tick st));
    cbn [tick with_disk with_trace with_tick];
    destruct (stop_called env (tick st)); split; reflexivity.
Qed.

(** ** Running the model

    Each primitive, followed by a continuation, is one rewriting step. *)

Lemma await_eq (env : Env) (st : St) : await env st = (Some tt, await_st env st).
Proof.
  unfold await, await_st, stop, bind, update_this, onProgress, emit.
  destruct st as [s t c d tr]; simpl.
  destruct (stop_called env t); simpl.
  - now rewrite andb_false_r.
  - rewrite andb_true_r, app_nil_r. now destruct s.
Qed.

Section Run.
Context {A B : Type} (k : A -> M B).

Lemma run_bind {C} (m : M C) (f : C -> M A) (st : St) :
  bind (bind m f) k st = bind m (fun c => bind (f c) k) st.
Proof. unfold bind. destruct (m st) as [[c|] st1]; reflexivity. Qed.

Lemma run_ret (a : A) (st : St) : bind (ret a) k st = k a st.
Proof. reflexivity. Qed.

Lemma run_if (b : bool) (m1 m2 : M A) (st : St) :
  bind (if b then m1 else m2) k st = if b then bind m1 k st else bind m2 k st.
Proof. now destruct b. Qed.
End Run.

Section RunPrimitives.
Context {B : Type} (env : Env).

Lemma run_this (k : Scraper -> M B) (st : St) : bind this k st = k (self st) st.
Proof. reflexivity. Qed.

Lemma run_update (f : Scraper -> Scraper) (k : unit -> M B) (st : St) :
  bind (update_this f) k st = k tt (with_self f st).
Proof. reflexivity. Qed.

Lemma run_emit (e : event) (k : unit -> M B) (st : St) :
  bind (emit e) k st = k tt (with_trace e st).
Proof. reflexivity. Qed.

Lemma run_onProgress (p : report) (k : unit -> M B) (st : St) :
  bind (onProgress p) k st = k tt (with_trace (Progress p) st).
Proof. reflexivity. Qed.

Lemma run_await (k : unit -> M B) (st : St) :
  bind (await env) k st = k tt (await_st env st).
Proof. unfold bind. now rewrite await_eq. Qed.

Lemma run_sleep (ms : N) (k : unit -> M B) (st : St) :
  bind (sleep env ms) k st = k tt (await_st env (with_trace (Sleep ms) st)).
Proof. unfold sleep. rewrite run_bind, run_emit. apply run_await. Qed.

Lemma run_http_get (o : origin) (url : string) (k : HttpResult -> M B) (st : St) :
  bind (http_get env o url) k st
  = k (axios_get env (tick st) url) (await_st env (with_trace (Fetch o url) st)).
Proof.
  unfold http_get, bind, emit, ret. now rewrite await_eq.
Qed.

Lemma run_writeRecords (r : EventRecord) (k : option string -> M B) (st : St) :
  bind (writeRecords env r) k st
  = match csv_write_error env (tick st) with
    | Some message =>
        k (Some message) (await_st env (with_trace (CsvWrite r false) st))
    | None =>
        k None (await_st env (with_trace (CsvWrite r true) (with_csv r st)))
    end.
Proof.
  unfold writeRecords, bind, emit, ret.
  destruct (csv_write_error env (tick st)); now rewrite await_eq.
Qed.

Lemma saveProgress_eq (st : St) : saveProgress env st = (Some tt, save_st env st).
Proof.
  unfold saveProgress, save_st.
  unfold bind, emit.
  destruct (fs_write_fault env (tick st)); now rewrite await_eq.
Qed.

Lemma run_saveProgress (k : unit -> M B) (st : St) :
  bind (saveProgress env) k st = k tt (save_st env st).
Proof. unfold bind. now rewrite saveProgress_eq. Qed.
End RunPrimitives.

Arguments await env st : simpl never.
Arguments JsSet.has s x : simpl never.
Arguments JsSet.add s x : simpl never.
Arguments sp_get m k : simpl never.
Arguments sp_set m k v : simpl never.
Arguments stateIdOf stateName : simpl never.
Arguments show_nat n : simpl never.

Ltac run1 :=
  first [ rewrite run_bind | rewrite run_ret | rewrite run_this | rewrite run_update
        | rewrite run_emit | rewrite run_onProgress | rewrite run_await
        | rewrite run_sleep | rewrite run_http_get | rewrite run_saveProgress
        | rewrite run_if ].

Ltac reduce_state :=
  cbn [self tick csv disk trace await_st with_trace with_self with_csv with_disk
       with_tick baseUrl maxConcurrency progressPath trackedEventLinks currentState
       totalStates processedEvents totalEventsFound stateProgress completedStates
       isRunning set_isRunning set_trackedEventLinks set_completedStates
       set_stateProgress set_counters maxRetries fst snd Nat.ltb Nat.leb Nat.eqb Nat.add
       andb orb negb].

Ltac run := repeat first [run1 | progress reduce_state].

Lemma sleeps_app (a b : list event) : sleeps (a ++ b) = sleeps a ++ sleeps b.
Proof. apply flat_map_app. Qed.

Lemma detail_fetches_app (a b : list event) :
  detail_fetches (a ++ b) = detail_fetches a ++ detail_fetches b.
Proof. apply flat_map_app. Qed.

Lemma page_requests_app (a b : list event) :
  page_requests (a ++ b) = page_requests a ++ page_requests b.
Proof. apply flat_map_app. Qed.

Lemma csv_writes_app (a b : list event) :
  csv_writes (a ++ b) = csv_writes a ++ csv_writes b.
Proof. apply flat_map_app. Qed.

Lemma sleeps_stop (c : bool) :
  sleeps (if c then [Progress StopRequested] else []) = [].
Proof. now destruct c. Qed.

Lemma detail_fetches_stop (c : bool) :
  detail_fetches (if c then [Progress StopRequested] else []) = [].
Proof. now destruct c. Qed.

Lemma page_requests_stop (c : bool) :
  page_requests (if c then [Progress StopRequested] else []) = [].
Proof. now destruct c. Qed.

Lemma csv_writes_stop (c : bool) :
  csv_writes (if c then [Progress StopRequested] else []) = [].
Proof. now destruct c. Qed.

Lemma set_isRunning_twice (a b : bool) (s : Scraper) :
  set_isRunning a (set_isRunning b s) = set_isRunning a s.
Proof. reflexivity. Qed.

(** the scraper differs from the one before by [isRunning] at most *)
Ltac frame := reduce_state; rewrite ?set_isRunning_twice; reflexivity.

Section SaveState.
Variables (env : Env) (st : St).

Lemma self_save :
  self (save_st env st)
  = set_isRunning (isRunning (self st) && negb (stop_called env (tick st))) (self st).
Proof. unfold save_st. now destruct (fs_write_fault env (tick st)). Qed.

Lemma tick_save : tick (save_st env st) = S (tick st).
Proof. unfold save_st. now destruct (fs_write_fault env (tick st)). Qed.

Lemma csv_save : csv (save_st env st) = csv st.
Proof. unfold save_st. now destruct (fs_write_fault env (tick st)). Qed.

Lemma trace_save :
  exists ok,
    trace (save_st env st)
    = trace st ++ SaveProgress ok
               :: (if stop_called env (tick st) then [Progress StopRequested] else []).
Proof.
  unfold save_st. destruct (fs_write_fault env (tick st));
    eexists; cbn [trace await_st with_trace with_disk tick];
    rewrite <- app_assoc; reflexivity.
Qed.

Lemma page_requests_save :
  page_requests (trace (save_st env st)) = page_requests (trace st).
Proof.
  destruct trace_save as [ok ->]. rewrite page_requests_app.
  cbn [page_requests flat_map app].
  fold (page_requests (if stop_called env (tick st) then [Progress StopRequested] else [])).
  now rewrite page_requests_stop, app_nil_r.
Qed.

Lemma detail_fetches_save :
  detail_fetches (trace (save_st env st)) = detail_fetches (trace st).
Proof.
  destruct trace_save as [ok ->]. rewrite detail_fetches_app.
  cbn [detail_fetches flat_map app].
  fold (detail_fetches (if stop_called env (tick st) then [Progress StopRequested] else [])).
  now rewrite detail_fetches_stop, app_nil_r.
Qed.

Lemma sleeps_save : sleeps (trace (save_st env st)) = sleeps (trace st).
Proof.
  destruct trace_save as [ok ->]. rewrite sleeps_app.
  cbn [sleeps flat_map app].
  fold (sleeps (if stop_called env (tick st) then [Progress StopRequested] else [])).
  now rewrite sleeps_stop, app_nil_r.
Qed.

Lemma csv_writes_save : csv_writes (trace (save_st env st)) = csv_writes (trace st).
Proof.
  destruct trace_save as [ok ->]. rewrite csv_writes_app.
  cbn [csv_writes flat_map app].
  fold (csv_writes (if stop_called env (tick st) then [Progress StopRequested] else [])).
  now rewrite csv_writes_stop, app_nil_r.
Qed.
End SaveState.

Lemma bind_eq {A B} (m : M A) (k : A -> M B) (st st' : St) (a : A) :
  m st = (Some a, st') -> bind m k st = k a st'.
Proof. intro H. unfold bind. now rewrite H. Qed.

Lemma bind_none {A B} (m : M A) (k : A -> M B) (st st' : St) :
  m st = (None, st') -> bind m k st = (None, st').
Proof. intro H. unfold bind. now rewrite H. Qed.

Lemma yields_intro {A} (r : option A) (st : St) (P : option A -> St -> Prop) :
  P r st -> yields (r, st) P.
Proof. exact (fun H => H). Qed.

Lemma yields_exists {A} (res : option A * St) (a : option A) (P : St -> Prop) :
  yields res (fun r st' => r = a /\ P st') ->
  exists st', res = (a, st') /\ P st'.
Proof.
  destruct res as [r st']. unfold yields. cbn [fst snd]. intros [-> H].
  now exists st'.
Qed.

(** the next response is an error, by [Herr] *)
Ltac fails Herr :=
  match goal with
  | |- context [axios_get ?env ?t ?u] =>
      let H := fresh in
      pose proof (Herr t) as H;
      destruct (axios_get env t u) as [? | ?status ?message];
      [discriminate H|]; cbn [retryable is_error] in H;
      try (apply negb_true_iff in H; rewrite H); clear H
  end.

Ltac observe :=
  reduce_state;
  rewrite ?self_save, ?tick_save, ?csv_save, ?page_requests_save, ?detail_fetches_save,
    ?sleeps_save, ?csv_writes_save;
  reduce_state;
  rewrite ?sleeps_app, ?detail_fetches_app, ?page_requests_app, ?csv_writes_app,
    ?sleeps_stop, ?detail_fetches_stop, ?page_requests_stop, ?csv_writes_stop,
    ?app_nil_r;
  cbn [sleeps detail_fetches page_requests csv_writes flat_map app];
  rewrite ?app_nil_r, <- ?app_assoc;
  cbn [app].


(** ** scrapeEventDetails *)

(** C1, as stated, fails: when the CSV write throws, the link is already in
    [trackedEventLinks]; the retry finds it there and returns [null] without
    another request, and the record is never written. *)
Lemma tracked_without_record :
  let res := scrapeEventDetails Sample.csv_broken Sample.link "Iowa" Sample.st0 in
  fst res = Some None /\
  JsSet.has (trackedEventLinks (self (snd res))) Sample.link = true /\
  csv (snd res) = [] /\
  position (is_track Sample.link) (trace (snd res)) = Some 1 /\
  position (is_csv_write Sample.link) (trace (snd res)) = Some 2 /\
  csv_writes (trace (snd res)) = [(Sample.link, false)] /\
  detail_fetches (trace (snd res)) = [Sample.link].
Proof. vm_compute. repeat split. Qed.

Lemma has_add_same (s : JsSet.t) (x : string) : JsSet.has (JsSet.add s x) x = true.
Proof.
  unfold JsSet.add. destruct (JsSet.has s x) eqn:E; [exact E|].
  unfold JsSet.has. rewrite existsb_app. cbn [existsb].
  now rewrite String.eqb_refl, orb_true_r.
Qed.

Lemma has_add_mono (s : JsSet.t) (x y : string) :
  JsSet.has s y = true -> JsSet.has (JsSet.add s x) y = true.
Proof.
  intro H. unfold JsSet.add. destruct (JsSet.has s x); [exact H|].
  unfold JsSet.has in *. rewrite existsb_app. now rewrite H.
Qed.

(** C1, amended: for a detail page that is fetched and yields a record, the
    link is added to [trackedEventLinks] first and the record is written to
    the CSV after that; when the write succeeds, [scrapeEventDetails] returns
    the record, the record is the last row of the CSV and the link is in the
    set.  This holds of every attempt ([respond], whatever the number of
    retries so far) and of the call as a whole when the first request
    succeeds. *)
Theorem track_then_write (env : Env) (link stateName : string) (body : Page) :
  (forall t, csv_write_error env t = None) ->
  let record := make_record (detail_fields body) stateName link in
  (forall fuel retries st,
      exists st',
        respond env fuel link stateName retries (HttpOk body) st
        = (Some (Some record), st') /\
        csv st' = csv st ++ [record] /\
        JsSet.has (trackedEventLinks (self st')) link = true /\
        exists after,
          trace st' = trace st ++ [Track link; CsvWrite record true] ++ after) /\
  (forall st,
      JsSet.has (trackedEventLinks (self st)) link = false ->
      axios_get env (tick st) link = HttpOk body ->
      exists st',
        scrapeEventDetails env link stateName st = (Some (Some record), st') /\
        csv st' = csv st ++ [record] /\
        JsSet.has (trackedEventLinks (self st')) link = true /\
        exists before after,
          trace st' = trace st ++ before ++ [Track link; CsvWrite record true] ++ after /\
          csv_writes before = []).
Proof.
  intros Hcsv record. split.
  - intros fuel retries st. apply yields_exists.
    destruct fuel; cbn [respond]; run; rewrite run_writeRecords, Hcsv; run;
      apply yields_intro; reduce_state;
      (split; [reflexivity|]); (split; [reflexivity|]);
      (split; [apply has_add_same|]);
      eexists; rewrite <- !app_assoc; reflexivity.
  - intros st Hnew Hok. apply yields_exists.
    unfold scrapeEventDetails, request.
    run. rewrite Hnew. run. rewrite Hok.
    cbn [respond maxRetries]. run. rewrite run_writeRecords, Hcsv. run.
    apply yields_intro. reduce_state.
    split; [reflexivity|]. split; [reflexivity|]. split; [apply has_add_same|].
    exists (Fetch Detail link
              :: if stop_called env (tick st) then [Progress StopRequested] else []).
    eexists. split.
    + rewrite <- !app_assoc. reflexivity.
    + cbn [csv_writes flat_map app].
      fold (csv_writes
              (if stop_called env (tick st) then [Progress StopRequested] else [])).
      apply csv_writes_stop.
Qed.

Lemma track_then_write_witness :
  let record := make_record Sample.fields "Iowa" Sample.link in
  exists st',
    scrapeEventDetails (Sample.world (fun _ _ => Sample.page [])) Sample.link "Iowa"
      Sample.st0
    = (Some (Some record), st') /\
    csv st' = csv Sample.st0 ++ [record] /\
    JsSet.has (trackedEventLinks (self st')) Sample.link = true /\
    exists before after,
      trace st' = trace Sample.st0 ++ before
                    ++ [Track Sample.link; CsvWrite record true] ++ after /\
      csv_writes before = [].
Proof.
  apply (proj2 (track_then_write (Sample.world (fun _ _ => Sample.page []))
                  Sample.link "Iowa"
                  {| listing_links := []; detail_fields := Sample.fields |}
                  (fun t => eq_refl)));
    reflexivity.
Defined.

(** C4, as stated, fails: the delays between the three attempts are 2 s and
    4 s, not 1 s and 2 s. *)
Lemma backoff_is_2s_4s :
  let res := scrapeEventDetails Sample.always_500 Sample.link "Iowa" Sample.st0 in
  fst res = Some None /\
  detail_fetches (trace (snd res)) = [Sample.link; Sample.link; Sample.link] /\
  sleeps (trace (snd res)) = [2000; 4000]%N /\
  sleeps (trace (snd res)) <> [1000; 2000]%N.
Proof. vm_compute. repeat split. discriminate. Qed.

(** ** scrapeStateWorker *)

Ltac walk :=
  cbn [retry_loop page_loop currentPage hasMorePages scrapedEventLinks retries success
       maxRetries Nat.ltb Nat.leb Nat.add andb negb fst snd].

Ltac page fails_with :=
  walk; unfold try_page, page_response; run; walk; run; fails fails_with; run; walk; run.

(** The retry loop of the worker on a page whose every request fails with an
    error other than 404. *)
Lemma retry_loop_exhausted (env : Env) (fullUrl stateId name : string) (w : Walk) (st : St) :
  (forall t, retryable (axios_get env t (pageUrl fullUrl (currentPage w))) = true) ->
  yields (retry_loop env fullUrl stateId name maxRetries
            {| currentPage := currentPage w; hasMorePages := hasMorePages w;
               scrapedEventLinks := scrapedEventLinks w; retries := 0; success := false |} st)
    (fun r st' =>
       r = Some (Break,
                 {| currentPage := currentPage w; hasMorePages := hasMorePages w;
                    scrapedEventLinks := scrapedEventLinks w; retries := 3;
                    success := false |}) /\
       page_requests (trace st')
       = page_requests (trace st)
           ++ [pageUrl fullUrl (currentPage w); pageUrl fullUrl (currentPage w);
               pageUrl fullUrl (currentPage w)] /\
       sleeps (trace st') = sleeps (trace st) ++ [2000; 4000]%N /\
       detail_fetches (trace st') = detail_fetches (trace st) /\
       self st' = set_isRunning (isRunning (self st')) (self st) /\
       csv st' = csv st /\
       exists tr message,
         trace st' = tr ++ [Progress (PageError message name (currentPage w) 3)]).
Proof.
  intro Hpage. page Hpage. page Hpage. page Hpage.
  apply yields_intro.
  split; [reflexivity|]. split; [now observe|]. split; [now observe|].
  split; [now observe|]. split; [frame|]. split; [reflexivity|].
  reduce_state. eexists. eexists. reflexivity.
Qed.

Lemma attempts_app (a b : list event) : attempts (a ++ b) = attempts a ++ attempts b.
Proof. apply filter_app. Qed.

Lemma attempts_stop (c : bool) :
  attempts (if c then [Progress StopRequested] else []) = [].
Proof. now destruct c. Qed.

(** what is left of the attempts once the state is reduced *)
Ltac attempted :=
  unfold ret; reduce_state;
  rewrite ?attempts_app, ?attempts_stop, ?app_nil_r;
  cbn [attempts filter app];
  rewrite ?attempts_stop, ?app_nil_r, <- ?app_assoc;
  cbn [app].

(** the next response is an error, by [Herr]; [R] keeps what it is *)
Ltac fails_as Herr R :=
  match goal with
  | |- context [axios_get ?env ?t ?u] =>
      let H := fresh in
      pose proof (Herr t) as H;
      destruct (axios_get env t u) as [? | ?status ?message] eqn:R;
      [discriminate H|]; cbn [retryable is_error] in H;
      try (apply negb_true_iff in H; rewrite H); clear H
  end.

(** The retry loop of the worker on a page whose every request fails with an
    error other than 404: every failure is reported, with its message and
    the number of the attempt, before the next delay. *)
Lemma retry_loop_reports (env : Env) (fullUrl stateId name : string) (w : Walk) (st : St) :
  (forall t, retryable (axios_get env t (pageUrl fullUrl (currentPage w))) = true) ->
  attempts
    (trace (snd (retry_loop env fullUrl stateId name maxRetries
                   {| currentPage := currentPage w; hasMorePages := hasMorePages w;
                      scrapedEventLinks := scrapedEventLinks w; retries := 0;
                      success := false |} st)))
  = attempts (trace st)
      ++ [Fetch Listing (pageUrl fullUrl (currentPage w));
          Progress (PageError
                      (message_of (axios_get env (tick st)
                                     (pageUrl fullUrl (currentPage w))))
                      name (currentPage w) 1);
          Sleep 2000;
          Fetch Listing (pageUrl fullUrl (currentPage w));
          Progress (PageError
                      (message_of (axios_get env (tick st + 2)
                                     (pageUrl fullUrl (currentPage w))))
                      name (currentPage w) 2);
          Sleep 4000;
          Fetch Listing (pageUrl fullUrl (currentPage w));
          Progress (PageError
                      (message_of (axios_get env (tick st + 4)
                                     (pageUrl fullUrl (currentPage w))))
                      name (currentPage w) 3)].
Proof.
  intro Hpage.
  replace (tick st + 2) with (S (S (tick st))) by lia.
  replace (tick st + 4) with (S (S (S (S (tick st))))) by lia.
  walk; unfold try_page, page_response; run; walk; run; fails_as Hpage R0; run; walk; run.
  walk; unfold try_page, page_response; run; walk; run; fails_as Hpage R1; run; walk; run.
  walk; unfold try_page, page_response; run; walk; run; fails_as Hpage R2; run; walk; run.
  cbn [message_of]. attempted. reflexivity.
Qed.

(** C4, amended: a request that always fails is attempted exactly three times,
    with a sleep of [2 ^ retries * 1000] ms before retry number [retries],
    that is 2000 ms and then 4000 ms.  Every failure is reported through
    [onProgress] with the message of its error and the number of the
    attempt, before the next delay.  After the third error
    [scrapeEventDetails] returns [null]; the retry loop of
    [scrapeStateWorker] does the same for a listing page, for every error
    but a 404, and leaves the page unscraped ([success = false],
    [retries = 3]). *)
Theorem retry_bound (env : Env) (st : St) (link stateName : string)
  (fullUrl stateId stateDisplayName : string) (w : Walk) :
  (forall t, is_error (axios_get env t link) = true) ->
  JsSet.has (trackedEventLinks (self st)) link = false ->
  (forall t, retryable (axios_get env t (pageUrl fullUrl (currentPage w))) = true) ->
  (exists st',
      scrapeEventDetails env link stateName st = (Some None, st') /\
      detail_fetches (trace st') = detail_fetches (trace st) ++ [link; link; link] /\
      sleeps (trace st') = sleeps (trace st) ++ [2000; 4000]%N /\
      (exists tr message, trace st' = tr ++ [Progress (EventError message link 3)]) /\
      attempts (trace st')
      = attempts (trace st)
          ++ [Fetch Detail link;
              Progress (EventError (message_of (axios_get env (tick st) link)) link 1);
              Sleep 2000;
              Fetch Detail link;
              Progress (EventError (message_of (axios_get env (tick st + 2) link)) link 2);
              Sleep 4000;
              Fetch Detail link;
              Progress (EventError (message_of (axios_get env (tick st + 4) link)) link 3)]) /\
  (exists st',
      retry_loop env fullUrl stateId stateDisplayName maxRetries
        {| currentPage := currentPage w; hasMorePages := hasMorePages w;
           scrapedEventLinks := scrapedEventLinks w; retries := 0; success := false |} st
      = (Some (Break,
               {| currentPage := currentPage w; hasMorePages := hasMorePages w;
                  scrapedEventLinks := scrapedEventLinks w; retries := 3;
                  success := false |}), st') /\
      page_requests (trace st')
      = page_requests (trace st)
          ++ [pageUrl fullUrl (currentPage w); pageUrl fullUrl (currentPage w);
              pageUrl fullUrl (currentPage w)] /\
      sleeps (trace st') = sleeps (trace st) ++ [2000; 4000]%N /\
      (exists tr message,
          trace st'
          = tr ++ [Progress (PageError message stateDisplayName (currentPage w) 3)]) /\
      attempts (trace st')
      = attempts (trace st)
          ++ [Fetch Listing (pageUrl fullUrl (currentPage w));
              Progress (PageError
                          (message_of (axios_get env (tick st)
                                         (pageUrl fullUrl (currentPage w))))
                          stateDisplayName (currentPage w) 1);
              Sleep 2000;
              Fetch Listing (pageUrl fullUrl (currentPage w));
              Progress (PageError
                          (message_of (axios_get env (tick st + 2)
                                         (pageUrl fullUrl (currentPage w))))
                          stateDisplayName (currentPage w) 2);
              Sleep 4000;
              Fetch Listing (pageUrl fullUrl (currentPage w));
              Progress (PageError
                          (message_of (axios_get env (tick st + 4)
                                         (pageUrl fullUrl (currentPage w))))
                          stateDisplayName (currentPage w) 3)]).
Proof.
  intros Herr Hnew Hpage. split.
  - apply yields_exists.
    replace (tick st + 2) with (S (S (tick st))) by lia.
    replace (tick st + 4) with (S (S (S (S (tick st))))) by lia.
    unfold scrapeEventDetails, request.
    run. rewrite Hnew. run. fails_as Herr R0.
    cbn [respond maxRetries]. unfold request. run. rewrite Hnew. run. fails_as Herr R1.
    cbn [respond maxRetries]. unfold request. run. rewrite Hnew. run. fails_as Herr R2.
    cbn [respond maxRetries]. run. apply yields_intro.
    split; [reflexivity|]. split; [now observe|]. split; [now observe|].
    split; [reduce_state; eexists; eexists; reflexivity|].
    cbn [message_of]. attempted. reflexivity.
  - pose proof (retry_loop_exhausted env fullUrl stateId stateDisplayName w st Hpage) as H.
    pose proof (retry_loop_reports env fullUrl stateId stateDisplayName w st Hpage) as A.
    unfold yields in H.
    destruct (retry_loop env fullUrl stateId stateDisplayName maxRetries _ st)
      as [r st'].
    cbn [fst snd] in H, A. destruct H as [-> [H2 [H3 [_ [_ [_ H4]]]]]].
    exists st'. now repeat split.
Qed.

Lemma retry_bound_witness :
  exists st',
    scrapeEventDetails Sample.always_500 Sample.link "Iowa" Sample.st0 = (Some None, st') /\
    detail_fetches (trace st')
    = detail_fetches (trace Sample.st0) ++ [Sample.link; Sample.link; Sample.link] /\
    sleeps (trace st') = sleeps (trace Sample.st0) ++ [2000; 4000]%N /\
    (exists tr message, trace st' = tr ++ [Progress (EventError message Sample.link 3)]) /\
    attempts (trace st')
    = attempts (trace Sample.st0)
        ++ [Fetch Detail Sample.link;
            Progress (EventError "Request failed with status code 500" Sample.link 1);
            Sleep 2000;
            Fetch Detail Sample.link;
            Progress (EventError "Request failed with status code 500" Sample.link 2);
            Sleep 4000;
            Fetch Detail Sample.link;
            Progress (EventError "Request failed with status code 500" Sample.link 3)].
Proof.
  apply (proj1 (retry_bound Sample.always_500 Sample.st0 Sample.link "Iowa"
                  "https://carcruisefinder.com/iowa-car-events" "iowa" "Iowa"
                  {| currentPage := 1; hasMorePages := true; scrapedEventLinks := [];
                     retries := 0; success := false |}
                  (fun t => eq_refl) eq_refl (fun t => eq_refl))).
Defined.

Lemma page_loop_done (env : Env) (fullUrl stateId name : string) (fuel : nat)
  (w : Walk) (st : St) :
  hasMorePages w = false ->
  page_loop env fullUrl stateId name fuel w st = (Some (Next, w), st).
Proof. intro H. destruct fuel; cbn [page_loop]; now rewrite H. Qed.

(** the prologue of the worker, for a state that is neither stopped nor
    completed *)
Lemma worker_start (env : Env) (fuel : nat) (stateLink stateName : string) (st : St) :
  isRunning (self st) = true ->
  JsSet.has (completedStates (self st)) (stateIdOf stateName) = false ->
  exists st0,
    scrapeStateWorker env fuel stateLink stateName st
    = bind (page_loop env (full_url (self st) stateLink) (stateIdOf stateName)
              (display_name env stateLink stateName) fuel
              (first_walk (start_page (self st) (stateIdOf stateName))))
        (worker_finish env stateLink stateName) st0 /\
    self st0 = self st /\ tick st0 = tick st /\ csv st0 = csv st /\ disk st0 = disk st /\
    page_requests (trace st0) = page_requests (trace st) /\
    detail_fetches (trace st0) = detail_fetches (trace st) /\
    sleeps (trace st0) = sleeps (trace st).
Proof.
  intros Hrun Hnot. unfold scrapeStateWorker.
  rewrite run_this, Hrun. cbn [negb]. rewrite Hnot.
  unfold start_page, full_url, display_name, first_walk.
  destruct (sp_get (stateProgress (self st)) (stateIdOf stateName)) as [e|].
  - destruct (0 <? lastPage e).
    + rewrite run_bind, run_onProgress, run_ret.
      eexists. split; [reflexivity|]. repeat split; now observe.
    + rewrite run_ret. exists st. repeat split.
  - rewrite run_ret. exists st. repeat split.
Qed.

(** the epilogue of the worker, when the page loop ended otherwise than by a
    stop request: the state is marked completed *)
Lemma worker_finish_marks (env : Env) (stateLink stateName : string)
  (c : ctl) (w : Walk) (st : St) :
  c <> Return ->
  yields (worker_finish env stateLink stateName (c, w) st)
    (fun r st' =>
       r = Some (scrapedEventLinks w) /\
       completedStates (self st')
       = JsSet.add (completedStates (self st)) (stateIdOf stateName) /\
       stateProgress (self st') = stateProgress (self st) /\
       trackedEventLinks (self st') = trackedEventLinks (self st) /\
       page_requests (trace st') = page_requests (trace st) /\
       detail_fetches (trace st') = detail_fetches (trace st) /\
       sleeps (trace st') = sleeps (trace st)).
Proof.
  intro Hc. unfold worker_finish. cbn [fst snd].
  destruct c; [| |contradiction]; run; apply yields_intro;
    (split; [reflexivity|]); observe; repeat split; reflexivity.
Qed.

(** ** A state whose page cannot be fetched *)

(** When every request of the page at which a state stands fails with an
    error other than 404, the worker gives up after three attempts, leaves
    [stateProgress] as it was, and marks the state completed all the same. *)
Lemma exhausted_page_marks_completed (env : Env) (fuel : nat)
  (stateLink stateName : string) (st : St) :
  isRunning (self st) = true ->
  JsSet.has (completedStates (self st)) (stateIdOf stateName) = false ->
  (forall t, retryable (axios_get env t
                          (pageUrl (full_url (self st) stateLink)
                                   (start_page (self st) (stateIdOf stateName)))) = true) ->
  exists st',
    scrapeStateWorker env (S fuel) stateLink stateName st = (Some [], st') /\
    page_requests (trace st')
    = page_requests (trace st)
        ++ (let u := pageUrl (full_url (self st) stateLink)
                             (start_page (self st) (stateIdOf stateName)) in
            [u; u; u]) /\
    stateProgress (self st') = stateProgress (self st) /\
    completedStates (self st')
    = JsSet.add (completedStates (self st)) (stateIdOf stateName).
Proof.
  intros Hrun Hnot Hpage.
  destruct (worker_start env (S fuel) stateLink stateName st Hrun Hnot)
    as [st0 [Heq [Hself [Htick [Hcsv [Hdisk [Hreq [Hdet Hsl]]]]]]]].
  rewrite Heq. apply yields_exists.
  cbn [page_loop first_walk hasMorePages]. run. rewrite Hself, Hrun. cbn [negb].
  pose proof (retry_loop_exhausted env (full_url (self st) stateLink)
                (stateIdOf stateName) (display_name env stateLink stateName)
                (first_walk (start_page (self st) (stateIdOf stateName))) st0 Hpage) as H.
  unfold yields in H. cbn [first_walk currentPage hasMorePages scrapedEventLinks] in H.
  cbn [currentPage hasMorePages scrapedEventLinks].
  destruct (retry_loop _ _ _ _ _ _ st0) as [r st1] eqn:E.
  cbn [fst snd] in H. destruct H as [-> [H1 [H2 [H3 [H4 [H5 H6]]]]]].
  rewrite (bind_eq _ _ _ _ _ E). cbn [fst snd success retries maxRetries negb Nat.leb andb].
  run.
  pose proof (worker_finish_marks env stateLink stateName Break
                {| currentPage := start_page (self st) (stateIdOf stateName);
                   hasMorePages := true; scrapedEventLinks := []; retries := 3;
                   success := false |} st1 ltac:(discriminate)) as F.
  unfold yields in *. cbn [scrapedEventLinks] in F |- *.
  destruct F as [F1 [F2 [F3 [_ [F4 _]]]]].
  split; [exact F1|]. rewrite F2, F3, F4, H1, Hreq, H4, Hself.
  cbn [stateProgress completedStates set_isRunning]. repeat split; reflexivity.
Qed.

(** C2 fails on the code.  Ohio's listing answers 500 to every request: the
    page is requested three times, the errors are reported, no cursor is
    recorded for Ohio, and Ohio is marked completed; a second call of
    [scrapeAllEvents] then skips Ohio without a request. *)
Lemma failed_state_is_marked_completed :
  let states := [(Sample2.ohio, "Ohio")] in
  let res := scrapeAllEvents Sample.always_500 5 states (ResumeIndex 0) Sample.st0 in
  let again := scrapeAllEvents Sample.always_500 5 states (ResumeIndex 0) (snd res) in
  fst res = Some tt /\
  page_requests (trace (snd res)) = [Sample2.ohio_url; Sample2.ohio_url; Sample2.ohio_url] /\
  page_errors (trace (snd res)) = [("Ohio", 1, 1); ("Ohio", 1, 2); ("Ohio", 1, 3)] /\
  stateProgress (self (snd res)) = [] /\
  completedStates (self (snd res)) = ["ohio"] /\
  fst again = Some tt /\
  page_requests (trace (snd again)) = page_requests (trace (snd res)).
Proof. vm_compute. repeat split. Qed.

Lemma region_loop_done (env : Env) (fullUrl : string) (fuel : nat)
  (w : EventScraper.Region) (st : St) :
  EventScraper.hasMorePages w = false ->
  EventScraper.region_loop env fullUrl fuel w st = (Some w, st).
Proof. intro H. destruct fuel; cbn [EventScraper.region_loop]; now rewrite H. Qed.

(** the next response is an error that is retried, by [H] *)
Ltac retried H :=
  match type of H with
  | retryable (axios_get ?env ?t ?u) = true =>
      destruct (axios_get env t u) as [? | ?status ?message]; [discriminate H|];
      cbn [retryable] in H; apply negb_true_iff in H; rewrite H; clear H
  end.

(** The page loop on a page that answers 404, at once or to a retry. *)
Lemma page_loop_not_found (env : Env) (fuel : nat) (message : string)
  (fullUrl stateId name : string) (k : nat) (w : Walk) (st : St) :
  k < maxRetries ->
  isRunning (self st) = true ->
  hasMorePages w = true ->
  not_found_at env (pageUrl fullUrl (currentPage w)) (tick st) k message ->
  yields (page_loop env fullUrl stateId name (S fuel) w st)
    (fun r st' =>
       r = Some (if maxRetries <=? k + 1 then Break else Next,
                 {| currentPage := currentPage w; hasMorePages := false;
                    scrapedEventLinks := scrapedEventLinks w;
                    retries := k + 1; success := false |}) /\
       (page_requests (trace st')
        = page_requests (trace st) ++ repeat (pageUrl fullUrl (currentPage w)) (k + 1) /\
        sleeps (trace st') = sleeps (trace st) ++ backoff k /\
        detail_fetches (trace st') = detail_fetches (trace st) /\
        self st' = set_isRunning (isRunning (self st')) (self st) /\
        csv st' = csv st /\
        exists tr,
          trace st' = tr ++ [Progress (PageError message name (currentPage w) (k + 1))])).
Proof.
  intros Hk Hrun Hmore [Hret H404]. unfold maxRetries in Hk.
  destruct k as [|[|[|k]]]; [| | |lia].
  - replace (tick st + 2 * 0) with (tick st) in H404 by lia.
    cbn [page_loop]. rewrite Hmore. run. rewrite Hrun. walk.
    unfold try_page, page_response. run. walk. run. rewrite H404. run.
    cbn [is_404 Nat.eqb]. run. walk. rewrite page_loop_done by reflexivity.
    apply yields_intro. split; [reflexivity|].
    split; [now observe|]. split; [now observe|]. split; [now observe|].
    split; [frame|]. split; [reflexivity|]. reduce_state. eexists. reflexivity.
  - pose proof (Hret 0 ltac:(lia)) as H0.
    replace (tick st + 2 * 0) with (tick st) in H0 by lia.
    replace (tick st + 2 * 1) with (S (S (tick st))) in H404 by lia.
    cbn [page_loop]. rewrite Hmore. run. rewrite Hrun. walk.
    unfold try_page, page_response. run. walk. run. retried H0. run. walk. run.
    walk. unfold try_page, page_response. run. walk. run. rewrite H404. run.
    cbn [is_404 Nat.eqb]. run. walk. rewrite page_loop_done by reflexivity.
    apply yields_intro. split; [reflexivity|].
    split; [now observe|]. split; [now observe|]. split; [now observe|].
    split; [frame|]. split; [reflexivity|]. reduce_state. eexists. reflexivity.
  - pose proof (Hret 0 ltac:(lia)) as H0. pose proof (Hret 1 ltac:(lia)) as H1.
    replace (tick st + 2 * 0) with (tick st) in H0 by lia.
    replace (tick st + 2 * 1) with (S (S (tick st))) in H1 by lia.
    replace (tick st + 2 * 2) with (S (S (S (S (tick st))))) in H404 by lia.
    cbn [page_loop]. rewrite Hmore. run. rewrite Hrun. walk.
    unfold try_page, page_response. run. walk. run. retried H0. run. walk. run.
    walk. unfold try_page, page_response. run. walk. run. retried H1. run. walk. run.
    walk. unfold try_page, page_response. run. walk. run. rewrite H404. run.
    cbn [is_404 Nat.eqb]. run. walk. run.
    apply yields_intro. split; [reflexivity|].
    split; [now observe|]. split; [now observe|]. split; [now observe|].
    split; [frame|]. split; [reflexivity|]. reduce_state. eexists. reflexivity.
Qed.

(** C8: a listing page that answers 404 ends the pagination of its state.
    In [scrapeStateWorker], whether the 404 answers the first request of the
    page or a retry after one or two other errors, it is reported and not
    retried: the page is requested once more than it failed before, with
    the delays of those retries only, [hasMorePages] becomes [false] and the
    page loop ends without asking for another page; the worker then marks
    the state completed and returns normally, so the run goes on with the
    next state.  In [scrapeRegionEvents] of [EventScraper], which asks for
    every page once, a 404 ends the loop in the same way. *)
Theorem not_found_ends_pagination (env : Env) (fuel : nat) (message : string) :
  (forall k fullUrl stateId name w st,
      k < maxRetries ->
      isRunning (self st) = true ->
      hasMorePages w = true ->
      not_found_at env (pageUrl fullUrl (currentPage w)) (tick st) k message ->
      exists st',
        page_loop env fullUrl stateId name (S fuel) w st
        = (Some (if maxRetries <=? k + 1 then Break else Next,
                 {| currentPage := currentPage w; hasMorePages := false;
                    scrapedEventLinks := scrapedEventLinks w;
                    retries := k + 1; success := false |}), st') /\
        page_requests (trace st')
        = page_requests (trace st) ++ repeat (pageUrl fullUrl (currentPage w)) (k + 1) /\
        sleeps (trace st') = sleeps (trace st) ++ backoff k /\
        exists tr,
          trace st' = tr ++ [Progress (PageError message name (currentPage w) (k + 1))]) /\
  (forall k stateLink stateName st,
      k < maxRetries ->
      isRunning (self st) = true ->
      JsSet.has (completedStates (self st)) (stateIdOf stateName) = false ->
      not_found_at env
        (pageUrl (full_url (self st) stateLink)
                 (start_page (self st) (stateIdOf stateName)))
        (tick st) k message ->
      exists st',
        scrapeStateWorker env (S fuel) stateLink stateName st = (Some [], st') /\
        page_requests (trace st')
        = page_requests (trace st)
            ++ repeat (pageUrl (full_url (self st) stateLink)
                               (start_page (self st) (stateIdOf stateName))) (k + 1) /\
        sleeps (trace st') = sleeps (trace st) ++ backoff k /\
        completedStates (self st')
        = JsSet.add (completedStates (self st)) (stateIdOf stateName)) /\
  (forall fullUrl w st,
      EventScraper.hasMorePages w = true ->
      axios_get env (tick st) (pageUrl fullUrl (EventScraper.currentPage w))
      = HttpError (Some 404) message ->
      exists st',
        EventScraper.region_loop env fullUrl (S fuel) w st
        = (Some (EventScraper.ended w), st') /\
        page_requests (trace st')
        = page_requests (trace st) ++ [pageUrl fullUrl (EventScraper.currentPage w)]).
Proof.
  split; [|split].
  - intros k fullUrl stateId name w st Hk Hrun Hmore H404. apply yields_exists.
    pose proof (page_loop_not_found env fuel message fullUrl stateId name k w st
                  Hk Hrun Hmore H404) as H.
    unfold yields in *. destruct H as [H1 [H2 [H3 [_ [_ [_ H6]]]]]]. auto.
  - intros k stateLink stateName st Hk Hrun Hnot H404.
    destruct (worker_start env (S fuel) stateLink stateName st Hrun Hnot)
      as [st0 [Heq [Hself [Htick [Hcsv [Hdisk [Hreq [Hdet Hsl]]]]]]]].
    rewrite Heq. apply yields_exists.
    assert (Hrun0 : isRunning (self st0) = true) by now rewrite Hself.
    assert (H4040 : not_found_at env
                      (pageUrl (full_url (self st) stateLink)
                         (currentPage (first_walk
                            (start_page (self st) (stateIdOf stateName)))))
                      (tick st0) k message) by now rewrite Htick.
    pose proof (page_loop_not_found env fuel message (full_url (self st) stateLink)
                  (stateIdOf stateName) (display_name env stateLink stateName) k
                  (first_walk (start_page (self st) (stateIdOf stateName)))
                  st0 Hk Hrun0 eq_refl H4040) as H.
    unfold yields in H.
    destruct (page_loop env (full_url (self st) stateLink) (stateIdOf stateName)
                (display_name env stateLink stateName) (S fuel)
                (first_walk (start_page (self st) (stateIdOf stateName))) st0)
      as [r st1] eqn:E.
    cbn [fst snd] in H. destruct H as [-> [H1 [H2 [_ [H3 [H4 _]]]]]].
    rewrite (bind_eq _ _ _ _ _ E).
    match goal with
    | |- yields (worker_finish _ _ _ (?c, ?w) _) _ =>
        pose proof (worker_finish_marks env stateLink stateName c w st1
                      ltac:(destruct (maxRetries <=? k + 1); discriminate)) as F
    end.
    unfold yields in *. cbn [scrapedEventLinks first_walk] in F |- *.
    destruct F as [F1 [F2 [_ [_ [F4 [_ F5]]]]]].
    split; [exact F1|]. rewrite F2, F4, F5, H1, H2, Hreq, Hsl, H3, Hself.
    cbn [first_walk currentPage completedStates set_isRunning].
    repeat split; reflexivity.
  - intros fullUrl w st Hmore H404. apply yields_exists.
    cbn [EventScraper.region_loop]. rewrite Hmore.
    unfold EventScraper.visit_page, EventScraper.scrapeWithAxios.
    run. rewrite H404. run. cbn [is_404 Nat.eqb]. run.
    rewrite region_loop_done by reflexivity.
    apply yields_intro. split; [reflexivity|]. now observe.
Qed.

Lemma not_found_ends_pagination_witness :
  (exists st',
      scrapeStateWorker Sample2.ohio_404 1 Sample2.ohio "Ohio" Sample.st0 = (Some [], st') /\
      page_requests (trace st') = page_requests (trace Sample.st0) ++ [Sample2.ohio_url] /\
      sleeps (trace st') = sleeps (trace Sample.st0) ++ [] /\
      completedStates (self st')
      = JsSet.add (completedStates (self Sample.st0)) (stateIdOf "Ohio")) /\
  (exists st',
      scrapeStateWorker Sample2.ohio_500_404 1 Sample2.ohio "Ohio" Sample.st0
      = (Some [], st') /\
      page_requests (trace st')
      = page_requests (trace Sample.st0) ++ [Sample2.ohio_url; Sample2.ohio_url] /\
      sleeps (trace st') = sleeps (trace Sample.st0) ++ [2000%N] /\
      completedStates (self st')
      = JsSet.add (completedStates (self Sample.st0)) (stateIdOf "Ohio")).
Proof.
  split.
  - apply (proj1 (proj2 (not_found_ends_pagination Sample2.ohio_404 0
                           "Request failed with status code 404"))
             0 Sample2.ohio "Ohio" Sample.st0); try reflexivity.
    + unfold maxRetries. lia.
    + split; [intros i Hi; lia | reflexivity].
  - apply (proj1 (proj2 (not_found_ends_pagination Sample2.ohio_500_404 0
                           "Request failed with status code 404"))
             1 Sample2.ohio "Ohio" Sample.st0); try reflexivity.
    + unfold maxRetries. lia.
    + split; [|reflexivity]. intros i Hi. assert (i = 0) as -> by lia. reflexivity.
Defined.

(** ** Sets *)

Lemma has_true_iff (s : JsSet.t) (x : string) : JsSet.has s x = true <-> In x s.
Proof.
  unfold JsSet.has. rewrite existsb_exists. split.
  - intros [y [Hy Heq]]. apply String.eqb_eq in Heq. now subst.
  - intro H. exists x. split; [exact H | apply String.eqb_refl].
Qed.

Lemma has_false_iff (s : JsSet.t) (x : string) : JsSet.has s x = false <-> ~ In x s.
Proof.
  split; intro H.
  - intro Hin. apply has_true_iff in Hin. congruence.
  - destruct (JsSet.has s x) eqn:E; [|reflexivity].
    apply has_true_iff in E. contradiction.
Qed.

Lemma NoDup_add (s : JsSet.t) (x : string) : NoDup s -> NoDup (JsSet.add s x).
Proof.
  intro H. unfold JsSet.add. destruct (JsSet.has s x) eqn:E; [exact H|].
  apply has_false_iff in E. apply NoDup_app; [exact H | |].
  - constructor; [intros [] | constructor].
  - intros y Hy [<- | []]. contradiction.
Qed.

Lemma In_add (s : JsSet.t) (x y : string) : In y (JsSet.add s x) <-> In y s \/ y = x.
Proof.
  unfold JsSet.add. destruct (JsSet.has s x) eqn:E.
  - apply has_true_iff in E. split; [now left|]. intros [H | ->]; assumption.
  - rewrite in_app_iff. cbn [In]. split.
    + intros [H | [<- | []]]; [now left | now right].
    + intros [H | ->]; [now left | right; now left].
Qed.

Lemma of_array_spec (l : list string) :
  forall s : JsSet.t,
    NoDup s ->
    NoDup (fold_left JsSet.add l s) /\
    (forall x, In x (fold_left JsSet.add l s) <-> In x s \/ In x l).
Proof.
  induction l as [|a l IH]; intros s Hs; cbn [fold_left].
  - split; [exact Hs|]. intro x. cbn [In]. tauto.
  - destruct (IH (JsSet.add s a) (NoDup_add s a Hs)) as [Hn Hi].
    split; [exact Hn|]. intro x. rewrite Hi, In_add. cbn [In].
    split; [intros [[H | ->] | H] | intros [H | [<- | H]]]; auto.
Qed.

Lemma NoDup_of_array (l : list string) : NoDup (JsSet.of_array l).
Proof. apply (of_array_spec l JsSet.empty). constructor. Qed.

Lemma In_of_array (l : list string) (x : string) : In x (JsSet.of_array l) <-> In x l.
Proof.
  destruct (of_array_spec l JsSet.empty (NoDup_nil _)) as [_ H].
  rewrite (H x). cbn [JsSet.empty In]. tauto.
Qed.

(** ** combinedScraper.js *)

Section Combined.
Import CombinedScraper.
Variables (env : Env) (cfg : Config).

Lemma asks_only_refl (url : string) (st : St) : asks_only url st st.
Proof. exists []. now rewrite app_nil_r. Qed.

Lemma asks_only_trans (url : string) (a b c : St) :
  asks_only url a b -> asks_only url b c -> asks_only url a c.
Proof.
  intros [r1 [H1 F1]] [r2 [H2 F2]]. exists (r1 ++ r2).
  rewrite H2, H1, app_assoc. split; [reflexivity | now apply Forall_app].
Qed.

Lemma scrapeWithAxios_from_spec (url : string) (fuel : nat) :
  forall attempt st,
    retries cfg <= attempt + fuel ->
    yields (scrapeWithAxios_from env cfg fuel attempt url st)
      (fun r st' =>
         exists resp,
           r = Some resp /\
           asks_only url st st' /\
           ((forall t, axios_empty (axios_get env t url) = true) ->
            no_links resp = true) /\
           (forall body,
               attempt < retries cfg ->
               URL_origin env url <> None ->
               axios_get env (tick st) url = HttpOk body ->
               resp = {| eventLinks := listing_links body; success := true |} /\
               page_requests (trace st') = page_requests (trace st) ++ [url])).
Proof.
  induction fuel as [|fuel IH]; intros attempt st Hle; cbn [scrapeWithAxios_from].
  - destruct (attempt <? retries cfg) eqn:E.
    + apply Nat.ltb_lt in E. lia.
    + apply yields_intro. eexists. split; [reflexivity|].
      split; [apply asks_only_refl|]. split; [reflexivity|].
      intros body Hlt. apply Nat.ltb_ge in E. lia.
  - destruct (attempt <? retries cfg) eqn:E.
    + cbv zeta.
      assert (Hfailed : forall s,
                 asks_only url st s ->
                 yields ((if attempt =? retries cfg - 1
                          then ret {| eventLinks := []; success := false |}
                          else
                            sleep env (delay cfg * N.of_nat (attempt + 1))%N;;
                            scrapeWithAxios_from env cfg fuel (attempt + 1) url) s)
                   (fun r st' =>
                      exists resp,
                        r = Some resp /\ asks_only url st st' /\
                        ((forall t, axios_empty (axios_get env t url) = true) ->
                         no_links resp = true))).
      { intros s Hs. destruct (attempt =? retries cfg - 1).
        - apply yields_intro. eexists. split; [reflexivity|].
          split; [exact Hs | reflexivity].
        - run.
          match goal with
          | |- yields (scrapeWithAxios_from _ _ _ _ _ ?s') _ =>
              pose proof (IH (attempt + 1) s' ltac:(lia)) as H
          end.
          unfold yields in *. destruct H as [resp [Hr [Ha [Hn _]]]].
          exists resp. split; [exact Hr|]. split; [|exact Hn].
          eapply asks_only_trans; [exact Hs|].
          eapply asks_only_trans; [|exact Ha].
          exists []. split; [now observe | constructor]. }
      destruct (URL_origin env url) as [origin|] eqn:U.
      * run. destruct (axios_get env (tick st) url) as [body|status message] eqn:R.
        -- run. apply yields_intro. eexists. split; [reflexivity|].
           split; [exists [url]; split; [now observe | now repeat constructor]|].
           split.
           ++ intro He. specialize (He (tick st)). rewrite R in He.
              unfold no_links. cbn [success eventLinks negb orb]. exact He.
           ++ intros body' _ _ [= <-]. split; [reflexivity | now observe].
        -- match goal with
           | |- yields (_ ?s) _ =>
               pose proof (Hfailed s) as H
           end.
           unfold yields in *.
           destruct H as [resp [Hr [Ha Hn]]];
             [exists [url]; split; [now observe | now repeat constructor]|].
           exists resp. split; [exact Hr|]. split; [exact Ha|].
           split; [exact Hn | intros body' _ _ [=]].
      * pose proof (Hfailed st (asks_only_refl url st)) as H.
        unfold yields in *. destruct H as [resp [Hr [Ha Hn]]].
        exists resp. split; [exact Hr|]. split; [exact Ha|].
        split; [exact Hn | intros body' _ Hu; contradiction].
    + apply yields_intro. eexists. split; [reflexivity|].
      split; [apply asks_only_refl|]. split; [reflexivity|].
      intros body Hlt. apply Nat.ltb_ge in E. lia.
Qed.

Lemma scrapeWithAxios_spec (url : string) (st : St) :
  yields (scrapeWithAxios env cfg url st)
    (fun r st' =>
       exists resp,
         r = Some resp /\
         asks_only url st st' /\
         ((forall t, axios_empty (axios_get env t url) = true) ->
          no_links resp = true) /\
         (forall body,
             0 < retries cfg ->
             URL_origin env url <> None ->
             axios_get env (tick st) url = HttpOk body ->
             resp = {| eventLinks := listing_links body; success := true |} /\
             page_requests (trace st') = page_requests (trace st) ++ [url])).
Proof. apply scrapeWithAxios_from_spec. lia. Qed.

Lemma run_scrapeWithPuppeteer {B} (url : string) (k : Response + string -> M B) (st : St) :
  bind (scrapeWithPuppeteer env url) k st
  = k (match puppeteer_get env (tick st) url with
       | PuppeteerLinks l => inl {| eventLinks := l; success := true |}
       | PuppeteerFailed => inl {| eventLinks := []; success := false |}
       | PuppeteerThrows message => inr message
       end)
      (await_st env (with_trace (Browse url) st)).
Proof. unfold scrapeWithPuppeteer, bind, emit, ret. now rewrite await_eq. Qed.

Section Region.
Variable fullUrl : string.




(** every visit of a page ends, and tells the loop to stop or to go to
    the next page; on a page without links the counter of empty pages is
    stepped and stays below 2 if the loop goes on *)
Lemma visit_page_total (w : Region) (st : St) :
  yields (visit_page env cfg fullUrl w st)
    (fun r st' =>
       exists c w',
         r = Some (c, w') /\
         (c = Next ->
          currentPage w' = currentPage w + 1 /\
          hasMorePages w' = hasMorePages w /\
          (barren env (pageUrl fullUrl (currentPage w)) ->
           consecutiveEmptyPages w' = consecutiveEmptyPages w + 1 /\
           consecutiveEmptyPages w' < 2))).
Proof.
  unfold visit_page.
  pose proof (scrapeWithAxios_spec (pageUrl fullUrl (currentPage w)) st) as H.
  unfold yields in H.
  destruct (scrapeWithAxios env cfg (pageUrl fullUrl (currentPage w)) st)
    as [r st1] eqn:E.
  cbn [fst snd] in H. destruct H as [resp [-> [_ [Hno _]]]].
  rewrite (bind_eq _ _ _ _ _ E).
  destruct (no_links resp) eqn:Hresp.
  - rewrite run_scrapeWithPuppeteer.
    destruct (puppeteer_get env (tick st1) (pageUrl fullUrl (currentPage w)))
      as [l| |m] eqn:P.
    + destruct (no_links {| eventLinks := l; success := true |}) eqn:Hl.
      * destruct (2 <=? consecutiveEmptyPages w + 1) eqn:Hc.
        -- run. apply yields_intro. do 2 eexists. split; [reflexivity|].
           discriminate.
        -- unfold next_page. run. apply yields_intro. do 2 eexists.
           split; [reflexivity|]. intros _. cbn [currentPage hasMorePages
             consecutiveEmptyPages]. repeat split.
           apply Nat.leb_gt in Hc. lia.
      * unfold next_page. run. apply yields_intro. do 2 eexists.
        split; [reflexivity|]. intros _.
        cbn [currentPage hasMorePages consecutiveEmptyPages].
        split; [reflexivity|]. split; [reflexivity|].
        intro Hb. destruct (Hb (tick st1)) as [_ Hb2]. rewrite P in Hb2.
        cbn [puppeteer_barren] in Hb2.
        unfold no_links in Hl. cbn [success eventLinks negb orb] in Hl. congruence.
    + cbn [no_links success eventLinks negb orb].
      destruct (2 <=? consecutiveEmptyPages w + 1) eqn:Hc.
      * run. apply yields_intro. do 2 eexists. split; [reflexivity|]. discriminate.
      * unfold next_page. run. apply yields_intro. do 2 eexists.
        split; [reflexivity|]. intros _.
        cbn [currentPage hasMorePages consecutiveEmptyPages]. repeat split.
        apply Nat.leb_gt in Hc. lia.
    + run. apply yields_intro. do 2 eexists. split; [reflexivity|]. discriminate.
  - unfold next_page. run. apply yields_intro. do 2 eexists.
    split; [reflexivity|]. intros _.
    cbn [currentPage hasMorePages consecutiveEmptyPages].
    split; [reflexivity|]. split; [reflexivity|].
    intro Hb. specialize (Hno (fun t => proj1 (Hb t))). discriminate Hno.
Qed.

Lemma region_loop_stopped (fuel : nat) (w : Region) (st : St) :
  hasMorePages w = false -> region_loop env cfg fullUrl fuel w st = (Some w, st).
Proof. intro H. destruct fuel; cbn [region_loop]; now rewrite H. Qed.

(** the page loop ends once it meets two consecutive pages without links *)
Lemma region_loop_ends (q : nat) :
  barren env (pageUrl fullUrl q) ->
  barren env (pageUrl fullUrl (q + 1)) ->
  forall k fuel w st,
    currentPage w + k = q ->
    k + 2 <= fuel ->
    exists w' st', region_loop env cfg fullUrl fuel w st = (Some w', st').
Proof.
  intros Hq Hq1.
  assert (Hlast : forall fuel w st,
             currentPage w = q + 1 -> 1 <= consecutiveEmptyPages w -> 1 <= fuel ->
             exists w' st', region_loop env cfg fullUrl fuel w st = (Some w', st')).
  { intros fuel w st Hp Hc Hf. destruct fuel as [|fuel]; [lia|].
    cbn [region_loop]. destruct (hasMorePages w); [|now do 2 eexists].
    pose proof (visit_page_total w st) as H. unfold yields in H.
    destruct (visit_page env cfg fullUrl w st) as [r st1] eqn:E.
    cbn [fst snd] in H. destruct H as [c [w1 [-> H]]].
    rewrite (bind_eq _ _ _ _ _ E). cbn [fst snd].
    destruct c; try (now do 2 eexists).
    destruct (H eq_refl) as [_ [_ Hb]]. rewrite Hp in Hb.
    destruct (Hb Hq1). lia. }
  induction k as [|k IH]; intros fuel w st Hp Hf.
  - destruct fuel as [|fuel]; [lia|].
    cbn [region_loop]. destruct (hasMorePages w); [|now do 2 eexists].
    pose proof (visit_page_total w st) as H. unfold yields in H.
    destruct (visit_page env cfg fullUrl w st) as [r st1] eqn:E.
    cbn [fst snd] in H. destruct H as [c [w1 [-> H]]].
    rewrite (bind_eq _ _ _ _ _ E). cbn [fst snd].
    destruct c; try (now do 2 eexists).
    destruct (H eq_refl) as [Hp1 [_ Hb]].
    rewrite Nat.add_0_r in Hp. rewrite Hp in Hb. destruct (Hb Hq) as [Hc1 _].
    apply Hlast; lia.
  - destruct fuel as [|fuel]; [lia|].
    cbn [region_loop]. destruct (hasMorePages w); [|now do 2 eexists].
    pose proof (visit_page_total w st) as H. unfold yields in H.
    destruct (visit_page env cfg fullUrl w st) as [r st1] eqn:E.
    cbn [fst snd] in H. destruct H as [c [w1 [-> H]]].
    rewrite (bind_eq _ _ _ _ _ E). cbn [fst snd].
    destruct c; try (now do 2 eexists).
    destruct (H eq_refl) as [Hp1 _]. apply IH; lia.
Qed.
End Region.
End Combined.

(** C10: [scrapeRegionEvents] of [CombinedScraper] returns its links without
    duplicates, whatever the pages and both fetch paths yielded; and it does
    return as soon as two consecutive pages yield nothing. *)
Theorem scrapeRegionEvents_unique (env : Env) (cfg : CombinedScraper.Config)
  (regionUrl stateName : string) :
  (forall fuel st links st',
      CombinedScraper.scrapeRegionEvents env cfg fuel regionUrl stateName st
      = (Some links, st') ->
      NoDup links) /\
  (forall q fuel st,
      1 <= q -> q + 1 <= fuel ->
      barren env (pageUrl (region_url cfg regionUrl) q) ->
      barren env (pageUrl (region_url cfg regionUrl) (q + 1)) ->
      exists links st',
        CombinedScraper.scrapeRegionEvents env cfg fuel regionUrl stateName st
        = (Some links, st') /\
        NoDup links).
Proof.
  split.
  - intros fuel st links st'. unfold CombinedScraper.scrapeRegionEvents, bind.
    destruct (CombinedScraper.region_loop _ _ _ _ _ _) as [[w|] st1];
      [|discriminate].
    unfold ret. intros [= <- _]. apply NoDup_of_array.
  - intros q fuel st Hq Hfuel Hb Hb1.
    unfold CombinedScraper.scrapeRegionEvents. fold (region_url cfg regionUrl).
    destruct (region_loop_ends env cfg (region_url cfg regionUrl) q Hb Hb1 (q - 1) fuel
                {| CombinedScraper.currentPage := 1;
                   CombinedScraper.hasMorePages := true;
                   CombinedScraper.allEventLinks := [];
                   CombinedScraper.consecutiveEmptyPages := 0 |} st)
      as [w [st' E]]; [cbn [CombinedScraper.currentPage]; lia | lia |].
    rewrite (bind_eq _ _ _ _ _ E). unfold ret.
    do 2 eexists. split; [reflexivity | apply NoDup_of_array].
Qed.

Lemma scrapeRegionEvents_unique_witness :
  exists links st',
    CombinedScraper.scrapeRegionEvents Sample2.iowa_once Sample2.config 3
      Sample2.iowa "Iowa" Sample.st0
    = (Some links, st') /\
    NoDup links.
Proof.
  apply (proj2 (scrapeRegionEvents_unique Sample2.iowa_once Sample2.config
                  Sample2.iowa "Iowa") 2 3 Sample.st0);
    [lia | lia | intro t; split; reflexivity | intro t; split; reflexivity].
Defined.


Section Pagination.
Import CombinedScraper.
Variables (env : Env) (cfg : Config) (fullUrl : string).



End Pagination.



(** ** Footprints of the scraper's functions *)

Lemma grows_refl (st : St) : grows st st.
Proof. repeat split; auto. Qed.

Lemma grows_trans (a b c : St) : grows a b -> grows b c -> grows a c.
Proof. intros [A1 [A2 A3]] [B1 [B2 B3]]. repeat split; auto. Qed.

Lemma grows_await (env : Env) (st : St) : grows st (await_st env st).
Proof.
  repeat split; cbn [await_st self trackedEventLinks completedStates isRunning
                     set_isRunning]; auto.
  intros ->. reflexivity.
Qed.

Lemma grows_trace (e : event) (st : St) : grows st (with_trace e st).
Proof. exact (grows_refl st). Qed.

Lemma grows_csv (r : EventRecord) (st : St) : grows st (with_csv r st).
Proof. exact (grows_refl st). Qed.

Lemma grows_save (env : Env) (st : St) : grows st (save_st env st).
Proof.
  repeat split; rewrite self_save;
    cbn [trackedEventLinks completedStates isRunning set_isRunning]; auto.
  intros ->. reflexivity.
Qed.

Lemma fades_batch : fades batch_event.
Proof.
  intros st st' e [H _] He. destruct e as [[] u| | | | | | | |[]]; cbn in *; auto.
  destruct (JsSet.has (trackedEventLinks (self st)) u) eqn:E; [|reflexivity].
  rewrite (H _ E) in He. discriminate.
Qed.

Lemma batch_worker (st : St) (e : event) : batch_event st e -> worker_event st e.
Proof. destruct e as [[] u| | | | | | | |[]]; cbn; auto. Qed.

Lemma worker_run (st : St) (e : event) : worker_event st e -> run_event st e.
Proof. destruct e as [[] u| | | | | | | |[]]; cbn; auto. Qed.

Lemma fades_worker : fades worker_event.
Proof.
  intros st st' e G He.
  destruct e as [[] u| | | | | | | |[]]; cbn in *; auto.
  exact (fades_batch st st' (Fetch Detail u) G He).
Qed.

Lemma fades_run : fades run_event.
Proof.
  intros st st' e G He.
  destruct e as [[] u| | | | | | | |[]]; cbn in *; auto.
  exact (fades_batch st st' (Fetch Detail u) G He).
Qed.

Section Emits.
Variable q : St -> event -> Prop.
Hypothesis q_fades : fades q.

Lemma emits_weaken {A} (q' : St -> event -> Prop) (m : M A) (st : St) :
  (forall e, q' st e -> q st e) -> emits q' m st -> emits q m st.
Proof.
  intros H [G [d [E F]]]. split; [exact G|]. exists d. split; [exact E|].
  eapply Forall_impl; [|exact F]. exact H.
Qed.

Lemma emits_now {A} (m : M A) (st : St) (r : option A) (st' : St) (d : list event) :
  m st = (r, st') -> grows st st' -> trace st' = trace st ++ d -> Forall (q st) d ->
  emits q m st.
Proof. intros E G T F. unfold emits. rewrite E. split; [exact G|]. now exists d. Qed.

Lemma emits_ret {A} (a : A) (st : St) : emits q (ret a) st.
Proof.
  apply (emits_now _ _ (Some a) st []); auto using grows_refl.
  now rewrite app_nil_r.
Qed.

Lemma emits_out_of_fuel {A} (st : St) : emits q (@out_of_fuel A) st.
Proof.
  apply (emits_now _ _ None st []); auto using grows_refl.
  now rewrite app_nil_r.
Qed.

Lemma emits_bind {A B} (m : M A) (k : A -> M B) (st : St) :
  emits q m st ->
  (forall a st1, m st = (Some a, st1) -> emits q (k a) st1) ->
  emits q (bind m k) st.
Proof.
  intros [G [d [E F]]] Hk. unfold emits, bind in *.
  destruct (m st) as [[a|] st1]; cbn [snd] in *.
  - destruct (Hk a st1 eq_refl) as [G2 [d2 [E2 F2]]].
    split; [eapply grows_trans; eassumption|].
    exists (d ++ d2). rewrite E2, E, app_assoc. split; [reflexivity|].
    apply Forall_app. split; [exact F|].
    eapply Forall_impl; [|exact F2]. intros e. apply q_fades. exact G.
  - split; [exact G|]. now exists d.
Qed.

Lemma emits_this {B} (k : Scraper -> M B) (st : St) :
  emits q (k (self st)) st -> emits q (bind this k) st.
Proof. intro H. unfold emits in *. now rewrite run_this. Qed.

Lemma emits_emit (e : event) (st : St) : q st e -> emits q (emit e) st.
Proof.
  intro H. apply (emits_now _ _ (Some tt) (with_trace e st) [e]);
    auto using grows_trace.
Qed.

Lemma emits_update (f : Scraper -> Scraper) (st : St) :
  grows st (with_self f st) -> emits q (update_this f) st.
Proof.
  intro G. apply (emits_now _ _ (Some tt) (with_self f st) []); auto.
  cbn [trace with_self]. now rewrite app_nil_r.
Qed.

Section WithStop.
Variable env : Env.
Hypothesis q_stop : forall st, q st (Progress StopRequested).

Lemma Forall_stop (st : St) (c : bool) :
  Forall (q st) (if c then [Progress StopRequested] else []).
Proof. destruct c; auto. Qed.

Lemma emits_await (st : St) : emits q (await env) st.
Proof.
  eapply emits_now; [apply await_eq | apply grows_await | reflexivity |].
  apply Forall_stop.
Qed.

Lemma emits_sleep (ms : N) (st : St) : q st (Sleep ms) -> emits q (sleep env ms) st.
Proof.
  intro H. unfold sleep. apply emits_bind; [now apply emits_emit|].
  intros _ st1 _. apply emits_await.
Qed.

Lemma emits_http_get (o : origin) (url : string) (st : St) :
  q st (Fetch o url) -> emits q (http_get env o url) st.
Proof.
  intro H.
  apply (emits_now _ _ (Some (axios_get env (tick st) url))
           (await_st env (with_trace (Fetch o url) st))
           (Fetch o url
              :: if stop_called env (tick st) then [Progress StopRequested] else [])).
  - unfold http_get, bind, emit, ret. now rewrite await_eq.
  - eapply grows_trans; [apply grows_trace | apply grows_await].
  - cbn [trace await_st with_trace tick]. now rewrite <- app_assoc.
  - constructor; [exact H | apply Forall_stop].
Qed.

Lemma writeRecords_eq (r : EventRecord) (st : St) :
  writeRecords env r st
  = match csv_write_error env (tick st) with
    | Some message =>
        (Some (Some message), await_st env (with_trace (CsvWrite r false) st))
    | None =>
        (Some None, await_st env (with_trace (CsvWrite r true) (with_csv r st)))
    end.
Proof.
  unfold writeRecords, bind, emit, ret.
  destruct (csv_write_error env (tick st)); now rewrite await_eq.
Qed.

Lemma emits_writeRecords (r : EventRecord) (st : St) :
  (forall ok, q st (CsvWrite r ok)) -> emits q (writeRecords env r) st.
Proof.
  intro H. pose proof (writeRecords_eq r st) as E.
  destruct (csv_write_error env (tick st)).
  - apply (emits_now _ _ _ _
             (CsvWrite r false
                :: if stop_called env (tick st) then [Progress StopRequested] else [])
             E).
    + eapply grows_trans; [apply grows_trace | apply grows_await].
    + cbn [trace await_st with_trace tick]. now rewrite <- app_assoc.
    + constructor; [apply H | apply Forall_stop].
  - apply (emits_now _ _ _ _
             (CsvWrite r true
                :: if stop_called env (tick st) then [Progress StopRequested] else [])
             E).
    + apply (grows_trans _ (with_csv r st)); [apply grows_csv|].
      eapply grows_trans; [apply grows_trace | apply grows_await].
    + cbn [trace await_st with_trace with_csv tick]. now rewrite <- app_assoc.
    + constructor; [apply H | apply Forall_stop].
Qed.

Lemma emits_saveProgress (st : St) :
  (forall ok, q st (SaveProgress ok)) -> emits q (saveProgress env) st.
Proof.
  intro H. destruct (trace_save env st) as [ok T].
  eapply emits_now; [apply saveProgress_eq | apply grows_save | exact T |].
  constructor; [apply H | apply Forall_stop].
Qed.
End WithStop.
End Emits.

Lemma sleep_eq (env : Env) (ms : N) (st : St) :
  sleep env ms st = (Some tt, await_st env (with_trace (Sleep ms) st)).
Proof. unfold sleep, bind, emit. now rewrite await_eq. Qed.

Lemma grows_track (st : St) (link : string) :
  grows st (with_self (set_trackedEventLinks
                         (JsSet.add (trackedEventLinks (self st)) link)) st).
Proof.
  repeat split; cbn [self with_self trackedEventLinks completedStates isRunning
                     set_trackedEventLinks]; auto.
  intros l H. now apply has_add_mono.
Qed.

Lemma grows_complete (st : St) (stateId : string) :
  grows st (with_self (set_completedStates
                         (JsSet.add (completedStates (self st)) stateId)) st).
Proof.
  repeat split; cbn [self with_self trackedEventLinks completedStates isRunning
                     set_completedStates]; auto.
  intros l H. now apply has_add_mono.
Qed.

Section BatchFootprint.
Variable env : Env.

Lemma emits_request (link : string) (retries : nat) (st : St) :
  emits batch_event (request env link retries) st.
Proof.
  unfold request. apply emits_this.
  destruct (JsSet.has (trackedEventLinks (self st)) link) eqn:Hnew;
    [apply emits_ret|].
  apply (emits_bind _ fades_batch).
  - destruct (0 <? retries); [|apply emits_ret].
    apply (emits_sleep _ fades_batch env (fun _ => I)). exact I.
  - intros [] st1 E1.
    assert (Hnew1 : JsSet.has (trackedEventLinks (self st1)) link = false).
    { destruct (0 <? retries); [rewrite sleep_eq in E1|];
        injection E1 as E1; subst st1; exact Hnew. }
    apply (emits_bind _ fades_batch).
    + apply (emits_http_get _ env (fun _ => I)). exact Hnew1.
    + intros r st2 _. apply emits_ret.
Qed.

Lemma emits_respond (link stateName : string) (fuel : nat) :
  forall retries r st, emits batch_event (respond env fuel link stateName retries r) st.
Proof.
  induction fuel as [|fuel IH]; intros retries r st;
    (destruct r as [body|status message]; cbn [respond];
     [ apply emits_this;
       apply (emits_bind _ fades_batch); [apply emits_update, grows_track|];
       intros _ st1 _;
       apply (emits_bind _ fades_batch); [apply emits_emit; exact I|];
       intros _ st2 _;
       apply (emits_bind _ fades_batch);
       [apply (emits_writeRecords _ env (fun _ => I)); intro ok; exact I|];
       intros [message|] st3 _;
       [|apply (emits_bind _ fades_batch); [apply emits_emit; exact I|];
         intros _ st4 _; apply emits_ret]
     | ]);
    (apply (emits_bind _ fades_batch); [apply emits_emit; exact I|];
     intros _ st5 _;
     destruct (maxRetries <=? retries + 1); [apply emits_ret|];
     destruct (retries + 1 <? maxRetries); [|apply emits_ret]).
  1, 2: apply emits_out_of_fuel.
  1, 2: apply (emits_bind _ fades_batch); [apply emits_request|];
    intros [r'|] st6 _; [apply IH | apply emits_ret].
Qed.

Lemma emits_scrapeEventDetails (link stateName : string) (st : St) :
  emits batch_event (scrapeEventDetails env link stateName) st.
Proof.
  unfold scrapeEventDetails. destruct (0 <? maxRetries); [|apply emits_ret].
  apply (emits_bind _ fades_batch); [apply emits_request|].
  intros [r|] st1 _; [apply emits_respond | apply emits_ret].
Qed.

Lemma emits_launch (chunk : list string) :
  forall st, emits batch_event (launch env chunk) st.
Proof.
  induction chunk as [|link chunk IH]; intro st; cbn [launch]; [apply emits_ret|].
  apply (emits_bind _ fades_batch).
  - destruct (0 <? maxRetries); [apply emits_request | apply emits_ret].
  - intros q st1 _. apply (emits_bind _ fades_batch); [apply IH|].
    intros tasks st2 _. apply emits_ret.
Qed.

Lemma emits_settle (stateName : string) (tasks : list (string * option HttpResult)) :
  forall st, emits batch_event (settle env stateName tasks) st.
Proof.
  induction tasks as [|[link q] tasks IH]; intro st; cbn [settle]; [apply emits_ret|].
  apply (emits_bind _ fades_batch).
  - destruct q; [apply emits_respond | apply emits_ret].
  - intros v st1 _. apply (emits_bind _ fades_batch); [apply IH|].
    intros values st2 _. apply emits_ret.
Qed.

Lemma emits_allSettled (chunk : list string) (stateName : string) (st : St) :
  emits batch_event (allSettled env chunk stateName) st.
Proof.
  unfold allSettled. apply (emits_bind _ fades_batch); [apply emits_launch|].
  intros tasks st1 _. apply emits_settle.
Qed.
End BatchFootprint.

Section WorkerFootprint.
Variable env : Env.
Variables (fullUrl stateId name : string).

Lemma emits_scrape_chunks (chunks : list (list string)) :
  forall st, emits worker_event (scrape_chunks env name chunks) st.
Proof.
  induction chunks as [|chunk chunks IH]; intro st; cbn [scrape_chunks];
    [apply emits_ret|].
  apply emits_this. destruct (negb (isRunning (self st))).
  - apply (emits_bind _ fades_worker); [apply emits_emit; exact I|].
    intros _ st1 _. apply emits_ret.
  - apply (emits_bind _ fades_worker).
    + eapply emits_weaken; [|apply emits_allSettled]. apply batch_worker.
    + intros results st1 _. apply emits_this.
      apply (emits_bind _ fades_worker);
        [apply emits_update; exact (grows_refl _)|].
      intros _ st2 _. apply emits_this.
      apply (emits_bind _ fades_worker); [apply emits_emit; exact I|].
      intros _ st3 _.
      apply (emits_bind _ fades_worker);
        [apply (emits_saveProgress _ env (fun _ => I)); intro; exact I|].
      intros _ st4 _. apply IH.
Qed.

Lemma emits_page_response (w : Walk) (r : HttpResult) (st : St) :
  emits worker_event (page_response env stateId name w r) st.
Proof.
  unfold page_response. destruct r as [body|status message].
  - apply emits_this.
    destruct (filter _ (listing_links body)) as [|l ls] eqn:F; [apply emits_ret|].
    destruct (chunks_of _ _) as [chunks|]; [|apply emits_out_of_fuel].
    apply (emits_bind _ fades_worker); [apply emits_scrape_chunks|].
    intros c st1 _.
    assert (Hrest : forall st1,
               emits worker_event
                 (s <- this;;
                  update_this (set_counters (currentState s) (totalStates s)
                                 (processedEvents s)
                                 (totalEventsFound s + List.length (l :: ls)));;
                  (fun st =>
                     let old := sp_get (stateProgress (self st)) stateId in
                     update_this
                       (set_stateProgress
                          (sp_set (stateProgress (self st)) stateId
                             {| lastPage := currentPage w;
                                totalPages := currentPage w;
                                lastProcessed := now env (tick st);
                                eventsFound :=
                                  match old with
                                  | Some e => eventsFound e
                                  | None => 0
                                  end + List.length (l :: ls) |})) st);;
                  saveProgress env;;
                  sleep env 1000%N;;
                  ret (Next, {| currentPage := currentPage w + 1;
                                hasMorePages := hasMorePages w;
                                scrapedEventLinks := scrapedEventLinks w ++ l :: ls;
                                retries := retries w; success := true |})) st1).
    { clear. intro st1. apply emits_this.
      apply (emits_bind _ fades_worker);
        [apply emits_update; exact (grows_refl _)|].
      intros _ st2 _.
      apply (emits_bind _ fades_worker).
      - unfold emits. cbn beta zeta.
        match goal with
        | |- grows ?st (snd (update_this ?f ?st)) /\ _ =>
            exact (emits_update worker_event f st (grows_refl _))
        end.
      - intros _ st3 _.
        apply (emits_bind _ fades_worker);
          [apply (emits_saveProgress _ env (fun _ => I)); intro; exact I|].
        intros _ st4 _.
        apply (emits_bind _ fades_worker);
          [apply (emits_sleep _ fades_worker env (fun _ => I)); exact I|].
        intros _ st5 _. apply emits_ret. }
    destruct c; [apply Hrest | apply Hrest | apply emits_ret].
  - apply (emits_bind _ fades_worker); [apply emits_emit; exact I|].
    intros _ st1 _. destruct (is_404 status); [apply emits_ret|].
    cbv zeta. destruct (maxRetries <=? retries w + 1); apply emits_ret.
Qed.

Lemma emits_try_page (w : Walk) (st : St) :
  emits worker_event (try_page env fullUrl stateId name w) st.
Proof.
  unfold try_page.
  apply (emits_bind _ fades_worker); [apply emits_emit; exact I|].
  intros _ st1 _.
  apply (emits_bind _ fades_worker).
  - destruct (0 <? retries w); [|apply emits_ret].
    apply (emits_bind _ fades_worker);
      [apply (emits_sleep _ fades_worker env (fun _ => I)); exact I|].
    intros _ st2 _. apply emits_emit. exact I.
  - intros _ st2 _.
    apply (emits_bind _ fades_worker);
      [apply (emits_http_get _ env (fun _ => I)); exact I|].
    intros r st3 _. apply emits_page_response.
Qed.

Lemma emits_retry_loop (fuel : nat) :
  forall w st, emits worker_event (retry_loop env fullUrl stateId name fuel w) st.
Proof.
  induction fuel as [|fuel IH]; intros w st; cbn [retry_loop];
    (destruct ((retries w <? maxRetries) && negb (success w)); [|apply emits_ret]).
  - apply emits_out_of_fuel.
  - apply (emits_bind _ fades_worker); [apply emits_try_page|].
    intros [c w1] st1 _. cbn [fst snd]. destruct c; (apply IH || apply emits_ret).
Qed.

Lemma emits_page_loop (fuel : nat) :
  forall w st, emits worker_event (page_loop env fullUrl stateId name fuel w) st.
Proof.
  induction fuel as [|fuel IH]; intros w st; cbn [page_loop];
    (destruct (hasMorePages w); [|apply emits_ret]).
  - apply emits_out_of_fuel.
  - apply emits_this. destruct (negb (isRunning (self st))).
    + apply (emits_bind _ fades_worker); [apply emits_emit; exact I|].
      intros _ st1 _. apply emits_ret.
    + apply (emits_bind _ fades_worker); [apply emits_retry_loop|].
      intros [c w1] st1 _. cbn [fst snd].
      destruct c;
        (destruct (negb (success w1) && (maxRetries <=? retries w1));
         apply emits_ret || apply IH).
Qed.
End WorkerFootprint.

Lemma emits_scrapeStateWorker (env : Env) (fuel : nat) (stateLink stateName : string)
  (st : St) :
  emits worker_event (scrapeStateWorker env fuel stateLink stateName) st.
Proof.
  unfold scrapeStateWorker. apply emits_this.
  destruct (negb (isRunning (self st))).
  { apply (emits_bind _ fades_worker); [apply emits_emit; exact I|].
    intros _ st1 _. apply emits_ret. }
  cbv zeta. destruct (JsSet.has (completedStates (self st)) (stateIdOf stateName)).
  { apply (emits_bind _ fades_worker); [apply emits_emit; exact I|].
    intros _ st1 _. apply emits_ret. }
  apply (emits_bind _ fades_worker).
  { destruct (sp_get (stateProgress (self st)) (stateIdOf stateName)) as [e|];
      [|apply emits_ret].
    destruct (0 <? lastPage e); [|apply emits_ret].
    apply (emits_bind _ fades_worker); [apply emits_emit; exact I|].
    intros _ st1 _. apply emits_ret. }
  intros page st1 _.
  apply (emits_bind _ fades_worker); [apply emits_page_loop|].
  intros [c w] st2 _. cbn [fst snd].
  assert (Hmark : forall st2,
             emits worker_event
               (s <- this;;
                update_this (set_completedStates
                               (JsSet.add (completedStates s) (stateIdOf stateName)));;
                emit (MarkCompleted (stateIdOf stateName));;
                onProgress
                  (StateCompleted
                     (str_or stateName
                        (str_or (getStateFromUrl env stateLink) "Unknown State"))
                     (currentPage w - 1) (List.length (scrapedEventLinks w)));;
                saveProgress env;;
                ret (scrapedEventLinks w)) st2).
  { clear. intro st2. apply emits_this.
    apply (emits_bind _ fades_worker); [apply emits_update, grows_complete|].
    intros _ st3 _.
    apply (emits_bind _ fades_worker); [apply emits_emit; exact I|].
    intros _ st4 _.
    apply (emits_bind _ fades_worker); [apply emits_emit; exact I|].
    intros _ st5 _.
    apply (emits_bind _ fades_worker);
      [apply (emits_saveProgress _ env (fun _ => I)); intro; exact I|].
    intros _ st6 _. apply emits_ret. }
  destruct c; [apply Hmark | apply Hmark | apply emits_ret].
Qed.

Lemma emits_states_loop (env : Env) (fuel nStates : nat) (rest : list (string * string)) :
  forall i st, emits run_event (states_loop env fuel nStates i rest) st.
Proof.
  induction rest as [|[link name] rest IH]; intros i st; cbn [states_loop];
    [apply emits_ret|].
  unfold emits. cbn beta.
  destruct (negb (isRunning (self st)) || global_stop env (tick st)).
  - match goal with
    | |- grows ?st (snd (?m ?st)) /\ _ => change (emits run_event m st)
    end.
    apply (emits_bind _ fades_run); [apply emits_emit; exact I|].
    intros _ st1 _.
    apply (emits_bind _ fades_run);
      [apply (emits_saveProgress _ env (fun _ => I)); intro; exact I|].
    intros _ st2 _. apply emits_ret.
  - match goal with
    | |- grows ?st (snd (?m ?st)) /\ _ => change (emits run_event m st)
    end.
    apply emits_this.
    apply (emits_bind _ fades_run); [apply emits_update; exact (grows_refl _)|].
    intros _ st1 _. cbv zeta.
    destruct (JsSet.has (completedStates (self st)) _).
    + apply (emits_bind _ fades_run); [apply emits_emit; exact I|].
      intros _ st2 _. apply IH.
    + apply (emits_bind _ fades_run); [apply emits_emit; exact I|].
      intros _ st2 _.
      apply (emits_bind _ fades_run).
      * eapply emits_weaken; [|apply emits_scrapeStateWorker]. apply worker_run.
      * intros scraped st3 _.
        apply (emits_bind _ fades_run); [apply emits_emit; exact I|].
        intros _ st4 _.
        apply (emits_bind _ fades_run);
          [apply (emits_saveProgress _ env (fun _ => I)); intro; exact I|].
        intros _ st5 _. apply IH.
Qed.

(** ** Tracked links *)

Lemma in_detail_fetches (u : string) (d : list event) :
  In u (detail_fetches d) -> In (Fetch Detail u) d.
Proof.
  induction d as [|e d IH]; cbn [detail_fetches flat_map]; [intros []|].
  rewrite in_app_iff. intros [H|H]; [left | right; now apply IH].
  destruct e as [[] v| | | | | | | |]; cbn [In] in H; try contradiction.
  destruct H as [->|[]]. reflexivity.
Qed.

Lemma emits_no_detail_fetch {A} (m : M A) (st : St) (link : string) :
  emits run_event m st ->
  JsSet.has (trackedEventLinks (self st)) link = true ->
  JsSet.has (trackedEventLinks (self (snd (m st)))) link = true /\
  exists d,
    detail_fetches (trace (snd (m st))) = detail_fetches (trace st) ++ d /\
    ~ In link d.
Proof.
  intros [[G _] [d [T F]]] Hin. split; [now apply G|].
  exists (detail_fetches d). rewrite T, detail_fetches_app. split; [reflexivity|].
  intro H. apply in_detail_fetches in H.
  rewrite Forall_forall in F. specialize (F _ H). cbn in F. congruence.
Qed.

(** C6: a link that is in [trackedEventLinks] is never fetched.  Called on
    it, [scrapeEventDetails] returns [null] at once and changes nothing; the
    links of a listing page are filtered against the set before they are
    scheduled; and no run of the worker or of the loop over the states
    requests the detail page of a link that was tracked when it started,
    however far the run gets. *)
Theorem tracked_links_are_never_fetched (env : Env) (link : string) :
  (forall stateName st,
      JsSet.has (trackedEventLinks (self st)) link = true ->
      scrapeEventDetails env link stateName st = (Some None, st)) /\
  (forall s body,
      JsSet.has (trackedEventLinks s) link = true ->
      ~ In link (new_links s body)) /\
  (forall fuel stateLink stateName st,
      JsSet.has (trackedEventLinks (self st)) link = true ->
      let st' := snd (scrapeStateWorker env fuel stateLink stateName st) in
      JsSet.has (trackedEventLinks (self st')) link = true /\
      exists d,
        detail_fetches (trace st') = detail_fetches (trace st) ++ d /\ ~ In link d) /\
  (forall fuel nStates i rest st,
      JsSet.has (trackedEventLinks (self st)) link = true ->
      let st' := snd (states_loop env fuel nStates i rest st) in
      JsSet.has (trackedEventLinks (self st')) link = true /\
      exists d,
        detail_fetches (trace st') = detail_fetches (trace st) ++ d /\ ~ In link d).
Proof.
  split; [|split; [|split]].
  - intros stateName st H. unfold scrapeEventDetails, request.
    cbn [maxRetries Nat.ltb Nat.leb]. rewrite run_bind, run_this, H. reflexivity.
  - intros s body H Hin. unfold new_links in Hin. apply filter_In in Hin.
    destruct Hin as [_ Hin]. rewrite H in Hin. discriminate.
  - intros fuel stateLink stateName st H. apply emits_no_detail_fetch; [|exact H].
    eapply emits_weaken; [|apply emits_scrapeStateWorker]. apply worker_run.
  - intros fuel nStates i rest st H. apply emits_no_detail_fetch; [|exact H].
    apply emits_states_loop.
Qed.

Lemma tracked_links_are_never_fetched_witness :
  let st' := snd (states_loop Sample2.iowa_once 5 1 0 [(Sample2.iowa, "Iowa")]
                    Sample2.st_tracked) in
  JsSet.has (trackedEventLinks (self st')) "/event/a/" = true /\
  exists d,
    detail_fetches (trace st') = detail_fetches (trace Sample2.st_tracked) ++ d /\
    ~ In "/event/a/" d.
Proof.
  apply (proj2 (proj2 (proj2 (tracked_links_are_never_fetched Sample2.iowa_once
                                "/event/a/")))
           5 1 0 [(Sample2.iowa, "Iowa")] Sample2.st_tracked).
  reflexivity.
Defined.

(** On the sample site, whose first page lists [/event/a/] twice and
    [/event/b/] once, only [/event/b/] is fetched. *)
Example tracked_sample :
  detail_fetches
    (trace (snd (states_loop Sample2.iowa_once 5 1 0 [(Sample2.iowa, "Iowa")]
                   Sample2.st_tracked)))
  = ["/event/b/"].
Proof. vm_compute. reflexivity. Qed.

(** ** Resuming *)

Lemma visits_app (a b : list event) : visits (a ++ b) = visits a ++ visits b.
Proof. apply flat_map_app. Qed.

Lemma visits_worker (st : St) (d : list event) :
  Forall (worker_event st) d -> visits d = [].
Proof.
  induction 1 as [|e d He _ IH]; [reflexivity|].
  cbn [visits flat_map]. fold (visits d). rewrite IH.
  destruct e as [[] u| | | | | | | |[]]; cbn in He; try contradiction; reflexivity.
Qed.

Lemma visits_stop (c : bool) :
  visits (if c then [Progress StopRequested] else []) = [].
Proof. now destruct c. Qed.

Lemma emits_worker_finish (env : Env) (stateLink stateName : string) (r : ctl * Walk)
  (st : St) :
  emits worker_event (worker_finish env stateLink stateName r) st.
Proof.
  unfold worker_finish.
  assert (Hmark : emits worker_event
            (s <- this;;
             update_this (set_completedStates
                            (JsSet.add (completedStates s) (stateIdOf stateName)));;
             emit (MarkCompleted (stateIdOf stateName));;
             onProgress (StateCompleted (display_name env stateLink stateName)
                           (currentPage (snd r) - 1)
                           (List.length (scrapedEventLinks (snd r))));;
             saveProgress env;;
             ret (scrapedEventLinks (snd r))) st).
  { apply emits_this.
    apply (emits_bind _ fades_worker); [apply emits_update, grows_complete|].
    intros _ st3 _.
    apply (emits_bind _ fades_worker); [apply emits_emit; exact I|].
    intros _ st4 _.
    apply (emits_bind _ fades_worker); [apply emits_emit; exact I|].
    intros _ st5 _.
    apply (emits_bind _ fades_worker);
      [apply (emits_saveProgress _ env (fun _ => I)); intro; exact I|].
    intros _ st6 _. apply emits_ret. }
  destruct (fst r); [exact Hmark | exact Hmark | apply emits_ret].
Qed.

Lemma retry_loop_S (env : Env) (fullUrl stateId name : string) (fuel : nat) (w : Walk) :
  (retries w <? maxRetries) && negb (success w) = true ->
  retry_loop env fullUrl stateId name (S fuel) w
  = (r <- try_page env fullUrl stateId name w;;
     match fst r with
     | Next => retry_loop env fullUrl stateId name fuel (snd r)
     | _ => ret r
     end).
Proof. intro H. cbn [retry_loop]. now rewrite H. Qed.

(** The first page a page loop asks for is the page it stands at. *)
Lemma page_loop_first_request (env : Env) (fullUrl stateId name : string) (fuel : nat)
  (w : Walk) (st : St) :
  isRunning (self st) = true ->
  hasMorePages w = true ->
  exists more,
    page_requests (trace (snd (page_loop env fullUrl stateId name (S fuel) w st)))
    = page_requests (trace st) ++ pageUrl fullUrl (currentPage w) :: more.
Proof.
  intros Hrun Hmore. cbn [page_loop]. rewrite Hmore. rewrite run_this, Hrun.
  cbn [negb]. change maxRetries with (S 2). rewrite retry_loop_S by reflexivity.
  unfold try_page. cbn [retries Nat.ltb Nat.leb]. run.
  match goal with
  | |- context [snd (bind ?m ?k ?s)] =>
      assert (E : emits worker_event (bind m k) s)
  end.
  { apply (emits_bind _ fades_worker); [apply emits_page_response|].
    intros [c w1] st1 _. cbn [fst snd].
    apply (emits_bind _ fades_worker).
    - destruct c; (apply emits_retry_loop || apply emits_ret).
    - intros [c2 w2] st2 _. cbn [fst snd].
      destruct c2; try apply emits_ret;
        match goal with
        | |- context [if ?b then _ else _] => destruct b
        end; (apply emits_ret || apply emits_page_loop). }
  destruct E as [_ [d [T _]]]. rewrite T.
  exists (page_requests d). observe. cbn [currentPage]. reflexivity.
Qed.

Lemma loadProgress_eq (env : Env) (st : St) (text : string) (pj : ProgressJson) :
  disk st (progressPath (self st)) = Some text ->
  JSON_parse env text = Some pj ->
  loadProgress env st
  = (Some true,
     with_trace (LoadProgress true)
       (with_self (restore pj) (await_st env (await_st env st)))).
Proof.
  intros Hd Hp. unfold loadProgress. rewrite Hd, Hp. run. reflexivity.
Qed.

(** The loop over the states turns to them in the order of the list. *)
Lemma states_loop_order (env : Env) (fuel nStates : nat) (rest : list (string * string)) :
  forall i st,
    exists d k,
      trace (snd (states_loop env fuel nStates i rest st)) = trace st ++ d /\
      visits d = firstn k (schedule env i rest) /\
      (fst (states_loop env fuel nStates i rest st) = Some false ->
       k = List.length rest).
Proof.
  induction rest as [|[link name] rest IH]; intros i st; cbn [states_loop].
  - exists [], 0. cbn. now rewrite app_nil_r.
  - cbn beta. destruct (negb (isRunning (self st)) || global_stop env (tick st)).
    + run. destruct (trace_save env (with_trace (Progress (Stopped i nStates)) st))
        as [ok T].
      unfold ret. cbn [fst snd]. rewrite T. cbn [trace with_trace].
      rewrite <- app_assoc. eexists. exists 0. split; [reflexivity|].
      split; [|discriminate].
      cbn [app visits flat_map firstn].
      fold (visits (if stop_called env (tick st) then [Progress StopRequested] else [])).
      cbn [tick with_trace]. now rewrite visits_stop.
    + run. fold (state_name env i link name).
      destruct (JsSet.has (completedStates (self st))
                  (stateIdOf (state_name env i link name))).
      * run.
        match goal with
        | |- context [states_loop _ _ _ _ _ ?s] =>
            destruct (IH (i + 1) s) as [d [k [T [V L]]]]
        end.
        rewrite T. cbn [trace with_trace with_self]. rewrite <- app_assoc.
        eexists. exists (S k). split; [reflexivity|].
        cbn [app visits flat_map schedule firstn]. fold (visits d).
        rewrite Nat.add_1_r in V. rewrite V. split; [reflexivity|].
        intro H. cbn [List.length]. f_equal. now apply L.
      * run.
        match goal with
        | |- context [bind (scrapeStateWorker ?e ?f ?l ?n) ?k ?s] =>
            destruct (emits_scrapeStateWorker e f l n s) as [_ [dw [Tw Fw]]];
            destruct (scrapeStateWorker e f l n s) as [[scraped|] st2] eqn:E
        end.
        -- rewrite (bind_eq _ _ _ _ _ E). run.
           match goal with
           | |- context [states_loop _ _ _ _ _ ?s] =>
               destruct (IH (i + 1) s) as [d [k [T [V L]]]]
           end.
           rewrite T.
           match goal with
           | |- context [trace (save_st env ?s)] =>
               destruct (trace_save env s) as [ok Ts]
           end.
           rewrite Ts. cbn [trace with_trace]. cbn [snd] in Tw. rewrite Tw.
           cbn [trace with_trace with_self]. rewrite <- !app_assoc.
           eexists. exists (S k). split; [reflexivity|].
           cbn [app].
           rewrite Nat.add_1_r in V. pose proof (visits_worker _ _ Fw) as Vw.
           match goal with
           | |- context [if ?c then [Progress StopRequested] else []] =>
               pose proof (visits_stop c) as Vs
           end.
           unfold visits in V, Vw, Vs |- *.
           cbn [flat_map app]. rewrite !flat_map_app. cbn [flat_map app].
           rewrite !flat_map_app, Vw, Vs, V.
           cbn [app schedule firstn]. split; [reflexivity|].
           intro H. cbn [List.length]. f_equal. now apply L.
        -- rewrite (bind_none _ _ _ _ E). cbn [fst snd].
           cbn [snd] in Tw. rewrite Tw. cbn [trace with_trace with_self].
           rewrite <- app_assoc. eexists. exists 1.
           split; [reflexivity|]. split; [|discriminate].
           cbn [app visits flat_map schedule firstn]. fold (visits dw).
           now rewrite (visits_worker _ _ Fw).
Qed.

(** A run that loads the checkpoint resumes from it.  [scrapeAllEvents],
    called with an index above 0 or with [true], loads the progress file and
    runs its loop over the states from the resumed index on, with the
    completed states and the page cursors of the checkpoint, without any
    request before the loop; the loop turns to the states in the order of
    the list; a state whose id is in [completedStates] is passed over
    without a request; and for a state with a recorded [lastPage] the worker
    starts its page loop at [lastPage + 1], which is the first page it asks
    for. *)
Theorem resume_from_checkpoint (env : Env) (fuel : nat) :
  (forall stateLinks arg st text pj,
      arg <> ResumeIndex 0 ->
      disk st (progressPath (self st)) = Some text ->
      JSON_parse env text = Some pj ->
      exists st1,
        scrapeAllEvents env fuel stateLinks arg st
        = bind (states_loop env fuel (List.length stateLinks) (resumed_index arg pj)
                  (skipn (resumed_index arg pj) stateLinks))
            (run_finish env (List.length stateLinks)) st1 /\
        completedStates (self st1)
        = completedStates (restore pj (self st)) /\
        stateProgress (self st1) = stateProgress (restore pj (self st)) /\
        trackedEventLinks (self st1) = trackedEventLinks (restore pj (self st)) /\
        page_requests (trace st1) = page_requests (trace st) /\
        detail_fetches (trace st1) = detail_fetches (trace st)) /\
  (forall nStates i rest st,
      exists d k,
        trace (snd (states_loop env fuel nStates i rest st)) = trace st ++ d /\
        visits d = firstn k (schedule env i rest) /\
        (fst (states_loop env fuel nStates i rest st) = Some false ->
         k = List.length rest)) /\
  (forall nStates i link name rest st,
      isRunning (self st) = true ->
      global_stop env (tick st) = false ->
      JsSet.has (completedStates (self st)) (stateIdOf (state_name env i link name)) = true ->
      exists st1,
        states_loop env fuel nStates i ((link, name) :: rest) st
        = states_loop env fuel nStates (i + 1) rest st1 /\
        page_requests (trace st1) = page_requests (trace st) /\
        detail_fetches (trace st1) = detail_fetches (trace st) /\
        completedStates (self st1) = completedStates (self st) /\
        stateProgress (self st1) = stateProgress (self st)) /\
  (forall stateLink stateName st e,
      isRunning (self st) = true ->
      JsSet.has (completedStates (self st)) (stateIdOf stateName) = false ->
      sp_get (stateProgress (self st)) (stateIdOf stateName) = Some e ->
      0 < lastPage e ->
      (exists st0,
          scrapeStateWorker env (S fuel) stateLink stateName st
          = bind (page_loop env (full_url (self st) stateLink) (stateIdOf stateName)
                    (display_name env stateLink stateName) (S fuel)
                    (first_walk (lastPage e + 1)))
              (worker_finish env stateLink stateName) st0 /\
          page_requests (trace st0) = page_requests (trace st)) /\
      exists more,
        page_requests (trace (snd (scrapeStateWorker env (S fuel) stateLink stateName st)))
        = page_requests (trace st)
            ++ pageUrl (full_url (self st) stateLink) (lastPage e + 1) :: more).
Proof.
  split; [|split; [|split]].
  - intros stateLinks arg st text pj Harg Hdisk Hparse.
    unfold scrapeAllEvents. rewrite run_update.
    assert (Hload : loadProgress env (with_self (set_isRunning true) st)
                    = (Some true,
                       with_trace (LoadProgress true)
                         (with_self (restore pj)
                            (await_st env (await_st env
                               (with_self (set_isRunning true) st)))))).
    { apply (loadProgress_eq env _ text pj); [exact Hdisk | exact Hparse]. }
    destruct arg as [[|i]|]; [contradiction| |].
    + cbv iota. rewrite !run_bind, (bind_eq _ _ _ _ _ Hload). run.
      eexists. split; [reflexivity|]. observe. repeat split; reflexivity.
    + cbv iota. rewrite !run_bind, (bind_eq _ _ _ _ _ Hload). run.
      eexists. split; [reflexivity|]. observe. repeat split; reflexivity.
  - intros nStates i rest st. apply states_loop_order.
  - intros nStates i link name rest st Hrun Hglobal Hdone.
    cbn [states_loop]. rewrite Hrun, Hglobal. cbn [negb orb]. run.
    fold (state_name env i link name). rewrite Hdone. run.
    eexists. split; [reflexivity|]. observe. repeat split; reflexivity.
  - intros stateLink stateName st e Hrun Hnot Hget Hlast.
    destruct (worker_start env (S fuel) stateLink stateName st Hrun Hnot)
      as [st0 [Heq [Hself [Htick [Hcsv [Hdisk [Hreq [Hdet Hsl]]]]]]]].
    assert (Hpage : start_page (self st) (stateIdOf stateName) = lastPage e + 1).
    { unfold start_page. rewrite Hget. apply Nat.ltb_lt in Hlast. now rewrite Hlast. }
    rewrite Hpage in Heq. split; [now exists st0|].
    rewrite Heq.
    assert (Hrun0 : isRunning (self st0) = true) by now rewrite Hself.
    destruct (page_loop_first_request env (full_url (self st) stateLink)
                (stateIdOf stateName) (display_name env stateLink stateName) fuel
                (first_walk (lastPage e + 1)) st0 Hrun0 eq_refl) as [more Hmore].
    destruct (page_loop env (full_url (self st) stateLink) (stateIdOf stateName)
                (display_name env stateLink stateName) (S fuel)
                (first_walk (lastPage e + 1)) st0) as [[r|] st1] eqn:E.
    + rewrite (bind_eq _ _ _ _ _ E).
      destruct (emits_worker_finish env stateLink stateName r st1) as [_ [d [T _]]].
      rewrite T, page_requests_app. cbn [snd] in Hmore. rewrite Hmore, Hreq.
      cbn [first_walk currentPage]. rewrite <- app_assoc. cbn [app].
      eexists. reflexivity.
    + rewrite (bind_none _ _ _ _ E). cbn [snd] in Hmore |- *. rewrite Hmore, Hreq.
      cbn [first_walk currentPage]. eexists. reflexivity.
Qed.

Lemma resume_from_checkpoint_witness :
  exists more,
    page_requests
      (trace (snd (scrapeStateWorker Sample2.resumed 3 Sample2.iowa "Iowa"
                     Sample2.st_resumed)))
    = page_requests (trace Sample2.st_resumed)
        ++ pageUrl (full_url (self Sample2.st_resumed) Sample2.iowa) (2 + 1) :: more.
Proof.
  apply (proj2 (proj2 (proj2 (proj2 (resume_from_checkpoint Sample2.resumed 2)))
           Sample2.iowa "Iowa" Sample2.st_resumed
           {| lastPage := 2; totalPages := 2;
              lastProcessed := "2025-06-01T08:10:00.000Z"; eventsFound := 10 |}
           eq_refl eq_refl eq_refl (Nat.lt_0_succ 1))).
Defined.

(** A resumed run over Alabama (completed), Iowa (scraped up to page 2) and
    Ohio: the checkpoint says index 1, so Alabama is not even looked at; Iowa
    is asked for page 3 and Ohio for its first page. *)
Example resume_scenario :
  let res := scrapeAllEvents Sample2.resumed 3 Sample2.three_states ResumeStored
               Sample.st0 in
  fst res = Some tt /\
  visits (trace (snd res)) = [(1, "Iowa"); (2, "Ohio")] /\
  page_requests (trace (snd res))
  = [String.append Sample2.iowa_url "/page/3/"; Sample2.ohio_url] /\
  completedStates (self (snd res)) = ["alabama"; "iowa"; "ohio"].
Proof. vm_compute. repeat split. Qed.

(** C7 fails on the code.  The checkpoint says that Iowa, the first state,
    was scraped up to page 2.  The handler of ['start-scraping'] of
    [index.js], asked to resume, reads [currentState = 0] in it and calls
    [scrapeAllEvents(stateLinks, 0)], which does not load the checkpoint:
    Iowa restarts at page 1, whose events are all tracked, so that the
    worker takes the page for the last one and marks Iowa completed; page 3
    is never asked for and its event is never fetched.  Resumed with [true],
    as [console-scraper.js] does, the same scraper starts Iowa at page 3 and
    fetches the event. *)
Lemma resume_at_state_0_restarts_at_page_1 :
  let gui := Index.start_scraping GuiResume.env 5 GuiResume.path false [] true
               GuiResume.states GuiResume.st in
  let cli := scrapeAllEvents GuiResume.env 5 GuiResume.states ResumeStored GuiResume.st in
  fst gui = Some tt /\
  page_requests (trace (snd gui)) = [Sample2.iowa_url; Sample2.ohio_url] /\
  detail_fetches (trace (snd gui)) = [] /\
  stateProgress (self (snd gui)) = [] /\
  completedStates (self (snd gui)) = ["iowa"; "ohio"] /\
  fst cli = Some tt /\
  page_requests (trace (snd cli))
  = [String.append Sample2.iowa_url "/page/3/"; String.append Sample2.iowa_url "/page/4/";
     Sample2.ohio_url] /\
  detail_fetches (trace (snd cli)) = ["/event/e/"] /\
  option_map lastPage (sp_get (stateProgress (self (snd cli))) "iowa") = Some 3.
Proof. vm_compute. repeat split. Qed.

Lemma run_idle {B} (k : unit -> M B) (st : St) :
  bind Index.idle k st = k tt (with_tick (S (tick st)) st).
Proof. reflexivity. Qed.

Lemma run_loadPreviousProgress {B} (env : Env) (progressFilePath text : string)
  (tracked : JsSet.t) (progressData : ProgressJson)
  (k : option ProgressJson * JsSet.t -> M B) (st : St) :
  disk st progressFilePath = Some text ->
  JSON_parse env text = Some progressData ->
  bind (Index.loadPreviousProgress env progressFilePath tracked) k st
  = k (Some progressData,
       match pj_trackedEventLinks progressData with
       | Some l => JsSet.of_array l
       | None => tracked
       end)
      (with_tick (S (S (tick st))) st).
Proof.
  intros Hdisk Hparse. unfold Index.loadPreviousProgress, bind at 1.
  rewrite Hdisk, Hparse. rewrite run_idle, run_idle. reflexivity.
Qed.

(** The general form: whenever the checkpoint says [currentState = 0], the
    handler of ['start-scraping'], asked to resume, starts the run of
    [scrapeAllEvents] that does not resume, on a scraper that holds the
    tracked links of the checkpoint but none of its page cursors and
    completed states. *)
Lemma resume_at_state_0_drops_the_cursors (env : Env) (fuel : nat)
  (progressFilePath text : string) (tracked : JsSet.t) (progressData : ProgressJson)
  (link name : string) (stateLinks : list (string * string)) (st : St) :
  disk st progressFilePath = Some text ->
  JSON_parse env text = Some progressData ->
  or_zero (pj_currentState progressData) = 0 ->
  exists st1,
    Index.start_scraping env fuel progressFilePath false tracked true
      ((link, name) :: stateLinks) st
    = bind (scrapeAllEvents env fuel ((link, name) :: stateLinks) (ResumeIndex 0))
        (fun _ => Index.writeLogEntry) st1 /\
    stateProgress (self st1) = [] /\
    completedStates (self st1) = [] /\
    trackedEventLinks (self st1)
    = match pj_trackedEventLinks progressData with
      | Some l => JsSet.of_array l
      | None => tracked
      end /\
    disk st1 = disk st /\ trace st1 = trace st.
Proof.
  intros Hdisk Hparse Hzero.
  unfold Index.start_scraping, Index.writeLogEntry.
  rewrite !run_idle. cbv iota. rewrite run_bind, !run_idle.
  rewrite (run_loadPreviousProgress env progressFilePath text tracked progressData);
    [|exact Hdisk | exact Hparse].
  cbn [fst snd]. rewrite Hzero.
  destruct (pj_currentState progressData) as [n|];
    rewrite ?run_bind, ?run_idle, ?run_ret, ?run_update, ?run_idle;
    eexists; (split; [reflexivity|]); now repeat split.
Qed.

(** ** Stop requests at the poll points *)

Lemma fades_calm : fades calm_event.
Proof. intros st st' e _ H. exact H. Qed.

Lemma batch_calm (st : St) (e : event) : batch_event st e -> calm_event st e.
Proof.
  unfold calm_event.
  destruct e as [[] u| | | | | | | |[]]; cbn; intro H; reflexivity || contradiction.
Qed.






(** a chain of steps none of which reports a stop request *)
Ltac calmly env :=
  repeat first
    [ apply emits_ret
    | apply emits_out_of_fuel
    | apply emits_this
    | apply emits_emit; reflexivity
    | apply emits_update; exact (grows_refl _)
    | apply emits_update; apply grows_complete
    | apply (emits_saveProgress _ env (fun _ => eq_refl)); intro; reflexivity
    | apply (emits_sleep _ fades_calm env (fun _ => eq_refl)); reflexivity
    | apply (emits_http_get _ env (fun _ => eq_refl)); reflexivity
    | unfold emits; cbn beta zeta;
      match goal with
      | |- grows ?st (snd (update_this ?f ?st)) /\ _ =>
          exact (emits_update calm_event f st (grows_refl _))
      end
    | apply (emits_bind _ fades_calm); [|intros ? ? _] ].

Section Polls.
Variable env : Env.

Lemma polls_bind_calm {A B} (returned : B -> bool) (m : M A) (k : A -> M B) (st : St) :
  emits calm_event m st ->
  (forall a st1, m st = (Some a, st1) -> polls returned (k a) st1) ->
  polls returned (bind m k) st.
Proof.
  intros Hm Hk. destruct (m st) as [[a|] st1] eqn:E.
  - destruct (Hk a st1 eq_refl) as [Hc | [d0 [e [b [T [F [S [R [Rb Run]]]]]]]]].
    + left. apply (emits_bind _ fades_calm); [exact Hm|].
      intros a' st1' E'. rewrite E in E'. injection E' as <- <-. exact Hc.
    + right. destruct Hm as [_ [d [Td Fd]]]. rewrite E in Td. cbn [snd] in Td.
      exists (d ++ d0), e, b. rewrite (bind_eq _ _ _ _ _ E).
      split; [now rewrite T, Td, <- !app_assoc|].
      split; [apply Forall_app; split; [exact Fd | exact F]|].
      now repeat split.
  - left. apply (emits_bind _ fades_calm); [exact Hm|]. intros; congruence.
Qed.

Lemma polls_bind {A B} (ret1 : A -> bool) (returned : B -> bool) (m : M A)
  (k : A -> M B) (st : St) :
  polls ret1 m st ->
  (forall a st1, m st = (Some a, st1) ->
     if ret1 a then exists b, k a st1 = (Some b, st1) /\ returned b = true
     else polls returned (k a) st1) ->
  polls returned (bind m k) st.
Proof.
  intros [Hm | [d0 [e [a [T [F [S [R [Ra Run]]]]]]]]] Hk.
  - apply polls_bind_calm; [exact Hm|]. intros a st1 E. specialize (Hk a st1 E).
    destruct (ret1 a); [|exact Hk]. destruct Hk as [b [Eb _]]. left.
    eapply emits_now; [exact Eb | apply grows_refl | symmetry; apply app_nil_r|].
    constructor.
  - destruct (m st) as [[a'|] st1] eqn:E; cbn [fst snd] in *; [|discriminate].
    injection R as ->. specialize (Hk a st1 eq_refl). rewrite Ra in Hk.
    destruct Hk as [b [Eb Rb]]. right. exists d0, e, b.
    rewrite (bind_eq _ _ _ _ _ E), Eb. cbn [fst snd]. now repeat split.
Qed.

Lemma polls_this {B} (returned : B -> bool) (k : Scraper -> M B) (st : St) :
  polls returned (k (self st)) st -> polls returned (bind this k) st.
Proof. intro H. unfold polls, emits in *. now rewrite run_this. Qed.

Lemma polls_abort {A} (returned : A -> bool) (p : report) (a : A) (st : St) :
  isRunning (self st) = false -> stop_observed (Progress p) = true ->
  returned a = true ->
  polls returned (onProgress p;; ret a) st.
Proof.
  intros R S Ra. right. exists [], (Progress p), a.
  rewrite run_onProgress. unfold ret. cbn [fst snd trace self with_trace app].
  repeat split; auto.
Qed.

Section Worker.
Variables (fullUrl stateId name : string).

Lemma polls_scrape_chunks (chunks : list (list string)) :
  forall st, polls is_return (scrape_chunks env name chunks) st.
Proof.
  induction chunks as [|chunk chunks IH]; intro st; cbn [scrape_chunks];
    [left; apply emits_ret|].
  apply polls_this. destruct (negb (isRunning (self st))) eqn:R.
  - apply polls_abort; [now apply negb_true_iff in R | reflexivity | reflexivity].
  - apply polls_bind_calm.
    + eapply emits_weaken; [|apply emits_allSettled]. apply batch_calm.
    + intros results st1 _. apply polls_this.
      apply polls_bind_calm; [calmly env|]. intros _ st2 _. apply polls_this.
      apply polls_bind_calm; [calmly env|]. intros _ st3 _.
      apply polls_bind_calm; [calmly env|]. intros _ st4 _. apply IH.
Qed.

Lemma polls_page_response (w : Walk) (r : HttpResult) (st : St) :
  polls (fun r => is_return (fst r)) (page_response env stateId name w r) st.
Proof.
  unfold page_response. destruct r as [body|status message].
  - apply polls_this.
    destruct (filter _ (listing_links body)) as [|l ls] eqn:F;
      [left; apply emits_ret|].
    destruct (chunks_of _ _) as [chunks|]; [|left; apply emits_out_of_fuel].
    apply (polls_bind is_return); [apply polls_scrape_chunks|].
    intros c st1 _. destruct c; cbn [is_return].
    + left. calmly env.
    + left. calmly env.
    + eexists. split; reflexivity.
  - left. apply (emits_bind _ fades_calm); [calmly env|].
    intros _ st1 _. destruct (is_404 status); [apply emits_ret|].
    cbv zeta. destruct (maxRetries <=? retries w + 1); apply emits_ret.
Qed.

Lemma polls_try_page (w : Walk) (st : St) :
  polls (fun r => is_return (fst r)) (try_page env fullUrl stateId name w) st.
Proof.
  unfold try_page.
  apply polls_bind_calm; [calmly env|]. intros _ st1 _.
  apply polls_bind_calm; [destruct (0 <? retries w); calmly env|].
  intros _ st2 _.
  apply polls_bind_calm; [calmly env|].
  intros r st3 _. apply polls_page_response.
Qed.

Lemma polls_retry_loop (fuel : nat) :
  forall w st,
    polls (fun r => is_return (fst r)) (retry_loop env fullUrl stateId name fuel w) st.
Proof.
  induction fuel as [|fuel IH]; intros w st; cbn [retry_loop];
    (destruct ((retries w <? maxRetries) && negb (success w));
     [|left; apply emits_ret]).
  - left. apply emits_out_of_fuel.
  - apply (polls_bind (fun r => is_return (fst r))); [apply polls_try_page|].
    intros [c w1] st1 _. cbv beta. cbn [fst snd].
    destruct c; cbn [is_return].
    + apply IH.
    + left. apply emits_ret.
    + eexists. split; reflexivity.
Qed.

Lemma polls_page_loop (fuel : nat) :
  forall w st,
    polls (fun r => is_return (fst r)) (page_loop env fullUrl stateId name fuel w) st.
Proof.
  induction fuel as [|fuel IH]; intros w st; cbn [page_loop];
    (destruct (hasMorePages w); [|left; apply emits_ret]).
  - left. apply emits_out_of_fuel.
  - apply polls_this. destruct (negb (isRunning (self st))) eqn:R.
    + apply polls_abort; [now apply negb_true_iff in R | reflexivity | reflexivity].
    + apply (polls_bind (fun r => is_return (fst r))); [apply polls_retry_loop|].
      intros [c w1] st1 _. cbv beta. cbn [fst snd].
      destruct c; cbn [is_return].
      * destruct (negb (success w1) && (maxRetries <=? retries w1));
          [left; apply emits_ret | apply IH].
      * destruct (negb (success w1) && (maxRetries <=? retries w1));
          [left; apply emits_ret | apply IH].
      * eexists. split; reflexivity.
Qed.
End Worker.

Lemma polls_scrapeStateWorker (fuel : nat) (stateLink stateName : string) (st : St) :
  polls (fun _ => true) (scrapeStateWorker env fuel stateLink stateName) st.
Proof.
  unfold scrapeStateWorker. apply polls_this.
  destruct (negb (isRunning (self st))) eqn:R.
  { apply polls_abort; [now apply negb_true_iff in R | reflexivity | reflexivity]. }
  cbv zeta. destruct (JsSet.has (completedStates (self st)) (stateIdOf stateName)).
  { left. calmly env. }
  apply polls_bind_calm.
  { destruct (sp_get (stateProgress (self st)) (stateIdOf stateName)) as [e|];
      [|apply emits_ret].
    destruct (0 <? lastPage e); calmly env. }
  intros page st1 _.
  apply (polls_bind (fun r => is_return (fst r))); [apply polls_page_loop|].
  intros [c w] st2 _. cbv beta. cbn [fst snd].
  destruct c; cbn [is_return].
  - left. calmly env.
  - left. calmly env.
  - eexists. split; reflexivity.
Qed.
End Polls.

Section Halts.
Variable env : Env.













End Halts.






(** After the stop of [stop_during_a_page] the progress file holds the
    checkpoint of the scraper: Iowa at page 1, its two events tracked. *)
Example stop_leaves_the_checkpoint :
  let st' := snd (scrapeAllEvents StopSample.env 3 StopSample.states (ResumeIndex 0)
                    Sample.st0) in
  disk st' (progressPath (self st'))
  = Some (JSON.stringify (progressData (self st') "T10")) /\
  trackedEventLinks (self st') = ["/event/a/"; "/event/b/"] /\
  option_map lastPage (sp_get (stateProgress (self st')) "iowa") = Some 1.
Proof. vm_compute. repeat split. Qed.

(** The user calls [stop()] while the events of Iowa's first page are being
    fetched: the chunk in flight is finished, the page is recorded, and the
    request is observed before the next page; Ohio is not started. *)
Example stop_during_a_page :
  let res := scrapeAllEvents StopSample.env 3 StopSample.states (ResumeIndex 0)
               Sample.st0 in
  fst res = Some tt /\
  page_requests (trace (snd res)) = [Sample2.iowa_url] /\
  detail_fetches (trace (snd res)) = ["/event/a/"; "/event/b/"] /\
  visits (trace (snd res)) = [(0, "Iowa")] /\
  filter stop_observed (trace (snd res))
  = [Progress (StateAborted "Iowa"); Progress (Stopped 1 2)] /\
  completedStates (self (snd res)) = [] /\
  option_map lastPage (sp_get (stateProgress (self (snd res))) "iowa") = Some 1.
Proof. vm_compute. repeat split. Qed.

(** ** Chunks *)

Lemma chunks_from_nil (fuel size : nat) : chunks_from fuel size [] = Some [].
Proof. now destruct fuel. Qed.

Lemma chunks_from_spec (size : nat) :
  0 < size ->
  forall fuel l,
    List.length l <= fuel ->
    exists chunks,
      chunks_from fuel size l = Some chunks /\
      List.concat chunks = l /\
      Forall (fun c => 1 <= List.length c <= size) chunks /\
      Forall (fun c => List.length c = size) (removelast chunks).
Proof.
  intros Hs. induction fuel as [|fuel IH]; intros l Hl.
  - destruct l; [|cbn in Hl; lia]. exists []. now repeat split.
  - destruct l as [|x l]; [exists []; now repeat split|].
    cbn [chunks_from].
    destruct (IH (skipn size (x :: l))) as [r [E [C [F L]]]].
    { rewrite length_skipn. cbn [List.length] in *. lia. }
    rewrite E. exists (firstn size (x :: l) :: r).
    split; [reflexivity|]. split; [cbn [List.concat]; rewrite C; apply firstn_skipn|].
    split.
    + constructor; [|exact F]. rewrite length_firstn. cbn [List.length]. lia.
    + destruct r as [|c r]; [constructor|].
      change (removelast (firstn size (x :: l) :: c :: r))
        with (firstn size (x :: l) :: removelast (c :: r)).
      constructor; [|exact L].
      rewrite length_firstn. apply Nat.min_l.
      assert (H : List.length (skipn size (x :: l)) <> 0).
      { rewrite <- C. cbn [List.concat]. rewrite length_app.
        inversion F as [|? ? Hc ?]; subst. lia. }
      rewrite length_skipn in H. lia.
Qed.

(** X1: a scraper built by the constructor always splits the links of a
    page into chunks: [maxConcurrency] is never [0] ([options.maxConcurrency
    || 5]), so the loop that builds the chunks ends; the chunks, put end to
    end, are the list; none is empty, none is longer than [maxConcurrency],
    and all but the last have exactly that length. *)
Theorem chunks_partition_the_links (options : Options) (l : list string) :
  let size := maxConcurrency (constructor options) in
  1 <= size /\
  exists chunks,
    chunks_of size l = Some chunks /\
    List.concat chunks = l /\
    Forall (fun c => 1 <= List.length c <= size) chunks /\
    Forall (fun c => List.length c = size) (removelast chunks).
Proof.
  cbv zeta.
  assert (H : 1 <= maxConcurrency (constructor options)).
  { unfold constructor. cbn [maxConcurrency].
    destruct (opt_maxConcurrency options) as [[|n]|]; lia. }
  split; [exact H|]. unfold chunks_of.
  destruct (maxConcurrency (constructor options) =? 0) eqn:E.
  - apply Nat.eqb_eq in E. lia.
  - apply chunks_from_spec; [lia | reflexivity].
Qed.

(** ** State ids *)

Lemma lower_ascii_idem (c : ascii) : lower_ascii (lower_ascii c) = lower_ascii c.
Proof. destruct c as [[] [] [] [] [] [] [] []]; reflexivity. Qed.

Lemma lower_ascii_space (c : ascii) : is_space (lower_ascii c) = is_space c.
Proof. destruct c as [[] [] [] [] [] [] [] []]; reflexivity. Qed.

Lemma lower_ascii_not_upper (c : ascii) :
  ((65 <=? nat_of_ascii (lower_ascii c)) && (nat_of_ascii (lower_ascii c) <=? 90)) = false.
Proof. destruct c as [[] [] [] [] [] [] [] []]; reflexivity. Qed.

Lemma toLowerCase_idem (s : string) : toLowerCase (toLowerCase s) = toLowerCase s.
Proof.
  induction s as [|c s IH]; [reflexivity|].
  cbn [toLowerCase]. now rewrite lower_ascii_idem, IH.
Qed.

Lemma toLowerCase_replace_spaces (s : string) :
  forall b, toLowerCase (replace_spaces b s) = replace_spaces b (toLowerCase s).
Proof.
  induction s as [|c s IH]; intro b; [reflexivity|].
  cbn [toLowerCase replace_spaces]. rewrite lower_ascii_space.
  destruct (is_space c).
  - destruct b; cbn [toLowerCase]; now rewrite IH.
  - cbn [toLowerCase]. now rewrite IH.
Qed.

Lemma replace_spaces_idem (s : string) :
  forall b, replace_spaces false (replace_spaces b s) = replace_spaces b s.
Proof.
  induction s as [|c s IH]; intro b; [reflexivity|].
  cbn [replace_spaces]. destruct (is_space c) eqn:E.
  - destruct b; [apply IH|]. cbn [replace_spaces].
    change (is_space "_") with false. cbv iota. now rewrite IH.
  - cbn [replace_spaces]. now rewrite E, IH.
Qed.

Lemma replace_spaces_no_space (s : string) :
  forall b, Forall (fun c => is_space c = false)
              (list_ascii_of_string (replace_spaces b s)).
Proof.
  induction s as [|c s IH]; intro b; [constructor|].
  cbn [replace_spaces]. destruct (is_space c) eqn:E.
  - destruct b; [apply IH|]. cbn [list_ascii_of_string].
    constructor; [reflexivity | apply IH].
  - cbn [list_ascii_of_string]. constructor; [exact E | apply IH].
Qed.

Lemma replace_spaces_keeps (P : ascii -> Prop) (s : string) :
  P "_"%char ->
  Forall P (list_ascii_of_string s) ->
  forall b, Forall P (list_ascii_of_string (replace_spaces b s)).
Proof.
  intros Hu. induction s as [|c s IH]; intros H b; [constructor|].
  cbn [list_ascii_of_string] in H. inversion H as [|? ? Hc Hs]; subst.
  cbn [replace_spaces]. destruct (is_space c).
  - destruct b; [now apply IH|]. cbn [list_ascii_of_string].
    constructor; [exact Hu | now apply IH].
  - cbn [list_ascii_of_string]. constructor; [exact Hc | now apply IH].
Qed.

Lemma toLowerCase_no_upper (s : string) :
  Forall (fun c => ((65 <=? nat_of_ascii c) && (nat_of_ascii c <=? 90)) = false)
    (list_ascii_of_string (toLowerCase s)).
Proof.
  induction s as [|c s IH]; [constructor|].
  cbn [toLowerCase list_ascii_of_string].
  constructor; [apply lower_ascii_not_upper | exact IH].
Qed.

(** X2: the id of a state, which keys [completedStates] and
    [stateProgress], is a normal form of its name: it holds no white space
    and no upper-case letter, the id of an id is the id itself, and names
    that differ in the case of their letters only have the same id. *)
Theorem stateIdOf_normal_form (stateName : string) :
  Forall (fun c => is_space c = false) (list_ascii_of_string (stateIdOf stateName)) /\
  Forall (fun c => ((65 <=? nat_of_ascii c) && (nat_of_ascii c <=? 90)) = false)
    (list_ascii_of_string (stateIdOf stateName)) /\
  stateIdOf (stateIdOf stateName) = stateIdOf stateName /\
  stateIdOf (toLowerCase stateName) = stateIdOf stateName.
Proof.
  unfold stateIdOf. split; [apply replace_spaces_no_space|].
  split; [apply replace_spaces_keeps; [reflexivity | apply toLowerCase_no_upper]|].
  split.
  - now rewrite toLowerCase_replace_spaces, toLowerCase_idem, replace_spaces_idem.
  - now rewrite toLowerCase_idem.
Qed.

(** ** CombinedScraper.scrapeWithAxios *)

Lemma scrapeWithAxios_from_bounded (env : Env) (cfg : CombinedScraper.Config)
  (url : string) (fuel : nat) :
  forall attempt st,
    CombinedScraper.retries cfg <= attempt + fuel ->
    exists resp st' k,
      CombinedScraper.scrapeWithAxios_from env cfg fuel attempt url st = (Some resp, st') /\
      page_requests (trace st') = page_requests (trace st) ++ repeat url k /\
      k <= CombinedScraper.retries cfg - attempt /\
      (URL_origin env url = None -> k = 0) /\
      (URL_origin env url <> None -> attempt < CombinedScraper.retries cfg -> 1 <= k) /\
      (CombinedScraper.success resp = false -> CombinedScraper.eventLinks resp = []) /\
      (URL_origin env url = None \/ (forall t, is_error (axios_get env t url) = true) ->
       resp = {| CombinedScraper.eventLinks := []; CombinedScraper.success := false |} /\
       sleeps (trace st')
       = sleeps (trace st)
           ++ map (fun a => (CombinedScraper.delay cfg * N.of_nat a)%N)
                (seq (attempt + 1) (CombinedScraper.retries cfg - attempt - 1))) /\
      (URL_origin env url <> None ->
       (forall t, is_error (axios_get env t url) = true) ->
       k = CombinedScraper.retries cfg - attempt).
Proof.
  assert (Hdone : forall attempt st,
             CombinedScraper.retries cfg <= attempt ->
             exists resp st' k,
               (Some {| CombinedScraper.eventLinks := []; CombinedScraper.success := false |},
                st) = (Some resp, st') /\
               page_requests (trace st') = page_requests (trace st) ++ repeat url k /\
               k <= CombinedScraper.retries cfg - attempt /\
               (URL_origin env url = None -> k = 0) /\
               (URL_origin env url <> None ->
                attempt < CombinedScraper.retries cfg -> 1 <= k) /\
               (CombinedScraper.success resp = false ->
                CombinedScraper.eventLinks resp = []) /\
               (URL_origin env url = None \/
                (forall t, is_error (axios_get env t url) = true) ->
                resp = {| CombinedScraper.eventLinks := [];
                          CombinedScraper.success := false |} /\
                sleeps (trace st')
                = sleeps (trace st)
                    ++ map (fun a => (CombinedScraper.delay cfg * N.of_nat a)%N)
                         (seq (attempt + 1) (CombinedScraper.retries cfg - attempt - 1))) /\
               (URL_origin env url <> None ->
                (forall t, is_error (axios_get env t url) = true) ->
                k = CombinedScraper.retries cfg - attempt)).
  { intros attempt st Hge. eexists; exists st, 0. split; [reflexivity|].
    cbn [repeat]. rewrite app_nil_r. split; [reflexivity|].
    split; [lia|]. split; [reflexivity|]. split; [lia|]. split; [reflexivity|].
    split; [|lia]. intros _. split; [reflexivity|].
    replace (CombinedScraper.retries cfg - attempt - 1) with 0 by lia.
    cbn [seq map]. now rewrite app_nil_r. }
  induction fuel as [|fuel IH]; intros attempt st Hle;
    cbn [CombinedScraper.scrapeWithAxios_from];
    destruct (attempt <? CombinedScraper.retries cfg) eqn:E.
  - apply Nat.ltb_lt in E. lia.
  - apply Nat.ltb_ge in E. unfold ret. now apply Hdone.
  - apply Nat.ltb_lt in E. cbv zeta.
    destruct (URL_origin env url) as [origin|] eqn:U.
    + run. destruct (axios_get env (tick st) url) as [body|status message] eqn:R.
      * eexists _, _, 1. split; [reflexivity|]. split; [now observe|].
        split; [lia|]. split; [discriminate|]. split; [lia|]. split; [discriminate|].
        split; [intros [Hu|Herr]; [discriminate Hu|] | intros _ Herr];
          specialize (Herr (tick st)); rewrite R in Herr; discriminate Herr.
      * destruct (attempt =? CombinedScraper.retries cfg - 1) eqn:L.
        -- apply Nat.eqb_eq in L. eexists _, _, 1. split; [reflexivity|].
           split; [now observe|]. split; [lia|]. split; [discriminate|].
           split; [lia|]. split; [reflexivity|]. split; [|lia].
           intros _. split; [reflexivity|].
           replace (CombinedScraper.retries cfg - attempt - 1) with 0 by lia.
           cbn [seq map]. now observe.
        -- apply Nat.eqb_neq in L. run.
           match goal with
           | |- context [CombinedScraper.scrapeWithAxios_from _ _ _ _ _ ?s] =>
               destruct (IH (attempt + 1) s ltac:(lia))
                 as [resp [st' [k [Eq [P [Hk [H0 [H1 [Hs [Hall Hexact]]]]]]]]]]
           end.
           exists resp, st', (S k). split; [exact Eq|].
           split; [rewrite P; now observe|]. split; [lia|].
           split; [discriminate|]. split; [lia|]. split; [exact Hs|]. split.
           ++ intro Hf. destruct (Hall Hf) as [-> Sl]. split; [reflexivity|].
              rewrite Sl. observe.
              replace (CombinedScraper.retries cfg - attempt - 1)
                with (S (CombinedScraper.retries cfg - (attempt + 1) - 1)) by lia.
              cbn [seq map]. now replace (S (attempt + 1)) with (attempt + 1 + 1) by lia.
           ++ intros Hu Herr. rewrite (Hexact Hu Herr). lia.
    + destruct (attempt =? CombinedScraper.retries cfg - 1) eqn:L.
      * apply Nat.eqb_eq in L. eexists; exists st, 0. split; [reflexivity|].
        cbn [repeat]. rewrite app_nil_r. split; [reflexivity|].
        split; [lia|]. split; [reflexivity|]. split; [intro Hu; contradiction|].
        split; [reflexivity|]. split; [|intro Hu; contradiction].
        intros _. split; [reflexivity|].
        replace (CombinedScraper.retries cfg - attempt - 1) with 0 by lia.
        cbn [seq map]. now rewrite app_nil_r.
      * apply Nat.eqb_neq in L. run.
        match goal with
        | |- context [CombinedScraper.scrapeWithAxios_from _ _ _ _ _ ?s] =>
            destruct (IH (attempt + 1) s ltac:(lia))
              as [resp [st' [k [Eq [P [Hk [H0 [H1 [Hs [Hall Hexact]]]]]]]]]]
        end.
        exists resp, st', k. split; [exact Eq|].
        split; [rewrite P; now observe|]. split; [lia|].
        split; [exact H0|]. split; [intro Hu; contradiction|]. split; [exact Hs|].
        split; [|intro Hu; contradiction].
        intro Hf. destruct (Hall Hf) as [-> Sl]. split; [reflexivity|].
        rewrite Sl. observe.
        replace (CombinedScraper.retries cfg - attempt - 1)
          with (S (CombinedScraper.retries cfg - (attempt + 1) - 1)) by lia.
        cbn [seq map]. now replace (S (attempt + 1)) with (attempt + 1 + 1) by lia.
  - apply Nat.ltb_ge in E. unfold ret. now apply Hdone.
Qed.

(** X3: [scrapeWithAxios] of [CombinedScraper] never throws; it asks for the
    page at most [retries] times and for no other page, and a response that
    is not a success carries no link.  For a URL that [new URL] accepts it
    asks once at least if [retries] is not 0, and exactly [retries] times
    when every request fails; for a URL on which [new URL] throws it makes
    no request at all.  In both cases of failure it sleeps [delay],
    [2 * delay], ... between the attempts, not after the last one, and
    answers [{ eventLinks: [], success: false }]. *)
Theorem scrapeWithAxios_bounded (env : Env) (cfg : CombinedScraper.Config)
  (url : string) (st : St) :
  exists resp st' k,
    CombinedScraper.scrapeWithAxios env cfg url st = (Some resp, st') /\
    page_requests (trace st') = page_requests (trace st) ++ repeat url k /\
    k <= CombinedScraper.retries cfg /\
    (CombinedScraper.success resp = false -> CombinedScraper.eventLinks resp = []) /\
    (URL_origin env url <> None -> 0 < CombinedScraper.retries cfg -> 1 <= k) /\
    (URL_origin env url <> None ->
     (forall t, is_error (axios_get env t url) = true) ->
     k = CombinedScraper.retries cfg) /\
    (URL_origin env url = None -> k = 0) /\
    (URL_origin env url = None \/ (forall t, is_error (axios_get env t url) = true) ->
     resp = {| CombinedScraper.eventLinks := []; CombinedScraper.success := false |} /\
     sleeps (trace st')
     = sleeps (trace st)
         ++ map (fun a => (CombinedScraper.delay cfg * N.of_nat a)%N)
              (seq 1 (CombinedScraper.retries cfg - 1))).
Proof.
  destruct (scrapeWithAxios_from_bounded env cfg url (CombinedScraper.retries cfg) 0 st
              ltac:(lia))
    as [resp [st' [k [Eq [P [Hk [H0 [H1 [Hs [Hall Hexact]]]]]]]]]].
  exists resp, st', k. split; [exact Eq|]. split; [exact P|].
  split; [lia|]. split; [exact Hs|]. split; [exact H1|].
  split; [intros Hu Herr; rewrite (Hexact Hu Herr); lia|]. split; [exact H0|].
  intro Hf. destruct (Hall Hf) as [-> Sl]. split; [reflexivity|].
  rewrite Sl. now rewrite Nat.sub_0_r.
Qed.

Lemma scrapeWithAxios_bounded_witness :
  (exists st',
      CombinedScraper.scrapeWithAxios Sample.always_500 Sample2.config Sample2.iowa_url
        Sample.st0
      = (Some {| CombinedScraper.eventLinks := []; CombinedScraper.success := false |}, st') /\
      page_requests (trace st') = repeat Sample2.iowa_url 3 /\
      sleeps (trace st') = [1000; 2000]%N) /\
  (exists st',
      CombinedScraper.scrapeWithAxios Sample2.no_origin Sample2.config "iowa-car-events"
        Sample.st0
      = (Some {| CombinedScraper.eventLinks := []; CombinedScraper.success := false |}, st') /\
      page_requests (trace st') = [] /\
      sleeps (trace st') = [1000; 2000]%N).
Proof.
  split.
  - destruct (scrapeWithAxios_bounded Sample.always_500 Sample2.config Sample2.iowa_url
                Sample.st0) as [resp [st' [k [Eq [P [_ [_ [_ [Hexact [_ Hall]]]]]]]]]].
    destruct (Hall (or_intror (fun _ => eq_refl))) as [-> Sl].
    rewrite (Hexact ltac:(discriminate) (fun _ => eq_refl)) in P.
    exists st'. split; [exact Eq|]. split; [exact P | exact Sl].
  - destruct (scrapeWithAxios_bounded Sample2.no_origin Sample2.config "iowa-car-events"
                Sample.st0) as [resp [st' [k [Eq [P [_ [_ [_ [_ [H0 Hall]]]]]]]]]].
    destruct (Hall (or_introl eq_refl)) as [-> Sl].
    rewrite (H0 eq_refl) in P.
    exists st'. split; [exact Eq|]. split; [exact P | exact Sl].
Defined.

(** ** scrapeEventDetails, whatever the answers *)

Ltac outcome_done :=
  unfold ret;
  split; [reflexivity|]; split; [now observe|]; split; [lia|];
  split; [now observe|]; split; [cbn [List.length]; lia|];
  split; [now observe|]; split; [reflexivity|].

Lemma respond_outcome (env : Env) (link name : string) (fuel : nat) :
  forall retries r st,
    maxRetries <= retries + 1 + fuel ->
    exists res st' k w,
      respond env fuel link name retries r st = (Some res, st') /\
      detail_fetches (trace st') = detail_fetches (trace st) ++ repeat link k /\
      k <= maxRetries - (retries + 1) /\
      csv_writes (trace st') = csv_writes (trace st) ++ w /\
      List.length w <= 1 /\
      page_requests (trace st') = page_requests (trace st) /\
      processedEvents (self st') = processedEvents (self st) /\
      match res with
      | Some record =>
          csv st' = csv st ++ [record] /\
          originalLink record = link /\ state record = name /\
          JsSet.has (trackedEventLinks (self st')) link = true /\
          w = [(link, true)]
      | None => csv st' = csv st
      end.
Proof.
  induction fuel as [|fuel IH]; intros retries r st Hfuel.
  - destruct r as [body|status message]; cbn [respond]; repeat run1.
    + rewrite run_writeRecords. cbn [tick with_trace with_self].
      destruct (csv_write_error env (tick st)) as [m|]; repeat run1.
      * destruct (Nat.leb_spec maxRetries (retries + 1)) as [Hle|Hlt];
          [|unfold maxRetries in *; lia].
        eexists None, _, 0, [(link, false)]. outcome_done. reflexivity.
      * eexists (Some _), _, 0, [(link, true)]. outcome_done.
        reduce_state. split; [reflexivity|]. split; [reflexivity|].
        split; [reflexivity|]. split; [apply has_add_same | reflexivity].
    + destruct (Nat.leb_spec maxRetries (retries + 1)) as [Hle|Hlt];
        [|unfold maxRetries in *; lia].
      eexists None, _, 0, []. outcome_done. reflexivity.
  - destruct r as [body|status message]; cbn [respond]; repeat run1.
    + rewrite run_writeRecords. cbn [tick with_trace with_self].
      destruct (csv_write_error env (tick st)) as [m|]; repeat run1.
      * destruct (Nat.leb_spec maxRetries (retries + 1)) as [Hle|Hlt].
        { eexists None, _, 0, [(link, false)]. outcome_done. reflexivity. }
        apply Nat.ltb_lt in Hlt. rewrite Hlt.
        unfold request. repeat run1. cbn [self with_trace await_st with_self].
        cbn [trackedEventLinks set_trackedEventLinks set_isRunning].
        rewrite has_add_same. repeat run1.
        eexists None, _, 0, [(link, false)]. outcome_done. reflexivity.
      * eexists (Some _), _, 0, [(link, true)]. outcome_done.
        reduce_state. split; [reflexivity|]. split; [reflexivity|].
        split; [reflexivity|]. split; [apply has_add_same | reflexivity].
    + destruct (Nat.leb_spec maxRetries (retries + 1)) as [Hle|Hlt].
      { eexists None, _, 0, []. outcome_done. reflexivity. }
      pose proof Hlt as Hlt'. apply Nat.ltb_lt in Hlt'. rewrite Hlt'.
      unfold request. repeat run1. cbn [self with_trace].
      destruct (JsSet.has (trackedEventLinks (self st)) link); repeat run1.
      { eexists None, _, 0, []. outcome_done. reflexivity. }
      replace (0 <? retries + 1) with true by (symmetry; apply Nat.ltb_lt; lia).
      repeat run1.
      match goal with
      | |- context [respond env fuel link name (retries + 1) ?r' ?s] =>
          destruct (IH (retries + 1) r' s ltac:(unfold maxRetries in *; lia))
            as [res [st' [k [w [E [D [Hk [W [Lw [P [Pe C]]]]]]]]]]]
      end.
      exists res, st', (S k), w. split; [exact E|].
      split; [rewrite D; now observe|].
      split; [unfold maxRetries in *; lia|].
      split; [rewrite W; now observe|]. split; [exact Lw|].
      split; [rewrite P; now observe|].
      split; [rewrite Pe; reflexivity|].
      destruct res as [record|]; [|rewrite C; now observe].
      destruct C as [C1 C2]. split; [rewrite C1; now observe | exact C2].
Qed.

(** X4: whatever the site and the CSV writer answer, a call of
    [scrapeEventDetails] returns; it asks for the page of its link at most
    three times and for no other page, and it tries to write at most one
    row, once: a failed write is not retried, since the link is tracked by
    then.  It returns a record exactly when it has appended that record to
    the CSV; the record carries the link and the state name it was called
    with, and the link, untracked before, is tracked after.  When it returns
    [null] the CSV is unchanged. *)
Theorem scrapeEventDetails_outcome (env : Env) (link name : string) (st : St) :
  exists res st' k w,
    scrapeEventDetails env link name st = (Some res, st') /\
    detail_fetches (trace st') = detail_fetches (trace st) ++ repeat link k /\
    k <= 3 /\
    page_requests (trace st') = page_requests (trace st) /\
    csv_writes (trace st') = csv_writes (trace st) ++ w /\
    List.length w <= 1 /\
    match res with
    | Some record =>
        csv st' = csv st ++ [record] /\
        originalLink record = link /\ state record = name /\
        JsSet.has (trackedEventLinks (self st)) link = false /\
        JsSet.has (trackedEventLinks (self st')) link = true /\
        w = [(link, true)]
    | None => csv st' = csv st
    end.
Proof.
  unfold scrapeEventDetails. change (0 <? maxRetries) with true. cbv iota.
  unfold request. repeat run1.
  destruct (JsSet.has (trackedEventLinks (self st)) link) eqn:T; cbv iota;
    repeat run1.
  - exists None, st, 0, []. cbn [repeat]. rewrite !app_nil_r. unfold ret.
    repeat split; cbn [List.length]; lia.
  - change (0 <? 0) with false. cbv iota. repeat run1.
    match goal with
    | |- context [respond env maxRetries link name 0 ?r ?s] =>
        destruct (respond_outcome env link name maxRetries 0 r s
                    ltac:(unfold maxRetries; lia))
          as [res [st' [k [w [E [D [Hk [W [Lw [P [_ C]]]]]]]]]]]
    end.
    exists res, st', (S k), w. split; [exact E|].
    split; [rewrite D; now observe|].
    split; [unfold maxRetries in Hk; lia|].
    split; [rewrite P; now observe|].
    split; [rewrite W; now observe|]. split; [exact Lw|].
    destruct res as [record|]; [|rewrite C; now observe].
    destruct C as [C1 [C2 [C3 [C4 C5]]]].
    split; [rewrite C1; now observe|]. now repeat split.
Qed.

(** ** The counter of processed events *)

Lemma counted_refl (st : St) : counted st st.
Proof. reflexivity. Qed.

Lemma counted_trans (a b c : St) : counted a b -> counted b c -> counted a c.
Proof. unfold counted. lia. Qed.

Lemma counted_frame (st st' : St) :
  processedEvents (self st') = processedEvents (self st) -> csv st' = csv st ->
  counted st st'.
Proof. unfold counted. now intros -> ->. Qed.

Lemma counts_bind {A B} (m : M A) (k : A -> M B) (st : St) :
  counts m st ->
  (forall a st1, m st = (Some a, st1) -> counts (k a) st1) ->
  counts (bind m k) st.
Proof.
  unfold counts, bind. intros Hm Hk. destruct (m st) as [[a|] st1]; [|exact Hm].
  eapply counted_trans; [exact Hm | exact (Hk a st1 eq_refl)].
Qed.

Lemma counts_ret {A} (a : A) (st : St) : counts (ret a) st.
Proof. apply counted_refl. Qed.

Lemma counts_out_of_fuel {A} (st : St) : counts (@out_of_fuel A) st.
Proof. apply counted_refl. Qed.

Lemma counts_this {B} (k : Scraper -> M B) (st : St) :
  counts (k (self st)) st -> counts (bind this k) st.
Proof. unfold counts. now rewrite run_this. Qed.

Lemma counts_emit (e : event) (st : St) : counts (emit e) st.
Proof. now apply counted_frame. Qed.

Lemma counts_update (f : Scraper -> Scraper) (st : St) :
  processedEvents (f (self st)) = processedEvents (self st) ->
  counts (update_this f) st.
Proof. intro H. apply counted_frame; [exact H | reflexivity]. Qed.

Section Counts.
Variable env : Env.

Lemma counted_await (st : St) : counted st (await_st env st).
Proof. now apply counted_frame. Qed.

Lemma counts_sleep (ms : N) (st : St) : counts (sleep env ms) st.
Proof. unfold counts. rewrite sleep_eq. now apply counted_frame. Qed.

Lemma counts_http_get (o : origin) (url : string) (st : St) :
  counts (http_get env o url) st.
Proof.
  unfold counts, http_get, bind, emit, ret. rewrite await_eq.
  now apply counted_frame.
Qed.

Lemma counts_saveProgress (st : St) : counts (saveProgress env) st.
Proof.
  unfold counts. rewrite saveProgress_eq. cbn [snd].
  apply counted_frame; [now rewrite self_save | apply csv_save].
Qed.

Lemma launch_frame (chunk : list string) :
  forall st,
    exists tasks st',
      launch env chunk st = (Some tasks, st') /\
      csv st' = csv st /\
      processedEvents (self st') = processedEvents (self st).
Proof.
  induction chunk as [|link chunk IH]; intro st; cbn [launch].
  - exists [], st. now repeat split.
  - change (0 <? maxRetries) with true. cbv iota. unfold request. repeat run1.
    destruct (JsSet.has (trackedEventLinks (self st)) link); cbv iota; repeat run1.
    + destruct (IH st) as [tasks [st' [E [C P]]]].
      rewrite (bind_eq _ _ _ _ _ E). eexists _, st'. now repeat split.
    + change (0 <? 0) with false. cbv iota. repeat run1.
      match goal with
      | |- context [bind (launch env chunk) _ ?s] =>
          destruct (IH s) as [tasks [st' [E [C P]]]]
      end.
      rewrite (bind_eq _ _ _ _ _ E). eexists _, st'.
      split; [reflexivity|]. split; [rewrite C | rewrite P]; reflexivity.
Qed.

Lemma settle_counts (name : string) (tasks : list (string * option HttpResult)) :
  forall st,
    exists values st',
      settle env name tasks st = (Some values, st') /\
      List.length (csv st') = List.length (csv st) + successfulScrapes values /\
      processedEvents (self st') = processedEvents (self st).
Proof.
  induction tasks as [|[link q] tasks IH]; intro st; cbn [settle].
  - exists [], st. unfold successfulScrapes. cbn. split; [reflexivity|]. split; [lia|reflexivity].
  - destruct q as [r|].
    + destruct (respond_outcome env link name maxRetries 0 r st
                  ltac:(unfold maxRetries; lia))
        as [res [st1 [k [w [E [_ [_ [_ [_ [_ [Pe C]]]]]]]]]]].
      cbv iota. rewrite (bind_eq _ _ _ _ _ E).
      destruct (IH st1) as [values [st' [E' [L P]]]].
      rewrite (bind_eq _ _ _ _ _ E'). exists (res :: values), st'.
      split; [reflexivity|]. rewrite L, P, Pe. split; [|reflexivity].
      unfold successfulScrapes. cbn [filter].
      destruct res as [record|].
      * destruct C as [-> _]. rewrite length_app. cbn [List.length]. lia.
      * rewrite C. lia.
    + cbv iota. repeat run1. destruct (IH st) as [values [st' [E' [L P]]]].
      rewrite (bind_eq _ _ _ _ _ E'). exists (None :: values), st'.
      split; [reflexivity|]. split; [|exact P].
      rewrite L. unfold successfulScrapes. cbn [filter]. lia.
Qed.

Lemma allSettled_counts (chunk : list string) (name : string) (st : St) :
  exists results st',
    allSettled env chunk name st = (Some results, st') /\
    List.length (csv st') = List.length (csv st) + successfulScrapes results /\
    processedEvents (self st') = processedEvents (self st).
Proof.
  unfold allSettled.
  destruct (launch_frame chunk st) as [tasks [st1 [E [C P]]]].
  rewrite (bind_eq _ _ _ _ _ E).
  destruct (settle_counts name tasks st1) as [results [st' [E' [L P']]]].
  exists results, st'. split; [exact E'|]. rewrite L, P', C, P. now split.
Qed.

(** a chain of steps that touch neither the counter nor the CSV *)
Ltac countly :=
  repeat first
    [ apply counts_ret
    | apply counts_out_of_fuel
    | apply counts_this
    | apply counts_emit
    | apply counts_update; reflexivity
    | apply counts_saveProgress
    | apply counts_sleep
    | apply counts_http_get
    | unfold counts; cbn beta zeta;
      match goal with
      | |- counted ?st (snd (update_this ?f ?st)) =>
          exact (counts_update f st eq_refl)
      end
    | apply counts_bind; [|intros ? ? _] ].

Section CountsWorker.
Variables (fullUrl stateId name : string).

Lemma counts_scrape_chunks (chunks : list (list string)) :
  forall st, counts (scrape_chunks env name chunks) st.
Proof.
  induction chunks as [|chunk chunks IH]; intro st; cbn [scrape_chunks];
    [apply counts_ret|].
  apply counts_this. destruct (negb (isRunning (self st))); [countly|].
  destruct (allSettled_counts chunk name st) as [results [st1 [E [L P]]]].
  unfold counts. rewrite (bind_eq _ _ _ _ _ E). repeat run1.
  match goal with
  | |- counted st (snd (scrape_chunks env name chunks ?s)) =>
      apply (counted_trans st s); [|apply IH]
  end.
  unfold counted. rewrite self_save, csv_save.
  cbn [self csv with_trace with_self processedEvents set_counters set_isRunning].
  rewrite L, P. lia.
Qed.

Lemma counts_page_response (w : Walk) (r : HttpResult) (st : St) :
  counts (page_response env stateId name w r) st.
Proof.
  unfold page_response. destruct r as [body|status message].
  - apply counts_this.
    destruct (filter _ (listing_links body)) as [|l ls]; [apply counts_ret|].
    destruct (chunks_of _ _) as [chunks|]; [|apply counts_out_of_fuel].
    apply counts_bind; [apply counts_scrape_chunks|].
    intros c st1 _. destruct c; countly.
  - apply counts_bind; [countly|]. intros _ st1 _.
    destruct (is_404 status); [apply counts_ret|]. cbv zeta.
    destruct (maxRetries <=? retries w + 1); apply counts_ret.
Qed.

Lemma counts_try_page (w : Walk) (st : St) :
  counts (try_page env fullUrl stateId name w) st.
Proof.
  unfold try_page. apply counts_bind; [countly|]. intros _ st1 _.
  apply counts_bind; [destruct (0 <? retries w); countly|]. intros _ st2 _.
  apply counts_bind; [countly|]. intros r st3 _. apply counts_page_response.
Qed.

Lemma counts_retry_loop (fuel : nat) :
  forall w st, counts (retry_loop env fullUrl stateId name fuel w) st.
Proof.
  induction fuel as [|fuel IH]; intros w st; cbn [retry_loop];
    (destruct ((retries w <? maxRetries) && negb (success w)); [|apply counts_ret]).
  - apply counts_out_of_fuel.
  - apply counts_bind; [apply counts_try_page|].
    intros [c w1] st1 _. cbn [fst snd]. destruct c; (apply IH || apply counts_ret).
Qed.

Lemma counts_page_loop (fuel : nat) :
  forall w st, counts (page_loop env fullUrl stateId name fuel w) st.
Proof.
  induction fuel as [|fuel IH]; intros w st; cbn [page_loop];
    (destruct (hasMorePages w); [|apply counts_ret]).
  - apply counts_out_of_fuel.
  - apply counts_this. destruct (negb (isRunning (self st))); [countly|].
    apply counts_bind; [apply counts_retry_loop|].
    intros [c w1] st1 _. cbn [fst snd].
    destruct c;
      (destruct (negb (success w1) && (maxRetries <=? retries w1));
       apply counts_ret || apply IH).
Qed.
End CountsWorker.

Lemma counts_scrapeStateWorker (fuel : nat) (stateLink stateName : string) (st : St) :
  counts (scrapeStateWorker env fuel stateLink stateName) st.
Proof.
  unfold scrapeStateWorker. apply counts_this.
  destruct (negb (isRunning (self st))); [countly|]. cbv zeta.
  destruct (JsSet.has (completedStates (self st)) (stateIdOf stateName)); [countly|].
  apply counts_bind.
  { destruct (sp_get (stateProgress (self st)) (stateIdOf stateName)) as [e|];
      [|apply counts_ret].
    destruct (0 <? lastPage e); countly. }
  intros page st1 _. apply counts_bind; [apply counts_page_loop|].
  intros [c w] st2 _. cbn [fst snd]. destruct c; countly.
Qed.

Lemma counts_states_loop (fuel nStates : nat) (rest : list (string * string)) :
  forall i st, counts (states_loop env fuel nStates i rest) st.
Proof.
  induction rest as [|[link name] rest IH]; intros i st; cbn [states_loop];
    [apply counts_ret|].
  unfold counts. cbn beta.
  destruct (negb (isRunning (self st)) || global_stop env (tick st));
    match goal with
    | |- counted ?st (snd (?m ?st)) => change (counts m st)
    end.
  - countly.
  - apply counts_this. apply counts_bind; [countly|]. intros _ st1 _. cbv zeta.
    destruct (JsSet.has (completedStates (self st)) _).
    + apply counts_bind; [countly|]. intros _ st2 _. apply IH.
    + apply counts_bind; [countly|]. intros _ st2 _.
      apply counts_bind; [apply counts_scrapeStateWorker|]. intros scraped st3 _.
      apply counts_bind; [countly|]. intros _ st4 _.
      apply counts_bind; [countly|]. intros _ st5 _. apply IH.
Qed.
End Counts.

(** X5: [processedEvents] counts the rows of the CSV.  In every run of
    [scrapeStateWorker] and of the loop of [scrapeAllEvents], however far it
    gets, and in every run of [scrapeAllEvents] that does not load a
    checkpoint, the counter grows by exactly the number of rows appended to
    the CSV. *)
Theorem processedEvents_counts_rows (env : Env) (fuel : nat) :
  (forall stateLink stateName st,
      let st' := snd (scrapeStateWorker env fuel stateLink stateName st) in
      processedEvents (self st') + List.length (csv st)
      = processedEvents (self st) + List.length (csv st')) /\
  (forall nStates i rest st,
      let st' := snd (states_loop env fuel nStates i rest st) in
      processedEvents (self st') + List.length (csv st)
      = processedEvents (self st) + List.length (csv st')) /\
  (forall stateLinks st,
      let st' := snd (scrapeAllEvents env fuel stateLinks (ResumeIndex 0) st) in
      processedEvents (self st') + List.length (csv st)
      = processedEvents (self st) + List.length (csv st')).
Proof.
  split; [|split].
  - intros stateLink stateName st. apply counts_scrapeStateWorker.
  - intros nStates i rest st. apply counts_states_loop.
  - intros stateLinks st. cbv zeta.
    change (counts (scrapeAllEvents env fuel stateLinks (ResumeIndex 0)) st).
    unfold scrapeAllEvents.
    apply counts_bind; [apply counts_update; reflexivity|]. intros _ st1 _.
    apply counts_bind; [apply counts_ret|]. intros from st2 _.
    apply counts_this.
    apply counts_bind; [apply counts_update; reflexivity|]. intros _ st3 _.
    apply counts_bind; [apply counts_emit|]. intros _ st4 _.
    apply counts_bind; [apply counts_states_loop|]. intros returned st5 _.
    apply counts_bind; [|intros _ st6 _; apply counts_saveProgress].
    destruct returned; [apply counts_ret|].
    apply counts_this. apply counts_emit.
Qed.

(** ** A link listed twice *)

Lemma run_update_here {B} (f : St -> Scraper -> Scraper) (k : unit -> M B) (st : St) :
  bind (fun s => update_this (f s) s) k st = k tt (with_self (f st) st).
Proof. reflexivity. Qed.

(** X6: a link that a listing page names twice is written twice when both
    occurrences fall in the same chunk, and once when they do not.  The
    links of a page are filtered against [trackedEventLinks] but not against
    each other.  For a page that lists one link, not tracked yet, twice:
    with [maxConcurrency] 2 or more the two tasks share a chunk and both
    pass the test of [scrapeEventDetails] before either marks the link, so
    both fetch the page, both write a record, and [processedEvents] grows by
    two; with [maxConcurrency] 1 the second task runs in the next chunk,
    finds the link tracked and returns [null] without a request. *)
Theorem link_listed_twice_is_written_twice (env : Env) (stateId name link : string)
  (w : Walk) (body : Page) (st : St) :
  listing_links body = [link; link] ->
  isRunning (self st) = true ->
  JsSet.has (trackedEventLinks (self st)) link = false ->
  (forall t, is_error (axios_get env t link) = false) ->
  (forall t, csv_write_error env t = None) ->
  (2 <= maxConcurrency (self st) ->
   exists w' st' r1 r2,
     page_response env stateId name w (HttpOk body) st = (Some (Next, w'), st') /\
     scrapedEventLinks w' = scrapedEventLinks w ++ [link; link] /\
     detail_fetches (trace st') = detail_fetches (trace st) ++ [link; link] /\
     csv st' = csv st ++ [r1; r2] /\
     originalLink r1 = link /\ originalLink r2 = link /\
     processedEvents (self st') = processedEvents (self st) + 2) /\
  (maxConcurrency (self st) = 1 ->
   (forall t, stop_called env t = false) ->
   exists w' st' r,
     page_response env stateId name w (HttpOk body) st = (Some (Next, w'), st') /\
     scrapedEventLinks w' = scrapedEventLinks w ++ [link; link] /\
     detail_fetches (trace st') = detail_fetches (trace st) ++ [link] /\
     csv st' = csv st ++ [r] /\
     originalLink r = link /\
     processedEvents (self st') = processedEvents (self st) + 1).
Proof.
  intros Hlinks Hrun Hnew Hok Hcsv. split.
  - intro Hsize.
    unfold page_response. rewrite run_this, Hlinks. cbn [filter].
    rewrite Hnew. cbn [negb].
    assert (Hchunks : chunks_of (maxConcurrency (self st)) [link; link]
                      = Some [[link; link]]).
    { destruct (maxConcurrency (self st)) as [|[|n]]; [lia | lia |].
      unfold chunks_of. cbn [Nat.eqb List.length chunks_from firstn skipn].
      now rewrite firstn_nil, skipn_nil. }
    rewrite Hchunks. cbn [scrape_chunks]. run. rewrite Hrun. cbn [negb].
    unfold allSettled. cbn [launch settle]. change (0 <? maxRetries) with true.
    cbv iota. unfold request. run. rewrite Hnew. run.
    pose proof (Hok (tick st)) as H1. pose proof (Hok (S (tick st))) as H2.
    destruct (axios_get env (tick st) link) as [b1|]; [clear H1 | discriminate H1].
    destruct (axios_get env (S (tick st)) link) as [b2|]; [clear H2 | discriminate H2].
    cbn [settle respond maxRetries]. run. rewrite run_writeRecords, Hcsv. run.
    rewrite run_writeRecords, Hcsv. run.
    cbv zeta. rewrite run_update_here. run.
    eexists _, _, _, _. split; [reflexivity|].
    cbn [scrapedEventLinks]. split; [reflexivity|].
    split; [do 4 observe; reflexivity|].
    split; [do 4 observe; now rewrite <- ?app_assoc|].
    split; [reflexivity|]. split; [reflexivity|]. do 4 observe. reflexivity.
  - intros Hone Hstop.
    unfold page_response. rewrite run_this, Hlinks. cbn [filter].
    rewrite Hnew. cbn [negb]. rewrite Hone.
    change (chunks_of 1 [link; link]) with (Some [[link]; [link]]).
    cbn [scrape_chunks]. run. rewrite Hrun. cbn [negb].
    unfold allSettled. cbn [launch settle]. change (0 <? maxRetries) with true.
    cbv iota. unfold request. run. rewrite Hnew. run.
    pose proof (Hok (tick st)) as H1.
    destruct (axios_get env (tick st) link) as [b1|]; [clear H1 | discriminate H1].
    cbn [settle respond maxRetries]. run. rewrite run_writeRecords, Hcsv. run.
    rewrite !self_save. reduce_state. rewrite !Hstop, !Hrun. cbn [negb andb].
    rewrite has_add_same. run. cbn [settle]. run.
    cbv zeta. rewrite run_update_here. run.
    eexists _, _, _. split; [reflexivity|].
    cbn [scrapedEventLinks]. split; [reflexivity|].
    split; [do 4 observe; reflexivity|].
    split; [do 4 observe; now rewrite <- ?app_assoc|].
    split; [reflexivity|]. do 4 observe.
    cbn [successfulScrapes filter List.length]. lia.
Qed.

Lemma link_listed_twice_is_written_twice_witness :
  (exists w' st' r1 r2,
      page_response (Sample.world (fun _ _ => Sample.page [])) "iowa" "Iowa" (first_walk 1)
        (Sample.page ["/event/a/"; "/event/a/"]) Sample.st0
      = (Some (Next, w'), st') /\
      scrapedEventLinks w' = scrapedEventLinks (first_walk 1) ++ ["/event/a/"; "/event/a/"] /\
      detail_fetches (trace st')
      = detail_fetches (trace Sample.st0) ++ ["/event/a/"; "/event/a/"] /\
      csv st' = csv Sample.st0 ++ [r1; r2] /\
      originalLink r1 = "/event/a/" /\ originalLink r2 = "/event/a/" /\
      processedEvents (self st') = processedEvents (self Sample.st0) + 2) /\
  (exists w' st' r,
      page_response (Sample.world (fun _ _ => Sample.page [])) "iowa" "Iowa" (first_walk 1)
        (Sample.page ["/event/a/"; "/event/a/"]) Sample2.st_serial
      = (Some (Next, w'), st') /\
      scrapedEventLinks w' = scrapedEventLinks (first_walk 1) ++ ["/event/a/"; "/event/a/"] /\
      detail_fetches (trace st') = detail_fetches (trace Sample2.st_serial) ++ ["/event/a/"] /\
      csv st' = csv Sample2.st_serial ++ [r] /\
      originalLink r = "/event/a/" /\
      processedEvents (self st') = processedEvents (self Sample2.st_serial) + 1).
Proof.
  split.
  - apply (proj1 (link_listed_twice_is_written_twice
             (Sample.world (fun _ _ => Sample.page [])) "iowa" "Iowa" "/event/a/"
             (first_walk 1)
             {| listing_links := ["/event/a/"; "/event/a/"];
                detail_fields := Sample.fields |} Sample.st0
             eq_refl eq_refl eq_refl (fun _ => eq_refl) (fun _ => eq_refl))).
    vm_compute. lia.
  - apply (proj2 (link_listed_twice_is_written_twice
             (Sample.world (fun _ _ => Sample.page [])) "iowa" "Iowa" "/event/a/"
             (first_walk 1)
             {| listing_links := ["/event/a/"; "/event/a/"];
                detail_fields := Sample.fields |} Sample2.st_serial
             eq_refl eq_refl eq_refl (fun _ => eq_refl) (fun _ => eq_refl))
             eq_refl (fun _ => eq_refl)).
Defined.

(** ** Saving and loading the progress *)





(** ** A run that does not resume *)

Lemma fades_unread : fades unread.
Proof. intros st st' e _ H. exact H. Qed.

Lemma run_unread (st : St) (e : event) : run_event st e -> unread st e.
Proof.
  unfold unread.
  destruct e as [[] u| | | | | | | |[]]; cbn; intro H; reflexivity || contradiction.
Qed.

(** X8: a run that does not resume never reads the progress file.  Called
    with [resumeFromState = 0], [scrapeAllEvents] goes through all the
    states from the first one with the tracked links, the completed states
    and the page cursors the scraper holds in memory, and at no point of the
    run does it load the checkpoint: states that a previous run completed
    are not skipped unless the caller passed them to the constructor. *)
Theorem fresh_run_ignores_checkpoint (env : Env) (fuel : nat)
  (stateLinks : list (string * string)) (st : St) :
  exists st1 d,
    scrapeAllEvents env fuel stateLinks (ResumeIndex 0) st
    = bind (states_loop env fuel (List.length stateLinks) 0 stateLinks)
        (run_finish env (List.length stateLinks)) st1 /\
    trackedEventLinks (self st1) = trackedEventLinks (self st) /\
    completedStates (self st1) = completedStates (self st) /\
    stateProgress (self st1) = stateProgress (self st) /\
    disk st1 = disk st /\
    trace (snd (scrapeAllEvents env fuel stateLinks (ResumeIndex 0) st)) = trace st ++ d /\
    Forall (fun e => is_load e = false) d.
Proof.
  unfold scrapeAllEvents. run. cbn [skipn].
  eexists. 
  assert (H : emits unread
                (bind (states_loop env fuel (List.length stateLinks) 0 stateLinks)
                   (run_finish env (List.length stateLinks)))
                (with_trace
                   (Progress
                      (ScraperSummary (List.length stateLinks)
                         (JsSet.size (completedStates (self st)))
                         (totalEventsFound (self st))))
                   (with_self
                      (set_counters 0 (List.length stateLinks)
                         (processedEvents (self st)) (totalEventsFound (self st)))
                      (with_self (set_isRunning true) st)))).
  { apply (emits_bind _ fades_unread).
    - eapply emits_weaken; [|apply emits_states_loop]. apply run_unread.
    - intros returned st2 _. unfold run_finish.
      apply (emits_bind _ fades_unread).
      + destruct returned; [apply emits_ret|]. apply emits_this.
        apply emits_emit. reflexivity.
      + intros _ st3 _.
        apply (emits_saveProgress _ env (fun _ => eq_refl)). intro; reflexivity. }
  destruct H as [_ [d [T F]]].
  eexists (_ :: d). split; [reflexivity|].
  split; [reflexivity|]. split; [reflexivity|]. split; [reflexivity|].
  split; [reflexivity|]. split.
  - unfold run_finish in T. rewrite T. cbn [trace with_trace with_self].
    now rewrite <- app_assoc.
  - constructor; [reflexivity | exact F].
Qed.

(** ** EventScraper.scrapeRegionEvents *)

Lemma run_scrapeWithPuppeteer_links {B} (env : Env) (url : string)
  (k : list string + string -> M B) (st : St) :
  bind (EventScraper.scrapeWithPuppeteer env url) k st
  = k (match puppeteer_get env (tick st) url with
       | PuppeteerLinks l => inl l
       | PuppeteerFailed => inl []
       | PuppeteerThrows message => inr message
       end)
      (await_st env (with_trace (Browse url) st)).
Proof.
  unfold EventScraper.scrapeWithPuppeteer, bind, emit, ret. now rewrite await_eq.
Qed.

Lemma length_zero_nil {A} (l : list A) : (List.length l =? 0) = true -> l = [].
Proof. now destruct l. Qed.

(** the loop on a page where neither path finds a link *)
Lemma region_loop_barren (env : Env) (fullUrl : string) (fuel : nat)
  (w : EventScraper.Region) (st : St) :
  EventScraper.hasMorePages w = true ->
  barren env (pageUrl fullUrl (EventScraper.currentPage w)) ->
  exists w' st' last,
    EventScraper.region_loop env fullUrl (S fuel) w st = (Some w', st') /\
    EventScraper.allEventLinks w' = EventScraper.allEventLinks w /\
    page_requests (trace st') = page_requests (trace st) ++ last /\
    Forall (eq (pageUrl fullUrl (EventScraper.currentPage w))) last.
Proof.
  intros Hmore Hbarren. cbn [EventScraper.region_loop]. rewrite Hmore.
  unfold EventScraper.visit_page, EventScraper.scrapeWithAxios. run.
  destruct (Hbarren (tick st)) as [Ha _].
  destruct (axios_get env (tick st) (pageUrl fullUrl (EventScraper.currentPage w)))
    as [body|status message].
  - cbn [axios_empty] in Ha. apply length_zero_nil in Ha. run. rewrite Ha. cbv iota.
    rewrite run_bind, run_scrapeWithPuppeteer_links. cbn [tick await_st with_trace].
    destruct (Hbarren (S (tick st))) as [_ Hp].
    destruct (puppeteer_get env (S (tick st))
                (pageUrl fullUrl (EventScraper.currentPage w))) as [l| |m].
    + cbn [puppeteer_barren] in Hp. apply length_zero_nil in Hp. subst l. run.
      eexists _, _, [_; _]. split; [reflexivity|]. split; [reflexivity|].
      split; [now observe | now repeat constructor].
    + run. eexists _, _, [_; _]. split; [reflexivity|]. split; [reflexivity|].
      split; [now observe | now repeat constructor].
    + run. eexists _, _, [_; _]. split; [reflexivity|]. split; [reflexivity|].
      split; [now observe | now repeat constructor].
  - run. destruct (is_404 status); run.
    + rewrite region_loop_done by reflexivity.
      eexists _, _, [_]. split; [reflexivity|]. split; [reflexivity|].
      split; [now observe | now repeat constructor].
    + eexists _, _, [_]. split; [reflexivity|]. split; [reflexivity|].
      split; [now observe | now repeat constructor].
Qed.

Lemma region_loop_serves (env : Env) (fullUrl : string) (pages : list (list string)) :
  forall fuel w st,
    EventScraper.hasMorePages w = true ->
    serves env fullUrl (EventScraper.currentPage w) pages ->
    barren env (pageUrl fullUrl (EventScraper.currentPage w + List.length pages)) ->
    List.length pages < fuel ->
    exists w' st' last,
      EventScraper.region_loop env fullUrl fuel w st = (Some w', st') /\
      EventScraper.allEventLinks w'
      = EventScraper.allEventLinks w ++ List.concat pages /\
      page_requests (trace st')
      = page_requests (trace st)
          ++ map (pageUrl fullUrl) (seq (EventScraper.currentPage w) (List.length pages))
          ++ last /\
      Forall (eq (pageUrl fullUrl (EventScraper.currentPage w + List.length pages))) last.
Proof.
  induction pages as [|links pages IH]; intros fuel w st Hmore Hserves Hbarren Hfuel.
  - destruct fuel as [|fuel]; [cbn in Hfuel; lia|].
    cbn [List.length] in Hbarren. rewrite Nat.add_0_r in Hbarren.
    destruct (region_loop_barren env fullUrl fuel w st Hmore Hbarren)
      as [w' [st' [last [E [A [P F]]]]]].
    exists w', st', last. split; [exact E|].
    cbn [List.concat List.length seq map app]. rewrite app_nil_r, Nat.add_0_r.
    now repeat split.
  - destruct fuel as [|fuel]; [cbn in Hfuel; lia|].
    destruct (Hserves 0 links eq_refl) as [Hne Hpage].
    destruct (Hpage (tick st)) as [body [Hget Hlinks]].
    rewrite Nat.add_0_r in Hget.
    cbn [EventScraper.region_loop]. rewrite Hmore.
    unfold EventScraper.visit_page, EventScraper.scrapeWithAxios. run.
    rewrite Hget. run. rewrite Hlinks.
    destruct links as [|l links]; [congruence|]. run.
    match goal with
    | |- context [EventScraper.region_loop env fullUrl fuel ?w1 ?s] =>
        destruct (IH fuel w1 s) as [w' [st' [last [E [A [P F]]]]]]
    end.
    + exact Hmore.
    + intros p ls Hp. cbn [EventScraper.push EventScraper.currentPage].
      destruct (Hserves (S p) ls Hp) as [H1 H2]. split; [exact H1|].
      intro t. destruct (H2 t) as [b [Hb Hl]]. exists b.
      replace (EventScraper.currentPage w + 1 + p)
        with (EventScraper.currentPage w + S p) by lia. now split.
    + cbn [EventScraper.push EventScraper.currentPage].
      replace (EventScraper.currentPage w + 1 + List.length pages)
        with (EventScraper.currentPage w + List.length ((l :: links) :: pages)).
      * exact Hbarren.
      * cbn [List.length]. lia.
    + cbn [List.length] in Hfuel. lia.
    + exists w', st', last. split; [exact E|].
      cbn [EventScraper.push EventScraper.currentPage EventScraper.allEventLinks] in A, P, F.
      split; [rewrite A; cbn [List.concat]; now rewrite app_assoc|].
      split.
      * rewrite P. observe. cbn [List.length seq map app].
        now replace (EventScraper.currentPage w + 1) with (S (EventScraper.currentPage w))
          by lia.
      * replace (EventScraper.currentPage w + List.length ((l :: links) :: pages))
          with (EventScraper.currentPage w + 1 + List.length pages)
          by (cbn [List.length]; lia).
        exact F.
Qed.

(** X9: [scrapeRegionEvents] of [EventScraper] returns the links of the
    pages put end to end, duplicates included.  When [axios] finds the
    listing pages [pages], each with a link at least, on pages 1, 2, ... of
    the region, and neither [axios] nor the browser finds a link on the page
    after them (it lists nothing, it fails, or it does not exist), the
    function asks for the pages in order, stops at that page, and returns
    the concatenation of [pages]. *)
Theorem scrapeRegionEvents_concatenates (env : Env) (regionUrl : string)
  (pages : list (list string)) (fuel : nat) (st : St) :
  let url := if String.prefix "http" regionUrl then regionUrl
             else String.append EventScraper.baseUrl regionUrl in
  serves env url 1 pages ->
  barren env (pageUrl url (1 + List.length pages)) ->
  List.length pages < fuel ->
  exists st' last,
    EventScraper.scrapeRegionEvents env fuel regionUrl st
    = (Some (List.concat pages), st') /\
    page_requests (trace st')
    = page_requests (trace st)
        ++ map (pageUrl url) (seq 1 (List.length pages)) ++ last /\
    Forall (eq (pageUrl url (1 + List.length pages))) last.
Proof.
  intros url Hserves Hbarren Hfuel. unfold EventScraper.scrapeRegionEvents.
  fold url.
  destruct (region_loop_serves env url pages fuel
              {| EventScraper.currentPage := 1; EventScraper.hasMorePages := true;
                 EventScraper.allEventLinks := [] |} st eq_refl Hserves Hbarren Hfuel)
    as [w' [st' [last [E [A [P F]]]]]].
  rewrite (bind_eq _ _ _ _ _ E). exists st', last.
  unfold ret. rewrite A. now repeat split.
Qed.

Lemma scrapeRegionEvents_concatenates_witness :
  exists st' last,
    EventScraper.scrapeRegionEvents Listing.env 3 Sample2.iowa Sample.st0
    = (Some ["/event/a/"; "/event/b/"; "/event/b/"; "/event/c/"], st') /\
    page_requests (trace st')
    = page_requests (trace Sample.st0)
        ++ map (pageUrl Sample2.iowa_url) (seq 1 2) ++ last /\
    Forall (eq (pageUrl Sample2.iowa_url (1 + 2))) last.
Proof.
  apply (scrapeRegionEvents_concatenates Listing.env Sample2.iowa Listing.pages 3
           Sample.st0).
  - intros p links H. destruct p as [|[|p]]; cbn in H.
    + injection H as <-. split; [discriminate|]. intro t. eexists. split; reflexivity.
    + injection H as <-. split; [discriminate|]. intro t. eexists. split; reflexivity.
    + destruct p; discriminate H.
  - intro t. split; reflexivity.
  - cbn. lia.
Defined.

(** ** Relations that every step of the scraper keeps *)

Section Keeps.
Variable env : Env.
Variable R : St -> St -> Prop.
Hypothesis R_refl : forall st, R st st.
Hypothesis R_trans : forall a b c, R a b -> R b c -> R a c.
Hypothesis R_trace : forall e st, R st (with_trace e st).
Hypothesis R_await : forall st, R st (await_st env st).
Hypothesis R_csv : forall r st, R st (with_csv r st).
Hypothesis R_save : forall st, R st (save_st env st).
Hypothesis R_tracked : forall t st, R st (with_self (set_trackedEventLinks t) st).
Hypothesis R_counters :
  forall a b c d st, R st (with_self (set_counters a b c d) st).

Lemma keeps_bind {A B} (m : M A) (k : A -> M B) (st : St) :
  keeps R m st ->
  (forall a st1, m st = (Some a, st1) -> keeps R (k a) st1) ->
  keeps R (bind m k) st.
Proof.
  unfold keeps, bind. intros Hm Hk. destruct (m st) as [[a|] st1]; [|exact Hm].
  eapply R_trans; [exact Hm | exact (Hk a st1 eq_refl)].
Qed.

Lemma keeps_ret {A} (a : A) (st : St) : keeps R (ret a) st.
Proof. apply R_refl. Qed.

Lemma keeps_out_of_fuel {A} (st : St) : keeps R (@out_of_fuel A) st.
Proof. apply R_refl. Qed.

Lemma keeps_this {B} (k : Scraper -> M B) (st : St) :
  keeps R (k (self st)) st -> keeps R (bind this k) st.
Proof. unfold keeps. now rewrite run_this. Qed.

Lemma keeps_emit (e : event) (st : St) : keeps R (emit e) st.
Proof. apply R_trace. Qed.

Lemma keeps_update (f : Scraper -> Scraper) (st : St) :
  R st (with_self f st) -> keeps R (update_this f) st.
Proof. intro H. exact H. Qed.

Lemma keeps_sleep (ms : N) (st : St) : keeps R (sleep env ms) st.
Proof.
  unfold keeps. rewrite sleep_eq. eapply R_trans; [apply R_trace | apply R_await].
Qed.

Lemma keeps_http_get (o : origin) (url : string) (st : St) :
  keeps R (http_get env o url) st.
Proof.
  unfold keeps, http_get, bind, emit, ret. rewrite await_eq.
  eapply R_trans; [apply R_trace | apply R_await].
Qed.

Lemma keeps_writeRecords (r : EventRecord) (st : St) :
  keeps R (writeRecords env r) st.
Proof.
  unfold keeps. rewrite writeRecords_eq.
  destruct (csv_write_error env (tick st)); cbn [snd].
  - eapply R_trans; [apply R_trace | apply R_await].
  - eapply R_trans; [apply R_csv|].
    eapply R_trans; [apply R_trace | apply R_await].
Qed.

Lemma keeps_saveProgress (st : St) : keeps R (saveProgress env) st.
Proof. unfold keeps. rewrite saveProgress_eq. apply R_save. Qed.

(** a chain of steps each of which keeps [R] *)
Ltac keeply :=
  repeat first
    [ apply keeps_ret
    | apply keeps_out_of_fuel
    | apply keeps_this
    | apply keeps_emit
    | apply keeps_update; apply R_counters
    | apply keeps_update; apply R_tracked
    | apply keeps_saveProgress
    | apply keeps_sleep
    | apply keeps_http_get
    | apply keeps_writeRecords
    | apply keeps_bind; [|intros ? ? _] ].

Lemma keeps_request (link : string) (retries : nat) (st : St) :
  keeps R (request env link retries) st.
Proof.
  unfold request. apply keeps_this.
  destruct (JsSet.has (trackedEventLinks (self st)) link); [apply keeps_ret|].
  apply keeps_bind; [destruct (0 <? retries); keeply|]. intros _ st1 _. keeply.
Qed.

Lemma keeps_respond (link name : string) (fuel : nat) :
  forall retries r st, keeps R (respond env fuel link name retries r) st.
Proof.
  induction fuel as [|fuel IH]; intros retries r st;
    destruct r as [body|status message]; cbn [respond].
  - apply keeps_this. apply keeps_bind; [keeply|]. intros _ st1 _.
    apply keeps_bind; [keeply|]. intros _ st2 _.
    apply keeps_bind; [keeply|]. intros [m|] st3 _; [|keeply].
    apply keeps_bind; [keeply|]. intros _ st4 _.
    destruct (maxRetries <=? retries + 1); [keeply|].
    destruct (retries + 1 <? maxRetries); keeply.
  - apply keeps_bind; [keeply|]. intros _ st4 _.
    destruct (maxRetries <=? retries + 1); [keeply|].
    destruct (retries + 1 <? maxRetries); keeply.
  - apply keeps_this. apply keeps_bind; [keeply|]. intros _ st1 _.
    apply keeps_bind; [keeply|]. intros _ st2 _.
    apply keeps_bind; [keeply|]. intros [m|] st3 _; [|keeply].
    apply keeps_bind; [keeply|]. intros _ st4 _.
    destruct (maxRetries <=? retries + 1); [keeply|].
    destruct (retries + 1 <? maxRetries); [|keeply].
    apply keeps_bind; [apply keeps_request|]. intros [r'|] st5 _; [apply IH | keeply].
  - apply keeps_bind; [keeply|]. intros _ st4 _.
    destruct (maxRetries <=? retries + 1); [keeply|].
    destruct (retries + 1 <? maxRetries); [|keeply].
    apply keeps_bind; [apply keeps_request|]. intros [r'|] st5 _; [apply IH | keeply].
Qed.

Lemma keeps_launch (chunk : list string) :
  forall st, keeps R (launch env chunk) st.
Proof.
  induction chunk as [|link chunk IH]; intro st; cbn [launch]; [apply keeps_ret|].
  apply keeps_bind.
  - destruct (0 <? maxRetries); [apply keeps_request | apply keeps_ret].
  - intros q st1 _. apply keeps_bind; [apply IH|]. intros tasks st2 _. apply keeps_ret.
Qed.

Lemma keeps_settle (name : string) (tasks : list (string * option HttpResult)) :
  forall st, keeps R (settle env name tasks) st.
Proof.
  induction tasks as [|[link q] tasks IH]; intro st; cbn [settle]; [apply keeps_ret|].
  apply keeps_bind.
  - destruct q as [r|]; [apply keeps_respond | apply keeps_ret].
  - intros v st1 _. apply keeps_bind; [apply IH|]. intros values st2 _. apply keeps_ret.
Qed.

Lemma keeps_allSettled (chunk : list string) (name : string) (st : St) :
  keeps R (allSettled env chunk name) st.
Proof.
  unfold allSettled. apply keeps_bind; [apply keeps_launch|].
  intros tasks st1 _. apply keeps_settle.
Qed.

Section KeepsWorker.
Variables (fullUrl stateId name : string).
Hypothesis R_progress :
  forall e st,
    R st (with_self (set_stateProgress (sp_set (stateProgress (self st)) stateId e)) st).

Lemma keeps_scrape_chunks (chunks : list (list string)) :
  forall st, keeps R (scrape_chunks env name chunks) st.
Proof.
  induction chunks as [|chunk chunks IH]; intro st; cbn [scrape_chunks];
    [apply keeps_ret|].
  apply keeps_this. destruct (negb (isRunning (self st))); [keeply|].
  apply keeps_bind; [apply keeps_allSettled|]. intros results st1 _.
  apply keeps_this. apply keeps_bind; [keeply|]. intros _ st2 _.
  apply keeps_this. apply keeps_bind; [keeply|]. intros _ st3 _.
  apply keeps_bind; [keeply|]. intros _ st4 _. apply IH.
Qed.

Lemma keeps_page_response (w : Walk) (r : HttpResult) (st : St) :
  keeps R (page_response env stateId name w r) st.
Proof.
  unfold page_response. destruct r as [body|status message].
  - apply keeps_this.
    destruct (filter _ (listing_links body)) as [|l ls]; [apply keeps_ret|].
    destruct (chunks_of _ _) as [chunks|]; [|apply keeps_out_of_fuel].
    apply keeps_bind; [apply keeps_scrape_chunks|].
    intros c st1 _.
    assert (Hrest : forall st1,
               keeps R
                 (s <- this;;
                  update_this (set_counters (currentState s) (totalStates s)
                                 (processedEvents s)
                                 (totalEventsFound s + List.length (l :: ls)));;
                  (fun st =>
                     let old := sp_get (stateProgress (self st)) stateId in
                     update_this
                       (set_stateProgress
                          (sp_set (stateProgress (self st)) stateId
                             {| lastPage := currentPage w;
                                totalPages := currentPage w;
                                lastProcessed := now env (tick st);
                                eventsFound :=
                                  match old with
                                  | Some e => eventsFound e
                                  | None => 0
                                  end + List.length (l :: ls) |})) st);;
                  saveProgress env;;
                  sleep env 1000%N;;
                  ret (Next, {| currentPage := currentPage w + 1;
                                hasMorePages := hasMorePages w;
                                scrapedEventLinks := scrapedEventLinks w ++ l :: ls;
                                retries := retries w; success := true |})) st1).
    { clear st st1. intro st1. apply keeps_this.
      apply keeps_bind; [keeply|]. intros _ st2 _.
      apply keeps_bind; [unfold keeps; cbn beta zeta; apply R_progress|].
      intros _ st3 _. keeply. }
    destruct c; [apply Hrest | apply Hrest | apply keeps_ret].
  - apply keeps_bind; [keeply|]. intros _ st1 _.
    destruct (is_404 status); [apply keeps_ret|]. cbv zeta.
    destruct (maxRetries <=? retries w + 1); apply keeps_ret.
Qed.

Lemma keeps_try_page (w : Walk) (st : St) :
  keeps R (try_page env fullUrl stateId name w) st.
Proof.
  unfold try_page. apply keeps_bind; [keeply|]. intros _ st1 _.
  apply keeps_bind; [destruct (0 <? retries w); keeply|]. intros _ st2 _.
  apply keeps_bind; [keeply|]. intros r st3 _. apply keeps_page_response.
Qed.

Lemma keeps_retry_loop (fuel : nat) :
  forall w st, keeps R (retry_loop env fullUrl stateId name fuel w) st.
Proof.
  induction fuel as [|fuel IH]; intros w st; cbn [retry_loop];
    (destruct ((retries w <? maxRetries) && negb (success w)); [|apply keeps_ret]).
  - apply keeps_out_of_fuel.
  - apply keeps_bind; [apply keeps_try_page|].
    intros [c w1] st1 _. cbn [fst snd]. destruct c; (apply IH || apply keeps_ret).
Qed.

Lemma keeps_page_loop (fuel : nat) :
  forall w st, keeps R (page_loop env fullUrl stateId name fuel w) st.
Proof.
  induction fuel as [|fuel IH]; intros w st; cbn [page_loop];
    (destruct (hasMorePages w); [|apply keeps_ret]).
  - apply keeps_out_of_fuel.
  - apply keeps_this. destruct (negb (isRunning (self st))); [keeply|].
    apply keeps_bind; [apply keeps_retry_loop|].
    intros [c w1] st1 _. cbn [fst snd].
    destruct c;
      (destruct (negb (success w1) && (maxRetries <=? retries w1));
       apply keeps_ret || apply IH).
Qed.
End KeepsWorker.

Lemma keeps_scrapeStateWorker (fuel : nat) (stateLink stateName : string) (st : St) :
  (forall e st,
      R st (with_self (set_stateProgress
                         (sp_set (stateProgress (self st)) (stateIdOf stateName) e)) st)) ->
  (forall st,
      R st (with_self (set_completedStates
                         (JsSet.add (completedStates (self st)) (stateIdOf stateName)))
              st)) ->
  keeps R (scrapeStateWorker env fuel stateLink stateName) st.
Proof.
  intros R_progress R_completed.
  unfold scrapeStateWorker. apply keeps_this.
  destruct (negb (isRunning (self st))); [keeply|]. cbv zeta.
  destruct (JsSet.has (completedStates (self st)) (stateIdOf stateName)); [keeply|].
  apply keeps_bind.
  { destruct (sp_get (stateProgress (self st)) (stateIdOf stateName)) as [e|];
      [|apply keeps_ret].
    destruct (0 <? lastPage e); keeply. }
  intros page st1 _. apply keeps_bind; [now apply keeps_page_loop|].
  intros [c w] st2 _. cbn [fst snd].
  assert (Hmark : forall st2,
             keeps R
               (s <- this;;
                update_this (set_completedStates
                               (JsSet.add (completedStates s) (stateIdOf stateName)));;
                emit (MarkCompleted (stateIdOf stateName));;
                onProgress
                  (StateCompleted
                     (str_or stateName
                        (str_or (getStateFromUrl env stateLink) "Unknown State"))
                     (currentPage w - 1) (List.length (scrapedEventLinks w)));;
                saveProgress env;;
                ret (scrapedEventLinks w)) st2).
  { clear st st1 st2. intro st2. apply keeps_this.
    apply keeps_bind; [apply keeps_update, R_completed|]. intros _ st3 _. keeply. }
  destruct c; [apply Hmark | apply Hmark | apply keeps_ret].
Qed.

Lemma keeps_states_loop (fuel nStates : nat) (rest : list (string * string)) :
  (forall stateId e st,
      R st (with_self (set_stateProgress (sp_set (stateProgress (self st)) stateId e)) st)) ->
  (forall stateId st,
      R st (with_self (set_completedStates (JsSet.add (completedStates (self st)) stateId))
              st)) ->
  forall i st, keeps R (states_loop env fuel nStates i rest) st.
Proof.
  intros R_progress R_completed.
  induction rest as [|[link name] rest IH]; intros i st; cbn [states_loop];
    [apply keeps_ret|].
  unfold keeps. cbn beta.
  destruct (negb (isRunning (self st)) || global_stop env (tick st));
    match goal with
    | |- R ?st (snd (?m ?st)) => change (keeps R m st)
    end.
  - keeply.
  - apply keeps_this. apply keeps_bind; [keeply|]. intros _ st1 _. cbv zeta.
    destruct (JsSet.has (completedStates (self st)) _).
    + apply keeps_bind; [keeply|]. intros _ st2 _. apply IH.
    + apply keeps_bind; [keeply|]. intros _ st2 _.
      apply keeps_bind; [apply keeps_scrapeStateWorker; auto|]. intros scraped st3 _.
      apply keeps_bind; [keeply|]. intros _ st4 _.
      apply keeps_bind; [keeply|]. intros _ st5 _. apply IH.
Qed.
End Keeps.

(** ** The states a worker does not touch *)

Lemma sp_get_cons (q : string) (e : StateProgressEntry)
  (m : list (string * StateProgressEntry)) (k : string) :
  sp_get ((q, e) :: m) k = if String.eqb k q then Some e else sp_get m k.
Proof. reflexivity. Qed.

Lemma sp_set_cons (q : string) (e : StateProgressEntry)
  (m : list (string * StateProgressEntry)) (k : string) (v : StateProgressEntry) :
  sp_set ((q, e) :: m) k v
  = if String.eqb k q then (q, v) :: m else (q, e) :: sp_set m k v.
Proof. reflexivity. Qed.

Lemma sp_get_set_other (m : list (string * StateProgressEntry)) (k k' : string)
  (v : StateProgressEntry) :
  k' <> k -> sp_get (sp_set m k v) k' = sp_get m k'.
Proof.
  intro H. induction m as [|[q e] m IH].
  - change (sp_set [] k v) with [(k, v)]. rewrite sp_get_cons.
    destruct (String.eqb_spec k' k); [contradiction | reflexivity].
  - rewrite sp_set_cons. destruct (String.eqb_spec k q) as [->|Hq].
    + rewrite !sp_get_cons. destruct (String.eqb_spec k' q); [contradiction | reflexivity].
    + rewrite !sp_get_cons. destruct (String.eqb k' q); [reflexivity | exact IH].
Qed.

Lemma has_add_other (s : JsSet.t) (x y : string) :
  y <> x -> JsSet.has (JsSet.add s x) y = JsSet.has s y.
Proof.
  intro H. unfold JsSet.add. destruct (JsSet.has s x); [reflexivity|].
  unfold JsSet.has. rewrite existsb_app. cbn [existsb].
  destruct (String.eqb_spec y x); [contradiction|]. now rewrite !orb_false_r.
Qed.

Lemma others_untouched_same (stateId : string) (st st' : St) :
  stateProgress (self st') = stateProgress (self st) ->
  completedStates (self st') = completedStates (self st) ->
  others_untouched stateId st st'.
Proof. intros H1 H2. unfold others_untouched. now rewrite H1, H2. Qed.

(** X10: a worker leaves the progress of the other states alone.  In every
    run of [scrapeStateWorker] for a state, however far it gets, the page
    cursor in [stateProgress] of every other state id is what it was, and
    every other state id is in [completedStates] after the run exactly when
    it was before. *)
Theorem worker_leaves_other_states (env : Env) (fuel : nat)
  (stateLink stateName : string) (st : St) :
  let st' := snd (scrapeStateWorker env fuel stateLink stateName st) in
  (forall k, k <> stateIdOf stateName ->
             sp_get (stateProgress (self st')) k = sp_get (stateProgress (self st)) k) /\
  (forall k, k <> stateIdOf stateName ->
             JsSet.has (completedStates (self st')) k
             = JsSet.has (completedStates (self st)) k).
Proof.
  cbv zeta.
  change (keeps (others_untouched (stateIdOf stateName))
            (scrapeStateWorker env fuel stateLink stateName) st).
  apply keeps_scrapeStateWorker.
  - intro s. now apply others_untouched_same.
  - intros a b c [H1 H2] [H3 H4]. split; intros k Hk.
    + now rewrite (H3 k Hk), (H1 k Hk).
    + now rewrite (H4 k Hk), (H2 k Hk).
  - intros e s. now apply others_untouched_same.
  - intro s. now apply others_untouched_same.
  - intros r s. now apply others_untouched_same.
  - intro s. apply others_untouched_same; now rewrite self_save.
  - intros t s. now apply others_untouched_same.
  - intros a b c d s. now apply others_untouched_same.
  - intros e s. split; intros k Hk; cbn [self with_self stateProgress completedStates
                                         set_stateProgress]; [|reflexivity].
    now apply sp_get_set_other.
  - intro s. split; intros k Hk; cbn [self with_self stateProgress completedStates
                                       set_completedStates]; [reflexivity|].
    now apply has_add_other.
Qed.

Lemma worker_leaves_other_states_witness :
  let st' := snd (scrapeStateWorker Sample2.iowa_once 3 Sample2.iowa "Iowa"
                    Sample2.st_resumed) in
  sp_get (stateProgress (self st')) "alabama"
  = sp_get (stateProgress (self Sample2.st_resumed)) "alabama" /\
  JsSet.has (completedStates (self st')) "alabama"
  = JsSet.has (completedStates (self Sample2.st_resumed)) "alabama".
Proof.
  pose proof (worker_leaves_other_states Sample2.iowa_once 3 Sample2.iowa "Iowa"
                Sample2.st_resumed) as [H1 H2].
  split; [apply H1 | apply H2]; vm_compute; discriminate.
Defined.

(** ** A worker that nobody stops *)

Lemma still_running_same (st st' : St) :
  isRunning (self st') = isRunning (self st) -> still_running st st'.
Proof. unfold still_running. now intros ->. Qed.

(** X12: only [stop()] interrupts a state.  If [stop()] is not called, a
    worker started on a running scraper reports no stop request, whatever
    [global.isScraperRunning] reads meanwhile, and leaves the scraper
    running: the flag of the application alone never interrupts a state in
    progress. *)
Theorem worker_is_stopped_by_stop_only (env : Env) (fuel : nat)
  (stateLink stateName : string) (st : St) :
  (forall t, stop_called env t = false) ->
  isRunning (self st) = true ->
  let st' := snd (scrapeStateWorker env fuel stateLink stateName st) in
  isRunning (self st') = true /\
  exists d, trace st' = trace st ++ d /\ Forall (fun e => stop_observed e = false) d.
Proof.
  intros Hstop Hrun. cbv zeta.
  assert (K : keeps still_running (scrapeStateWorker env fuel stateLink stateName) st).
  { apply (keeps_scrapeStateWorker env).
    - intros s H. exact H.
    - intros a b c H1 H2 H. apply H2, H1, H.
    - intros e s. now apply still_running_same.
    - intro s. apply still_running_same. cbn [self await_st isRunning set_isRunning].
      rewrite Hstop. apply andb_true_r.
    - intros r s. now apply still_running_same.
    - intro s. apply still_running_same. rewrite self_save.
      cbn [isRunning set_isRunning]. rewrite Hstop. apply andb_true_r.
    - intros t s. now apply still_running_same.
    - intros a b c d s. now apply still_running_same.
    - intros e s. now apply still_running_same.
    - intro s. now apply still_running_same. }
  specialize (K Hrun). split; [exact K|].
  destruct (polls_scrapeStateWorker env fuel stateLink stateName st)
    as [[_ [d [T F]]] | [d0 [e [a [_ [_ [_ [_ [_ Hoff]]]]]]]]].
  - exists d. split; [exact T | exact F].
  - rewrite K in Hoff. discriminate Hoff.
Qed.

Lemma worker_is_stopped_by_stop_only_witness :
  isRunning
    (self (snd (scrapeStateWorker
                  (with_global_stop (fun _ => true) (Sample.world (fun _ _ => Sample.page [])))
                  2 Sample2.iowa "Iowa" Sample.st0))) = true.
Proof.
  apply (worker_is_stopped_by_stop_only
           (with_global_stop (fun _ => true) (Sample.world (fun _ _ => Sample.page [])))
           2 Sample2.iowa "Iowa" Sample.st0).
  - intro t. reflexivity.
  - reflexivity.
Defined.

(** ** The command line of console-scraper.js *)

Lemma sound_more (args more : list string) (o : Cli.Options) :
  (forall s, In s (map toLowerCase args) -> In s (map toLowerCase more)) ->
  Cli.sound args o -> Cli.sound more o.
Proof.
  intros Hin [H1 [H2 [H3 H4]]]. repeat split; try assumption.
  eapply Forall_impl; [|exact H4]. intros s [Hp Hs]. split; [exact Hp | now apply Hin].
Qed.

Lemma parse_from_sound (parseInt : string -> Cli.number) (n : nat) :
  forall seen args o o',
    List.length args <= n ->
    Cli.sound seen o ->
    Cli.parse_from parseInt args o = Cli.Parsed o' ->
    Cli.sound (seen ++ args) o'.
Proof.
  induction n as [|n IH]; intros seen args o o' Hlen Hs Hp.
  - destruct args; [|cbn in Hlen; lia]. cbn in Hp. injection Hp as <-.
    now rewrite app_nil_r.
  - destruct args as [|a rest].
    { cbn in Hp. injection Hp as <-. now rewrite app_nil_r. }
    assert (Hrest : forall o1, Cli.sound (seen ++ [a]) o1 ->
                               Cli.parse_from parseInt rest o1 = Cli.Parsed o' ->
                               Cli.sound (seen ++ a :: rest) o').
    { intros o1 H1 E. replace (seen ++ a :: rest) with ((seen ++ [a]) ++ rest)
        by now rewrite <- app_assoc.
      apply (IH _ rest o1); [cbn in Hlen; lia | exact H1 | exact E]. }
    assert (Hkeep : Cli.sound (seen ++ [a]) o).
    { eapply sound_more; [|exact Hs]. intros s H. rewrite map_app, in_app_iff. now left. }
    destruct Hkeep as [K1 [K2 [K3 K4]]].
    assert (Hlast : Forall (fun s => String.prefix "--" s = false /\
                                     In s (map toLowerCase (seen ++ [a])))
                      (Cli.states o ++ [toLowerCase a])
                    \/ String.prefix "--" (toLowerCase a) = true).
    { destruct (String.prefix "--" (toLowerCase a)) eqn:P; [now right|left].
      apply Forall_app. split; [exact K4|]. constructor; [|constructor].
      split; [exact P|]. rewrite map_app, in_app_iff. right. now left. }
    cbn [Cli.parse_from] in Hp. cbv zeta in Hp.
    destruct (String.eqb (toLowerCase a) "--resume").
    { eapply Hrest; [|exact Hp]. now repeat split. }
    assert (Hskip : forall value rest' o1,
               rest = value :: rest' ->
               Cli.sound (seen ++ [a]) o1 ->
               Cli.parse_from parseInt rest' o1 = Cli.Parsed o' ->
               Cli.sound (seen ++ a :: rest) o').
    { intros value rest' o1 -> H1 E.
      replace (seen ++ a :: value :: rest') with ((seen ++ [a; value]) ++ rest')
        by now rewrite <- app_assoc.
      apply (IH _ rest' o1); [cbn in Hlen; lia | | exact E].
      eapply sound_more; [|exact H1]. intros s H.
      rewrite map_app, in_app_iff in *. destruct H as [H|H]; [now left|].
      right. cbn [map In] in *. tauto. }
    assert (Hother :
              (if String.eqb (toLowerCase a) "--stats" then
                 Cli.parse_from parseInt rest
                   {| Cli.resume := Cli.resume o; Cli.resumeState := Cli.resumeState o;
                      Cli.maxConcurrency := Cli.maxConcurrency o; Cli.showStats := true;
                      Cli.listStates := Cli.listStates o; Cli.states := Cli.states o |}
               else if String.eqb (toLowerCase a) "--list-states" then
                 Cli.parse_from parseInt rest
                   {| Cli.resume := Cli.resume o; Cli.resumeState := Cli.resumeState o;
                      Cli.maxConcurrency := Cli.maxConcurrency o;
                      Cli.showStats := Cli.showStats o;
                      Cli.listStates := true; Cli.states := Cli.states o |}
               else if String.eqb (toLowerCase a) "--help" then Cli.Exit 0
               else if negb (String.prefix "--" (toLowerCase a)) then
                 Cli.parse_from parseInt rest
                   {| Cli.resume := Cli.resume o; Cli.resumeState := Cli.resumeState o;
                      Cli.maxConcurrency := Cli.maxConcurrency o;
                      Cli.showStats := Cli.showStats o;
                      Cli.listStates := Cli.listStates o;
                      Cli.states := Cli.states o ++ [toLowerCase a] |}
               else Cli.parse_from parseInt rest o) = Cli.Parsed o' ->
              Cli.sound (seen ++ a :: rest) o').
    { intro E.
      destruct (String.eqb (toLowerCase a) "--stats");
        [eapply Hrest; [|exact E]; now repeat split|].
      destruct (String.eqb (toLowerCase a) "--list-states");
        [eapply Hrest; [|exact E]; now repeat split|].
      destruct (String.eqb (toLowerCase a) "--help"); [discriminate E|].
      destruct Hlast as [Hlast|P].
      - destruct (String.prefix "--" (toLowerCase a)); cbn [negb] in E;
          (eapply Hrest; [|exact E]); now repeat split.
      - rewrite P in E. cbn [negb] in E. eapply Hrest; [|exact E]. now repeat split. }
    destruct (String.eqb (toLowerCase a) "--resume-state").
    + destruct rest as [|value rest'].
      * destruct (String.eqb (toLowerCase a) "--max-concurrency"); apply Hother, Hp.
      * destruct (Cli.isNaN (parseInt value)) eqn:N; [discriminate Hp|].
        eapply (Hskip value rest' _ eq_refl); [|exact Hp]. now repeat split.
    + destruct (String.eqb (toLowerCase a) "--max-concurrency").
      * destruct rest as [|value rest']; [apply Hother, Hp|].
        eapply (Hskip value rest' _ eq_refl); [|exact Hp].
        repeat split; try assumption; cbn [Cli.maxConcurrency];
          destruct (Cli.isNaN (parseInt value)) eqn:N;
          destruct (Cli.below_one (parseInt value)) eqn:B; reflexivity || assumption.
      * destruct rest; apply Hother, Hp.
Qed.

Lemma parse_from_positional (parseInt : string -> Cli.number) (args : list string) :
  Forall (fun a => String.prefix "--" (toLowerCase a) = false) args ->
  forall o,
    Cli.parse_from parseInt args o
    = Cli.Parsed
        {| Cli.resume := Cli.resume o; Cli.resumeState := Cli.resumeState o;
           Cli.maxConcurrency := Cli.maxConcurrency o; Cli.showStats := Cli.showStats o;
           Cli.listStates := Cli.listStates o;
           Cli.states := Cli.states o ++ map toLowerCase args |}.
Proof.
  induction 1 as [|a args Ha _ IH]; intro o.
  - cbn [Cli.parse_from map]. rewrite app_nil_r. now destruct o.
  - assert (Hne : forall flag,
               String.prefix "--" flag = true -> String.eqb (toLowerCase a) flag = false).
    { intros flag Hf. destruct (String.eqb_spec (toLowerCase a) flag) as [E|]; [|reflexivity].
      rewrite E in Ha. congruence. }
    cbn [Cli.parse_from]. cbv zeta.
    rewrite !Hne by reflexivity. rewrite Ha. cbn [negb].
    destruct args as [|b args']; rewrite IH; cbn [Cli.resume Cli.resumeState
      Cli.maxConcurrency Cli.showStats Cli.listStates Cli.states map];
      now rewrite <- app_assoc.
Qed.

(** X13: what [parseArguments] lets through.  When it returns,
    [maxConcurrency] is a number that is not below 1 (a value that is not a
    number or is below 1 is replaced by 3), [resumeState] is a number (the
    process exits otherwise), and the state names are arguments in lower
    case that do not start with [--].  When no argument starts with [--],
    the options are the defaults with all the arguments, in lower case and
    in order, as state names. *)
Theorem parseArguments_sound (parseInt : string -> Cli.number) (args : list string) :
  (forall o,
      Cli.parseArguments parseInt args = Cli.Parsed o ->
      Cli.isNaN (Cli.maxConcurrency o) = false /\
      Cli.below_one (Cli.maxConcurrency o) = false /\
      Cli.isNaN (Cli.resumeState o) = false /\
      Forall (fun s => String.prefix "--" s = false /\ In s (map toLowerCase args))
        (Cli.states o)) /\
  (Forall (fun a => String.prefix "--" (toLowerCase a) = false) args ->
   Cli.parseArguments parseInt args
   = Cli.Parsed
       {| Cli.resume := false; Cli.resumeState := Cli.Int false 0;
          Cli.maxConcurrency := Cli.Int false 3; Cli.showStats := false;
          Cli.listStates := false; Cli.states := map toLowerCase args |}).
Proof.
  split.
  - intros o H.
    apply (parse_from_sound parseInt (List.length args) [] args Cli.defaults o
             (le_n _)); [|exact H].
    repeat split. constructor.
  - intro H. unfold Cli.parseArguments. now rewrite parse_from_positional.
Qed.

Lemma parseArguments_sound_witness :
  (Cli.isNaN (Cli.Int false 3) = false /\
   Cli.below_one (Cli.Int false 3) = false /\
   Cli.isNaN (Cli.Int false 0) = false /\
   Forall (fun s => String.prefix "--" s = false /\
                    In s (map toLowerCase ["--max-concurrency"; "0"; "Texas"]))
     ["texas"]) /\
  Cli.parseArguments (fun _ => Cli.NaN) ["California"; "texas"]
  = Cli.Parsed
      {| Cli.resume := false; Cli.resumeState := Cli.Int false 0;
         Cli.maxConcurrency := Cli.Int false 3; Cli.showStats := false;
         Cli.listStates := false; Cli.states := ["california"; "texas"] |}.
Proof.
  split.
  - apply (proj1 (parseArguments_sound (fun _ => Cli.Int false 0)
                    ["--max-concurrency"; "0"; "Texas"])
             {| Cli.resume := false; Cli.resumeState := Cli.Int false 0;
                Cli.maxConcurrency := Cli.Int false 3; Cli.showStats := false;
                Cli.listStates := false; Cli.states := ["texas"] |}).
    reflexivity.
  - apply (proj2 (parseArguments_sound (fun _ => Cli.NaN) ["California"; "texas"])).
    repeat constructor.
Defined.

(** ** CombinedScraper.scrapeRegionEvents: the browser as a fallback *)

Section Fallback.
Import CombinedScraper.
Variables (env : Env) (cfg : Config).

Lemma browsed_app (a b : list event) : browsed (a ++ b) = browsed a ++ browsed b.
Proof. apply flat_map_app. Qed.

Lemma browsed_stop (c : bool) :
  browsed (if c then [Progress StopRequested] else []) = [].
Proof. now destruct c. Qed.

Ltac browse :=
  unfold ret; cbn [snd]; reduce_state;
  rewrite ?browsed_app, ?browsed_stop, ?app_nil_r;
  cbn [browsed flat_map app];
  rewrite ?browsed_stop, ?app_nil_r.

(** [scrapeWithAxios] does not open the browser *)
Lemma scrapeWithAxios_from_quiet (url : string) (fuel : nat) :
  forall attempt st,
    browsed (trace (snd (scrapeWithAxios_from env cfg fuel attempt url st)))
    = browsed (trace st).
Proof.
  induction fuel as [|fuel IH]; intros attempt st; cbn [scrapeWithAxios_from];
    destruct (attempt <? retries cfg); try reflexivity.
  cbv zeta. destruct (URL_origin env url) as [origin|].
  - run. destruct (axios_get env (tick st) url) as [body|status message].
    + now browse.
    + destruct (attempt =? retries cfg - 1); [now browse|].
      run. rewrite IH. now browse.
  - destruct (attempt =? retries cfg - 1); [reflexivity|].
    run. rewrite IH. now browse.
Qed.

Section FallbackRegion.
Variable fullUrl : string.

(** a page on which [axios] finds links *)
Lemma visit_page_served (w : Region) (st : St) (body : Page) :
  0 < retries cfg ->
  URL_origin env (pageUrl fullUrl (currentPage w)) <> None ->
  axios_get env (tick st) (pageUrl fullUrl (currentPage w)) = HttpOk body ->
  listing_links body <> [] ->
  exists st',
    visit_page env cfg fullUrl w st
    = (Some (Next, {| currentPage := currentPage w + 1;
                      hasMorePages := hasMorePages w;
                      allEventLinks := allEventLinks w ++ listing_links body;
                      consecutiveEmptyPages := 0 |}), st') /\
    browsed (trace st') = browsed (trace st).
Proof.
  intros Hr Hurl Hget Hlinks. unfold visit_page.
  pose proof (scrapeWithAxios_spec env cfg (pageUrl fullUrl (currentPage w)) st) as H.
  pose proof (scrapeWithAxios_from_quiet (pageUrl fullUrl (currentPage w))
                (retries cfg) 0 st) as Q.
  fold (scrapeWithAxios env cfg (pageUrl fullUrl (currentPage w))) in Q.
  unfold yields in H.
  destruct (scrapeWithAxios env cfg (pageUrl fullUrl (currentPage w)) st)
    as [r st1] eqn:E.
  cbn [fst snd] in H, Q. destruct H as [resp [-> [_ [_ Hok]]]].
  destruct (Hok body Hr Hurl Hget) as [-> _].
  rewrite (bind_eq _ _ _ _ _ E).
  unfold no_links. cbn [success eventLinks negb orb].
  destruct (listing_links body) as [|l ls] eqn:L; [congruence|].
  cbn [List.length Nat.eqb]. unfold next_page. run.
  eexists. split; [reflexivity|]. browse. exact Q.
Qed.

(** a page on which neither path finds a link: the browser is opened once *)
Lemma visit_page_nothing (w : Region) (st : St) :
  yields_nothing env (pageUrl fullUrl (currentPage w)) ->
  exists st',
    visit_page env cfg fullUrl w st
    = (Some (if 2 <=? consecutiveEmptyPages w + 1
             then (Break,
                   {| currentPage := currentPage w; hasMorePages := false;
                      allEventLinks := allEventLinks w;
                      consecutiveEmptyPages := consecutiveEmptyPages w + 1 |})
             else (Next,
                   {| currentPage := currentPage w + 1;
                      hasMorePages := hasMorePages w;
                      allEventLinks := allEventLinks w;
                      consecutiveEmptyPages := consecutiveEmptyPages w + 1 |})), st') /\
    browsed (trace st') = browsed (trace st) ++ [pageUrl fullUrl (currentPage w)].
Proof.
  intro Hnone. unfold visit_page.
  pose proof (scrapeWithAxios_spec env cfg (pageUrl fullUrl (currentPage w)) st) as H.
  pose proof (scrapeWithAxios_from_quiet (pageUrl fullUrl (currentPage w))
                (retries cfg) 0 st) as Q.
  fold (scrapeWithAxios env cfg (pageUrl fullUrl (currentPage w))) in Q.
  unfold yields in H.
  destruct (scrapeWithAxios env cfg (pageUrl fullUrl (currentPage w)) st)
    as [r st1] eqn:E.
  cbn [fst snd] in H, Q. destruct H as [resp [-> [_ [Hno _]]]].
  rewrite (bind_eq _ _ _ _ _ E).
  rewrite (Hno (fun t => proj1 (Hnone t))).
  rewrite run_scrapeWithPuppeteer.
  pose proof (proj2 (Hnone (tick st1))) as Hp.
  destruct (puppeteer_get env (tick st1) (pageUrl fullUrl (currentPage w)))
    as [l| |m]; cbn [puppeteer_empty] in Hp; [| |discriminate].
  - unfold no_links at 1. cbn [success eventLinks negb orb]. rewrite Hp.
    destruct (2 <=? consecutiveEmptyPages w + 1).
    + run. eexists. split; [reflexivity|]. browse. now rewrite Q.
    + unfold next_page. run. rewrite app_nil_r.
      eexists. split; [reflexivity|]. browse. now rewrite Q.
  - cbn [no_links success eventLinks negb orb].
    destruct (2 <=? consecutiveEmptyPages w + 1).
    + run. eexists. split; [reflexivity|]. browse. now rewrite Q.
    + unfold next_page. run. rewrite app_nil_r.
      eexists. split; [reflexivity|]. browse. now rewrite Q.
Qed.

(** the loop over the pages that [axios] serves, and the two empty pages
    that end it *)
Lemma region_loop_served (pages : list (list string)) :
  0 < retries cfg ->
  forall first fuel w st,
    (forall p, p < List.length pages ->
               URL_origin env (pageUrl fullUrl (first + p)) <> None) ->
    serves env fullUrl first pages ->
    yields_nothing env (pageUrl fullUrl (first + List.length pages)) ->
    yields_nothing env (pageUrl fullUrl (first + List.length pages + 1)) ->
    currentPage w = first ->
    hasMorePages w = true ->
    consecutiveEmptyPages w = 0 ->
    List.length pages + 2 <= fuel ->
    exists w' st',
      region_loop env cfg fullUrl fuel w st = (Some w', st') /\
      allEventLinks w' = allEventLinks w ++ List.concat pages /\
      browsed (trace st')
      = browsed (trace st)
          ++ [pageUrl fullUrl (first + List.length pages);
              pageUrl fullUrl (first + List.length pages + 1)].
Proof.
  intro Hr. induction pages as [|links pages IH];
    intros first fuel w st Hu Hs Hn1 Hn2 Hp Hm He Hf.
  - cbn [List.length] in *. rewrite Nat.add_0_r in *.
    destruct fuel as [|[|fuel]]; [lia | lia |].
    cbn [region_loop]. rewrite Hm.
    rewrite <- Hp in Hn1.
    destruct (visit_page_nothing w st Hn1) as [st1 [E1 B1]].
    rewrite He, Hm in E1. cbn [Nat.add Nat.leb] in E1.
    rewrite (bind_eq _ _ _ _ _ E1). cbn [fst snd region_loop hasMorePages].
    match type of E1 with
    | _ = (Some (_, ?w1), _) =>
        assert (Hn2' : yields_nothing env (pageUrl fullUrl (currentPage w1)))
          by (cbn [currentPage]; now rewrite Hp);
        destruct (visit_page_nothing w1 st1 Hn2') as [st2 [E2 B2]]
    end.
    cbn [consecutiveEmptyPages Nat.add Nat.leb currentPage allEventLinks] in E2, B2.
    rewrite (bind_eq _ _ _ _ _ E2). cbn [fst snd]. unfold ret.
    do 2 eexists. split; [reflexivity|]. cbn [allEventLinks List.concat].
    split; [now rewrite app_nil_r|].
    rewrite B2, B1, Hp, <- app_assoc. reflexivity.
  - cbn [List.length] in *.
    destruct fuel as [|fuel]; [lia|].
    cbn [region_loop]. rewrite Hm.
    destruct (Hs 0 links eq_refl) as [Hne Hget].
    destruct (Hget (tick st)) as [body [Hbody Hl]].
    rewrite Nat.add_0_r, <- Hp in Hbody. rewrite <- Hl in Hne.
    assert (Hurl : URL_origin env (pageUrl fullUrl (currentPage w)) <> None).
    { rewrite Hp. specialize (Hu 0 ltac:(lia)). now rewrite Nat.add_0_r in Hu. }
    destruct (visit_page_served w st body Hr Hurl Hbody Hne) as [st1 [E1 B1]].
    rewrite (bind_eq _ _ _ _ _ E1). cbn [fst snd].
    match type of E1 with
    | _ = (Some (_, ?w1), _) =>
        destruct (IH (first + 1) fuel w1 st1) as [w' [st' [E [A B]]]]
    end.
    + intros p Hlt. specialize (Hu (S p) ltac:(lia)).
      now replace (first + 1 + p) with (first + S p) by lia.
    + intros p l Hnth. destruct (Hs (S p) l Hnth) as [H1 H2]. split; [exact H1|].
      intro t. destruct (H2 t) as [b Hb]. exists b.
      now replace (first + 1 + p) with (first + S p) by lia.
    + now replace (first + 1 + List.length pages)
        with (first + S (List.length pages)) by lia.
    + now replace (first + 1 + List.length pages + 1)
        with (first + S (List.length pages) + 1) by lia.
    + cbn [currentPage]. lia.
    + exact Hm.
    + reflexivity.
    + lia.
    + exists w', st'. split; [exact E|]. split.
      * rewrite A. cbn [allEventLinks List.concat]. now rewrite Hl, <- app_assoc.
      * rewrite B, B1.
        now replace (first + 1 + List.length pages)
          with (first + S (List.length pages)) by lia.
Qed.
End FallbackRegion.
End Fallback.

(** X14: [scrapeRegionEvents] of [CombinedScraper] opens the browser only
    where [axios] finds nothing.  When [axios] finds links on the first [n]
    pages of a region, whose addresses [new URL] accepts, and neither path
    finds any on the two pages after them, the function returns the links of
    these [n] pages in order, each once, and the browser is opened for the
    two empty pages only. *)
Theorem scrapeRegionEvents_browser_is_fallback (env : Env)
  (cfg : CombinedScraper.Config) (regionUrl stateName : string)
  (pages : list (list string)) (fuel : nat) (st : St) :
  let fullUrl := region_url cfg regionUrl in
  let n := List.length pages in
  0 < CombinedScraper.retries cfg ->
  (forall p, p < n -> URL_origin env (pageUrl fullUrl (1 + p)) <> None) ->
  serves env fullUrl 1 pages ->
  yields_nothing env (pageUrl fullUrl (n + 1)) ->
  yields_nothing env (pageUrl fullUrl (n + 2)) ->
  n + 2 <= fuel ->
  exists st',
    CombinedScraper.scrapeRegionEvents env cfg fuel regionUrl stateName st
    = (Some (JsSet.of_array (List.concat pages)), st') /\
    browsed (trace st')
    = browsed (trace st) ++ [pageUrl fullUrl (n + 1); pageUrl fullUrl (n + 2)].
Proof.
  intros fullUrl n Hr Hu Hs Hn1 Hn2 Hf.
  unfold CombinedScraper.scrapeRegionEvents. fold (region_url cfg regionUrl).
  fold fullUrl.
  destruct (region_loop_served env cfg fullUrl pages Hr 1 fuel
              {| CombinedScraper.currentPage := 1;
                 CombinedScraper.hasMorePages := true;
                 CombinedScraper.allEventLinks := [];
                 CombinedScraper.consecutiveEmptyPages := 0 |} st)
    as [w' [st' [E [A B]]]]; try reflexivity; try assumption.
  - fold n. now replace (1 + n) with (n + 1) by lia.
  - fold n. now replace (1 + n + 1) with (n + 2) by lia.
  - exists st'. rewrite (bind_eq _ _ _ _ _ E). unfold ret. rewrite A.
    split; [reflexivity|]. rewrite B. fold n.
    now replace (1 + n) with (n + 1) by lia; replace (n + 1 + 1) with (n + 2) by lia.
Qed.

Lemma scrapeRegionEvents_browser_is_fallback_witness :
  exists st',
    CombinedScraper.scrapeRegionEvents Listing.env Sample2.config 4
      Sample2.iowa "Iowa" Sample.st0
    = (Some ["/event/a/"; "/event/b/"; "/event/c/"], st') /\
    browsed (trace st')
    = [String.append Sample2.iowa_url "/page/3/";
       String.append Sample2.iowa_url "/page/4/"].
Proof.
  apply (scrapeRegionEvents_browser_is_fallback Listing.env Sample2.config
           Sample2.iowa "Iowa" Listing.pages 4 Sample.st0).
  - cbn. lia.
  - intros p _. discriminate.
  - intros [|[|[|p]]] links H; cbn in H; try discriminate; injection H as <-;
      (split; [discriminate|]); intro t; eexists; split; reflexivity.
  - intro t. split; reflexivity.
  - intro t. split; reflexivity.
  - cbn. lia.
Defined.

(** ** Resuming without a checkpoint *)

Lemma loadProgress_nothing (env : Env) (st : St) :
  no_checkpoint env st ->
  exists st',
    loadProgress env st = (Some false, st') /\
    (trackedEventLinks (self st') = trackedEventLinks (self st) /\
     completedStates (self st') = completedStates (self st) /\
     stateProgress (self st') = stateProgress (self st) /\
     processedEvents (self st') = processedEvents (self st) /\
     totalEventsFound (self st') = totalEventsFound (self st) /\
     currentState (self st') = currentState (self st)) /\
    disk st' = disk st /\
    page_requests (trace st') = page_requests (trace st) /\
    detail_fetches (trace st') = detail_fetches (trace st).
Proof.
  unfold no_checkpoint, loadProgress. intro H.
  destruct (disk st (progressPath (self st))) as [text|].
  - rewrite H. run. eexists. split; [reflexivity|]. observe. repeat split; reflexivity.
  - run. eexists. split; [reflexivity|]. observe. repeat split; reflexivity.
Qed.

(** X15: resuming without a checkpoint.  When the progress file is missing
    or does not parse, [loadProgress] returns [false] and a resumed
    [scrapeAllEvents] goes on all the same: it runs its loop from the index
    it was given (or, called with [true], from the [currentState] the
    scraper holds) with the tracked links, the completed states, the page
    cursors and the counters of events that the scraper has in memory, so
    the states before that index are passed over. *)
Theorem resume_without_checkpoint (env : Env) (fuel : nat)
  (stateLinks : list (string * string)) (arg : ResumeArg) (st : St) :
  arg <> ResumeIndex 0 ->
  no_checkpoint env st ->
  fst (loadProgress env st) = Some false /\
  exists st1,
    scrapeAllEvents env fuel stateLinks arg st
    = bind (states_loop env fuel (List.length stateLinks) (unloaded_index arg (self st))
              (skipn (unloaded_index arg (self st)) stateLinks))
        (run_finish env (List.length stateLinks)) st1 /\
    trackedEventLinks (self st1) = trackedEventLinks (self st) /\
    completedStates (self st1) = completedStates (self st) /\
    stateProgress (self st1) = stateProgress (self st) /\
    processedEvents (self st1) = processedEvents (self st) /\
    totalEventsFound (self st1) = totalEventsFound (self st) /\
    disk st1 = disk st /\
    page_requests (trace st1) = page_requests (trace st) /\
    detail_fetches (trace st1) = detail_fetches (trace st).
Proof.
  intros Harg Hno. split.
  { destruct (loadProgress_nothing env st Hno) as [st' [E _]]. now rewrite E. }
  unfold scrapeAllEvents. rewrite run_update.
  destruct (loadProgress_nothing env (with_self (set_isRunning true) st))
    as [st' [E [[H1 [H2 [H3 [H4 [H5 H6]]]]] [Hd [Hp Hf]]]]]; [exact Hno|].
  cbn [self with_self set_isRunning trackedEventLinks completedStates stateProgress
         processedEvents totalEventsFound currentState] in H1, H2, H3, H4, H5, H6.
  cbn [disk with_self] in Hd.
  cbn [trace with_self] in Hp, Hf.
  destruct arg as [[|i]|]; [contradiction| |].
  - cbv iota. rewrite !run_bind, (bind_eq _ _ _ _ _ E). run. rewrite ?H6.
    cbn [unloaded_index].
    eexists. split; [reflexivity|]. observe. rewrite Hd, Hp, Hf.
    repeat split; assumption.
  - cbv iota. rewrite !run_bind, (bind_eq _ _ _ _ _ E). run. rewrite ?H6.
    cbn [unloaded_index].
    eexists. split; [reflexivity|]. observe. rewrite Hd, Hp, Hf.
    repeat split; assumption.
Qed.

Lemma resume_without_checkpoint_witness :
  fst (loadProgress (Sample.world (fun _ _ => Sample.page [])) Sample.st0) = Some false /\
  exists st1,
    scrapeAllEvents (Sample.world (fun _ _ => Sample.page [])) 3 Sample2.three_states
      ResumeStored Sample.st0
    = bind (states_loop (Sample.world (fun _ _ => Sample.page [])) 3 3 0
              Sample2.three_states)
        (run_finish (Sample.world (fun _ _ => Sample.page [])) 3) st1 /\
    trackedEventLinks (self st1) = [] /\
    completedStates (self st1) = [] /\
    stateProgress (self st1) = [] /\
    processedEvents (self st1) = 0 /\
    totalEventsFound (self st1) = 0 /\
    disk st1 = disk Sample.st0 /\
    page_requests (trace st1) = [] /\
    detail_fetches (trace st1) = [].
Proof.
  apply (resume_without_checkpoint (Sample.world (fun _ _ => Sample.page [])) 3
           Sample2.three_states ResumeStored Sample.st0).
  - discriminate.
  - reflexivity.
Defined.

(** ** The states that the command line selects *)

Lemma prefix_append (sub s : string) :
  String.prefix sub s = true <-> exists post, s = String.append sub post.
Proof.
  revert s. induction sub as [|c sub IH]; intro s.
  - split; [intros _; now exists s | destruct s; reflexivity].
  - destruct s as [|d s]; cbn [String.prefix String.append].
    + split; [discriminate | intros [post H]; discriminate H].
    + destruct (Ascii.ascii_dec c d) as [->|Hne].
      * rewrite IH. split; intros [post H]; exists post; congruence.
      * split; [discriminate | intros [post H]; congruence].
Qed.

Lemma append_assoc (a b c : string) :
  String.append (String.append a b) c = String.append a (String.append b c).
Proof. induction a as [|x a IH]; cbn [String.append]; congruence. Qed.

(** [includes] finds the substrings *)
Lemma includes_spec (s sub : string) :
  Cli.includes s sub = true
  <-> exists pre post, s = String.append pre (String.append sub post).
Proof.
  induction s as [|c s IH]; cbn [Cli.includes]; rewrite orb_true_iff, prefix_append.
  - split.
    + intros [[post H]|H]; [|discriminate]. now exists EmptyString, post.
    + intros [[|x pre] [post H]]; [left; now exists post | discriminate H].
  - rewrite IH. split.
    + intros [[post H]|[pre [post H]]].
      * now exists EmptyString, post.
      * exists (String c pre), post. cbn [String.append]. congruence.
    + intros [[|x pre] [post H]].
      * left. now exists post.
      * right. exists pre, post. cbn [String.append] in H. congruence.
Qed.

Lemma includes_trans (a b c : string) :
  Cli.includes a b = true -> Cli.includes b c = true -> Cli.includes a c = true.
Proof.
  rewrite !includes_spec. intros [p1 [q1 ->]] [p2 [q2 ->]].
  exists (String.append p1 p2), (String.append q2 q1).
  now rewrite !append_assoc.
Qed.

Lemma existsb_on_map {A B} (f : B -> bool) (g : A -> B) (l : list A) :
  existsb f (map g l) = existsb (fun x => f (g x)) l.
Proof. induction l as [|x l IH]; cbn [map existsb]; congruence. Qed.

(** X16: the states that [main] of [console-scraper.js] runs.  Without a
    state name on the command line these are all the states; with names,
    they are the states, in the order of the list, whose name contains one
    of the names as a substring, whatever the case of the letters.  So a
    state whose name contains the name of a selected state is selected with
    it. *)
Theorem states_are_selected_by_substring (states : list string)
  (allStateLinks : list (string * string)) :
  (states = [] -> Cli.stateLinksToProcess states allStateLinks = allStateLinks) /\
  (states <> [] ->
   Cli.stateLinksToProcess states allStateLinks
   = filter (fun stateObj =>
               existsb (fun arg => Cli.includes (toLowerCase (snd stateObj))
                                     (toLowerCase arg)) states)
       allStateLinks) /\
  (forall link name,
      states <> [] ->
      (In (link, name) (Cli.stateLinksToProcess states allStateLinks)
       <-> In (link, name) allStateLinks /\
           exists arg pre post,
             In arg states /\
             toLowerCase name
             = String.append pre (String.append (toLowerCase arg) post))) /\
  (forall link name link' name',
      In (link, name) (Cli.stateLinksToProcess states allStateLinks) ->
      In (link', name') allStateLinks ->
      Cli.includes (toLowerCase name') (toLowerCase name) = true ->
      In (link', name') (Cli.stateLinksToProcess states allStateLinks)).
Proof.
  assert (Hfilter : states <> [] ->
            Cli.stateLinksToProcess states allStateLinks
            = filter (fun stateObj =>
                        existsb (fun arg => Cli.includes (toLowerCase (snd stateObj))
                                              (toLowerCase arg)) states)
                allStateLinks).
  { intro Hne. unfold Cli.stateLinksToProcess.
    destruct states as [|s states']; [contradiction|]. cbn [List.length Nat.ltb Nat.leb].
    apply filter_ext. intro a. now rewrite existsb_on_map. }
  assert (Hin : forall link name,
             states <> [] ->
             (In (link, name) (Cli.stateLinksToProcess states allStateLinks)
              <-> In (link, name) allStateLinks /\
                  exists arg, In arg states /\
                              Cli.includes (toLowerCase name) (toLowerCase arg) = true)).
  { intros link name Hne. rewrite (Hfilter Hne), filter_In, existsb_exists.
    reflexivity. }
  split; [|split; [exact Hfilter|split]].
  - intros ->. reflexivity.
  - intros link name Hne. rewrite (Hin link name Hne).
    split; intros [H [arg Harg]]; (split; [exact H|]).
    + destruct Harg as [Ha Hi]. apply includes_spec in Hi.
      destruct Hi as [pre [post Hi]]. now exists arg, pre, post.
    + destruct Harg as [pre [post [Ha Hi]]]. exists arg. split; [exact Ha|].
      apply includes_spec. now exists pre, post.
  - intros link name link' name' Hsel Hall Hinc.
    destruct states as [|s states'] eqn:Es; [exact Hall|]. rewrite <- Es in *.
    assert (Hne : states <> []) by (rewrite Es; discriminate).
    apply (Hin _ _ Hne). split; [exact Hall|].
    apply (Hin _ _ Hne) in Hsel. destruct Hsel as [_ [arg [Ha Hi]]].
    exists arg. split; [exact Ha|]. exact (includes_trans _ _ _ Hinc Hi).
Qed.

Lemma states_are_selected_by_substring_witness :
  In ("/west-virginia-car-events/", "West Virginia")
    (Cli.stateLinksToProcess ["virginia"]
       [("/ohio-car-events/", "Ohio"); ("/virginia-car-events/", "Virginia");
        ("/west-virginia-car-events/", "West Virginia")]).
Proof.
  apply (proj2 (proj2 (proj2 (states_are_selected_by_substring ["virginia"]
           [("/ohio-car-events/", "Ohio"); ("/virginia-car-events/", "Virginia");
            ("/west-virginia-car-events/", "West Virginia")])))
           "/virginia-car-events/" "Virginia").
  - vm_compute. left. reflexivity.
  - right. right. left. reflexivity.
  - reflexivity.
Defined.
